(** * v4l2_bridge: a shallow embedding of the stream engine

    The program relays buffers between two V4L2 video nodes.  This file
    embeds [src/v4l2_bridge.c] (device operations, [device_init],
    [stream_init], [stream_on], [stream_off], and the reading of the
    command line) and states the properties of the specification over
    that embedding.

    Conventions.
    - C integers are [Z]; the wrap-around of [unsigned int] is written out
      with [u32].
    - The kernel is the environment.  What it answers during setup is a
      [driver] record per video node; what it answers while the relay loop
      runs is a script of [round]s, one per call of [poll].
    - Every call that leaves the process (ioctl, open, poll, usleep,
      gettimeofday, output on stdout or stderr, abort) is appended to the
      [trace] of the [world].
    - [ASSERT] in the source prints and calls [abort()]: a computation is a
      function [world -> result], and [Abort] is one of the results.
    - Of the kernel side only what the program can observe is kept: the
      indices queued on each node, the current formats and the handles
      given out.  VIDIOC_STREAMON and VIDIOC_STREAMOFF are events of the
      trace and nothing more. *)

From Stdlib Require Import ZArith List Bool Lia Ascii String Permutation FinFun.
Import ListNotations.
Open Scope Z_scope.

(** ** Constants of <linux/videodev2.h> and <poll.h> *)

Definition V4L2_CAP_VIDEO_CAPTURE : Z := 1.      (* 0x00000001 *)
Definition V4L2_CAP_VIDEO_OUTPUT : Z := 2.       (* 0x00000002 *)
Definition V4L2_BUF_TYPE_VIDEO_CAPTURE : Z := 1.
Definition V4L2_BUF_TYPE_VIDEO_OUTPUT : Z := 2.
Definition V4L2_MEMORY_MMAP : Z := 1.
Definition V4L2_MEMORY_DMABUF : Z := 4.
Definition POLLIN : Z := 1.
Definition POLLOUT : Z := 4.

(** [unsigned int] is 32 bits wide. *)
Definition u32 (x : Z) : Z := x mod 2 ^ 32.

(** ** Data model (the structs of the source) *)

Record v4l2_pix_format := mk_pix {
  width : Z;
  height : Z;
  pixelformat : Z;
  pix_field : Z;
  bytesperline : Z;
  sizeimage : Z;
  colorspace : Z
}.

(** [struct device] *)
Record device := mk_device {
  devname : string;
  fd : Z;
  type : Z;
  buf_type : Z;
  mem_type : Z;
  export : bool
}.

(** [struct config] *)
Record config := mk_config {
  fourcc : Z;
  format : v4l2_pix_format;
  num_buffers : Z;
  fps : Z;
  frame_us : Z
}.

(** [struct buffer] *)
Record buffer := mk_buffer {
  index : Z;
  dbuf_fd : Z
}.

(** [struct stream]; the fields [in], [out] and [config] of the source are
    [s_in], [s_out] and [s_config] here. *)
Record stream := mk_stream {
  s_in : device;
  s_out : device;
  buffers : list buffer;
  s_config : config
}.

(** Which of the two devices of a stream a [struct device *] points to:
    [&s->in] or [&s->out]. *)
Inductive side := DevIn | DevOut.

Definition side_eqb (a b : side) : bool :=
  match a, b with
  | DevIn, DevIn | DevOut, DevOut => true
  | _, _ => false
  end.

(** [struct v4l2_buffer], the fields the program fills. *)
Record v4l2_buffer := mk_vb {
  vb_type : Z;
  vb_memory : Z;
  vb_index : Z;
  vb_fd : Z
}.

(** [struct timeval] *)
Record timeval := mk_tv { tv_sec : Z; tv_usec : Z }.

(** ** Errors: one constructor per [ASSERT] of the source, carrying the
    values its message prints. *)
Inductive err :=
| E_open (name : string)
| E_QUERYCAP
| E_caps (capabilities ty : Z)
| E_G_FMT
| E_S_FMT
| E_REQBUFS
| E_alloc_short (granted requested : Z)
| E_EXPBUF
| E_QBUF (idx : Z)
| E_DQBUF
| E_STREAMON
| E_STREAMOFF.

(** ** Observable events *)
Inductive event :=
| EvOpen (name : string) (ret : Z)
| EvQUERYCAP (d : side)
| EvG_FMT (d : side) (ty : Z)
| EvS_FMT (d : side) (ty : Z) (pix : v4l2_pix_format)
| EvREQBUFS (d : side) (count ty memory : Z)
| EvEXPBUF (d : side) (ty idx : Z) (ret efd : Z)
| EvQBUF (d : side) (vb : v4l2_buffer) (ret : Z)
| EvDQBUF (d : side) (vb : v4l2_buffer) (ret : Z)
| EvSTREAMON (d : side) (ty : Z)
| EvSTREAMOFF (d : side) (ty : Z)
| EvPoll (timeout : Z)
| EvCancelled
| EvGettimeofday (now : timeval)
| EvUsleep (us : Z)
| EvPrintf (w h pf : Z)
| EvStderr (e : err)
| EvAbort.

(** ** The world: the trace and the kernel side of the two video nodes *)
Record world := mk_world {
  trace : list event;
  q_in : list Z;          (* indices queued on the input node *)
  q_out : list Z;         (* indices queued on the output node *)
  held : list Z;          (* indices dequeued and not queued again yet *)
  fmt_in : v4l2_pix_format;   (* current format of the input node *)
  fmt_out : v4l2_pix_format;  (* current format of the output node *)
  exported : list (side * Z * Z)
     (* dmabuf handles given out: exporting node, exported index, handle *)
}.

Definition emit (e : event) (w : world) : world :=
  mk_world (trace w ++ [e]) (q_in w) (q_out w) (held w)
           (fmt_in w) (fmt_out w) (exported w).

Definition queue_of (d : side) (w : world) : list Z :=
  match d with DevIn => q_in w | DevOut => q_out w end.

Definition fmt_of (d : side) (w : world) : v4l2_pix_format :=
  match d with DevIn => fmt_in w | DevOut => fmt_out w end.

Definition set_fmt (d : side) (p : v4l2_pix_format) (w : world) : world :=
  match d with
  | DevIn => mk_world (trace w) (q_in w) (q_out w) (held w) p (fmt_out w)
                      (exported w)
  | DevOut => mk_world (trace w) (q_in w) (q_out w) (held w) (fmt_in w) p
                       (exported w)
  end.

Definition set_queues (qi qo h : list Z) (w : world) : world :=
  mk_world (trace w) qi qo h (fmt_in w) (fmt_out w) (exported w).

Definition add_export (d : side) (idx efd : Z) (w : world) : world :=
  mk_world (trace w) (q_in w) (q_out w) (held w) (fmt_in w) (fmt_out w)
           (exported w ++ [(d, idx, efd)]).

(** Remove the first occurrence of an index from a queue. *)
Fixpoint remove_one (i : Z) (l : list Z) : list Z :=
  match l with
  | [] => []
  | x :: t => if x =? i then t else x :: remove_one i t
  end.

Definition memb (i : Z) (l : list Z) : bool := existsb (Z.eqb i) l.

(** ** What a video node answers during setup *)
Record driver := mk_driver {
  drv_open : Z;                       (* result of open() *)
  drv_querycap : Z;                   (* result of VIDIOC_QUERYCAP *)
  drv_caps : Z;                       (* caps.capabilities *)
  drv_g_fmt : Z;                      (* result of the first VIDIOC_G_FMT *)
  drv_s_fmt : Z;                      (* result of VIDIOC_S_FMT *)
  drv_coerce : v4l2_pix_format -> v4l2_pix_format;
                                      (* the format the node settles on *)
  drv_g_fmt2 : Z;                     (* result of the second VIDIOC_G_FMT *)
  drv_reqbufs : Z;                    (* result of VIDIOC_REQBUFS *)
  drv_grant : Z -> Z;                 (* rqbufs.count granted for a request *)
  drv_expbuf : nat -> Z * Z;          (* k-th VIDIOC_EXPBUF: result, eb.fd *)
  drv_qbuf : Z -> Z;                  (* VIDIOC_QBUF while priming, by index *)
  drv_streamon : Z;
  drv_streamoff : Z
}.

(** ** What the kernel answers in one turn of the relay loop *)
Record round := mk_round {
  poll_ret : Z;            (* return value of poll() *)
  poll_cancel : bool;      (* the thread is cancelled inside poll() *)
  revents_in : Z;          (* fds[0].revents *)
  revents_out : Z;         (* fds[1].revents *)
  now1 : timeval;          (* first gettimeofday *)
  sleep_cancel : bool;     (* the thread is cancelled inside usleep() *)
  now2 : timeval;          (* second gettimeofday *)
  dq_in : Z * Z;           (* VIDIOC_DQBUF on input: result, vb.index *)
  q_out_ret : Z;           (* VIDIOC_QBUF on output *)
  dq_out : Z * Z;          (* VIDIOC_DQBUF on output: result, vb.index *)
  q_in_ret : Z             (* VIDIOC_QBUF on input *)
}.

(** ** Computations *)
Inductive result (A : Type) :=
| Ok (a : A) (w : world)       (* the call returned *)
| Abort (e : err) (w : world)  (* an ASSERT fired: the process is gone *)
| Cancel (w : world)           (* the thread acts on a cancellation request *)
| Pending (w : world).         (* the script of rounds ended inside poll() *)
Arguments Ok {A} a w.
Arguments Abort {A} e w.
Arguments Cancel {A} w.
Arguments Pending {A} w.

Definition M (A : Type) : Type := world -> result A.

Definition ret {A} (a : A) : M A := fun w => Ok a w.

Definition bind {A B} (m : M A) (k : A -> M B) : M B :=
  fun w =>
    match m w with
    | Ok a w' => k a w'
    | Abort e w' => Abort e w'
    | Cancel w' => Cancel w'
    | Pending w' => Pending w'
    end.

Notation "x <- m ;; k" := (bind m (fun x => k))
  (at level 61, m at next level, right associativity).
Notation "m ;;; k" := (bind m (fun _ => k))
  (at level 61, right associativity).

Definition world_of {A} (r : result A) : world :=
  match r with
  | Ok _ w | Abort _ w | Cancel w | Pending w => w
  end.

Definition do_emit (e : event) : M unit := fun w => Ok tt (emit e w).

(** [ASSERT(cond, ...)]: when [cond] holds, print on stderr and [abort()]. *)
Definition ASSERT (cond : bool) (e : err) : M unit :=
  fun w =>
    if cond then Abort e (emit EvAbort (emit (EvStderr e) w))
    else Ok tt w.

(** [pthread_cleanup_push(h, _); body; pthread_cleanup_pop(e)] with a
    non-zero [e]: the handler runs when the body returns and when the
    thread is cancelled inside it; [abort()] runs no handler. *)
Definition with_cleanup (h : M unit) (body : M unit) : M unit :=
  fun w =>
    match body w with
    | Ok _ w' => h w'
    | Cancel w' =>
        match h w' with
        | Ok _ w'' => Cancel w''
        | r => r
        end
    | Abort e w' => Abort e w'
    | Pending w' => Pending w'
    end.

(** [for (i = i0; i < i0 + n; i++) body] over a loop-carried state. *)
Fixpoint for_loop {S : Type} (n : nat) (i : Z) (body : Z -> S -> M S)
    (s : S) : M S :=
  match n with
  | O => ret s
  | Datatypes.S n' => s' <- body i s ;; for_loop n' (i + 1) body s'
  end.

(** ** Kernel side of the ioctls *)

(** VIDIOC_QBUF: on success the index joins the queue of the node. *)
Definition ioctl_QBUF (d : side) (vb : v4l2_buffer) (r : Z) : M Z :=
  fun w =>
    let w1 := emit (EvQBUF d vb r) w in
    if r =? 0 then
      let h := remove_one (vb_index vb) (held w1) in
      Ok r (match d with
            | DevIn => set_queues (q_in w1 ++ [vb_index vb]) (q_out w1) h w1
            | DevOut => set_queues (q_in w1) (q_out w1 ++ [vb_index vb]) h w1
            end)
    else Ok r w1.

(** VIDIOC_DQBUF: the kernel hands back a buffer that is queued on the node;
    an answer naming an index that is not queued is an error. *)
Definition ioctl_DQBUF (d : side) (vb : v4l2_buffer) (reply : Z * Z)
    : M (Z * v4l2_buffer) :=
  fun w =>
    let '(r, i) := reply in
    if (r =? 0) && memb i (queue_of d w) then
      let w1 := emit (EvDQBUF d vb 0) w in
      let q := remove_one i (queue_of d w1) in
      let h := held w1 ++ [i] in
      Ok (0, mk_vb (vb_type vb) (vb_memory vb) i (vb_fd vb))
         (match d with
          | DevIn => set_queues q (q_out w1) h w1
          | DevOut => set_queues (q_in w1) q h w1
          end)
    else
      let r' := if r =? 0 then -1 else r in
      Ok (r', vb) (emit (EvDQBUF d vb r') w).

Definition exports_of (d : side) (w : world) : nat :=
  List.length (filter (fun x => side_eqb (fst (fst x)) d) (exported w)).

Section Engine.

(** The two video nodes of the stream. *)
Variable drv : side -> driver.

(** VIDIOC_EXPBUF: on success the kernel gives out a handle for the buffer
    whose index the request names. *)
Definition ioctl_EXPBUF (d : side) (ty idx : Z) : M (Z * Z) :=
  fun w =>
    let '(r, efd) := drv_expbuf (drv d) (exports_of d w) in
    let w1 := emit (EvEXPBUF d ty idx r efd) w in
    Ok (r, efd) (if r <? 0 then w1 else add_export d idx efd w1).

(** ** Video device operations *)

(** The [vb] that [device_queue_buffer] fills in: [memset], then
    [vb.type = d->buf_type], [vb.memory = d->mem_type],
    [vb.index = b->index], [vb.m.fd = b->dbuf_fd]. *)
Definition queue_request (d : device) (b : buffer) : v4l2_buffer :=
  mk_vb (buf_type d) (mem_type d) (index b) (dbuf_fd b).

(** [device_queue_buffer] *)
Definition device_queue_buffer (sd : side) (d : device) (b : buffer)
    (reply : Z) : M unit :=
  r <- ioctl_QBUF sd (queue_request d b) reply ;;
  ASSERT (negb (r =? 0)) (E_QBUF (index b)).

(** [bs[i]].  An index outside the pool is undefined behaviour in C; the
    kernel only hands back indices of buffers that were queued. *)
Definition buffer_at (bs : list buffer) (i : Z) : buffer :=
  nth (Z.to_nat i) bs (mk_buffer 0 0).

(** The [vb] that [device_dequeue_buffer] fills in: [memset], then
    [vb.type = d->type], [vb.memory = d->mem_type]. *)
Definition dequeue_request (d : device) : v4l2_buffer :=
  mk_vb (type d) (mem_type d) 0 0.

(** [device_dequeue_buffer] *)
Definition device_dequeue_buffer (sd : side) (d : device) (bs : list buffer)
    (reply : Z * Z) : M buffer :=
  rv <- ioctl_DQBUF sd (dequeue_request d) reply ;;
  ASSERT (negb (fst rv =? 0)) E_DQBUF ;;;
  ret (buffer_at bs (vb_index (snd rv))).

(** [device_prepare_buffer]: [eb] is zeroed and only [eb.type] is set. *)
Definition device_prepare_buffer (sd : side) (d : device) (b : buffer)
    : M buffer :=
  if export d then
    re <- ioctl_EXPBUF sd (buf_type d) 0 ;;
    ASSERT (fst re <? 0) E_EXPBUF ;;;
    ret (mk_buffer (index b) (snd re))
  else ret b.

(** [device_off] *)
Definition device_off (sd : side) (d : device) : M unit :=
  do_emit (EvSTREAMOFF sd (buf_type d)) ;;;
  ASSERT (drv_streamoff (drv sd) <? 0) E_STREAMOFF.

(** [device_on] *)
Definition device_on (sd : side) (d : device) : M unit :=
  do_emit (EvSTREAMON sd (buf_type d)) ;;;
  ASSERT (drv_streamon (drv sd) <? 0) E_STREAMON.

(** VIDIOC_G_FMT: reads the current format of the node into [fmt]. *)
Definition ioctl_G_FMT (d : side) (ty : Z) (pix : v4l2_pix_format) (r : Z)
    : M (Z * v4l2_pix_format) :=
  fun w =>
    Ok (r, if r <? 0 then pix else fmt_of d w) (emit (EvG_FMT d ty) w).

(** VIDIOC_S_FMT: the node settles on a format of its choice for the
    request and writes it back into [fmt]. *)
Definition ioctl_S_FMT (d : side) (ty : Z) (pix : v4l2_pix_format)
    : M (Z * v4l2_pix_format) :=
  fun w =>
    let r := drv_s_fmt (drv d) in
    let w1 := emit (EvS_FMT d ty pix) w in
    if r <? 0 then Ok (r, pix) w1
    else Ok (r, drv_coerce (drv d) pix) (set_fmt d (drv_coerce (drv d) pix) w1).

(** VIDIOC_REQBUFS: [rqbufs.count] comes back as the granted count. *)
Definition ioctl_REQBUFS (d : side) (count ty memory : Z) : M (Z * Z) :=
  fun w =>
    let r := drv_reqbufs (drv d) in
    Ok (r, if r <? 0 then count else drv_grant (drv d) count)
       (emit (EvREQBUFS d count ty memory) w).

Definition set_pixelformat (p : v4l2_pix_format) (pf : Z) : v4l2_pix_format :=
  mk_pix (width p) (height p) pf (pix_field p) (bytesperline p)
         (sizeimage p) (colorspace p).

Definition set_format (c : config) (p : v4l2_pix_format) : config :=
  mk_config (fourcc c) p (num_buffers c) (fps c) (frame_us c).

Definition set_frame_us (c : config) (us : Z) : config :=
  mk_config (fourcc c) (format c) (num_buffers c) (fps c) us.

(** [device_init] *)
Definition device_init (sd : side) (d : device) (c : config) (ty : Z)
    : M (device * config) :=
  let k := drv sd in
  do_emit (EvOpen (devname d) (drv_open k)) ;;;
  let dfd := drv_open k in
  ASSERT (dfd <? 0) (E_open (devname d)) ;;;
  (* query caps *)
  do_emit (EvQUERYCAP sd) ;;;
  ASSERT (negb (drv_querycap k =? 0)) E_QUERYCAP ;;;
  ASSERT (negb (Z.land (u32 (Z.lnot (drv_caps k))) ty =? 0))
         (E_caps (drv_caps k) ty) ;;;
  let bt := if ty =? V4L2_CAP_VIDEO_CAPTURE
            then V4L2_BUF_TYPE_VIDEO_CAPTURE
            else V4L2_BUF_TYPE_VIDEO_OUTPUT in
  let mt := if export d then V4L2_MEMORY_MMAP else V4L2_MEMORY_DMABUF in
  let d' := mk_device (devname d) dfd ty bt mt (export d) in
  (* set format (g_fmt -> s_fmt -> g_fmt) *)
  g0 <- ioctl_G_FMT sd bt (mk_pix 0 0 0 0 0 0 0) (drv_g_fmt k) ;;
  ASSERT (fst g0 <? 0) E_G_FMT ;;;
  do_emit (EvPrintf (width (snd g0)) (height (snd g0))
                    (pixelformat (snd g0))) ;;;
  let c1 := set_format c (set_pixelformat (format c) (fourcc c)) in
  sf <- ioctl_S_FMT sd bt (format c1) ;;
  ASSERT (fst sf <? 0) E_S_FMT ;;;
  g1 <- ioctl_G_FMT sd bt (snd sf) (drv_g_fmt2 k) ;;
  ASSERT (fst g1 <? 0) E_G_FMT ;;;
  do_emit (EvPrintf (width (snd g1)) (height (snd g1))
                    (pixelformat (snd g1))) ;;;
  (* request buffers *)
  rq <- ioctl_REQBUFS sd (num_buffers c1) bt mt ;;
  ASSERT (fst rq <? 0) E_REQBUFS ;;;
  ASSERT (snd rq <? num_buffers c1)
         (E_alloc_short (snd rq) (num_buffers c1)) ;;;
  ret (d', set_format c1 (snd g1)).

(** ** Stream operations *)

(** [calloc] of [n] zeroed buffers *)
Definition calloc_buffers (n : Z) : list buffer :=
  repeat (mk_buffer 0 0) (Z.to_nat n).

(** [bs[i] = b] *)
Fixpoint set_nth (bs : list buffer) (i : nat) (b : buffer) : list buffer :=
  match bs, i with
  | [], _ => []
  | _ :: t, O => b :: t
  | x :: t, S i' => x :: set_nth t i' b
  end.

(** [us per frame], the last statement of [stream_init]; [/] of C on [int]
    truncates, and the result is stored in an [unsigned int]. *)
Definition frame_us_of_fps (f : Z) : Z :=
  u32 (if f >? 0 then Z.quot (Z.quot 10000000 f) 10 else -1).

(** [stream_init] *)
Definition stream_init (s : stream) : M stream :=
  (* initialize devices *)
  i1 <- device_init DevIn (s_in s) (s_config s) V4L2_CAP_VIDEO_CAPTURE ;;
  i2 <- device_init DevOut (s_out s) (snd i1) V4L2_CAP_VIDEO_OUTPUT ;;
  let din := fst i1 in
  let dout := fst i2 in
  let c := snd i2 in
  let n := Z.to_nat (num_buffers c) in
  bs <- for_loop n 0 (fun i bs =>
          let b := mk_buffer i (dbuf_fd (buffer_at bs i)) in
          (* prepare/export buffer *)
          b1 <- device_prepare_buffer DevIn din b ;;
          b2 <- device_prepare_buffer DevOut dout b1 ;;
          ret (set_nth bs (Z.to_nat i) b2))
        (calloc_buffers (num_buffers c)) ;;
  for_loop n 0 (fun i (_ : unit) =>
          (* queue buffer to input *)
          device_queue_buffer DevIn din (buffer_at bs i)
                              (drv_qbuf (drv DevIn) i)) tt ;;;
  ret (mk_stream din dout bs (set_frame_us c (frame_us_of_fps (fps c)))).

(** [stream_off] *)
Definition stream_off (s : stream) : M unit :=
  (* turn off devices *)
  device_off DevIn (s_in s) ;;;
  device_off DevOut (s_out s).

(** The locals [curr], [prev], [delay] of [stream_on]. *)
Record times := mk_times { curr : Z; prev : Z; delay : Z }.

(** [now.tv_sec * 1000000 + now.tv_usec] stored in an [unsigned int]. *)
Definition usec_of (now : timeval) : Z :=
  u32 (tv_sec now * 1000000 + tv_usec now).

Definition gettimeofday (now : timeval) : M timeval :=
  fun w => Ok now (emit (EvGettimeofday now) w).

(** [usleep] and [poll] are cancellation points. *)
Definition usleep (us : Z) (cancelled : bool) : M unit :=
  fun w =>
    let w1 := emit (EvUsleep us) w in
    if cancelled then Cancel (emit EvCancelled w1) else Ok tt w1.

Definition poll (r : round) : M Z :=
  fun w =>
    let w1 := emit (EvPoll 5000) w in
    if poll_cancel r then Cancel (emit EvCancelled w1)
    else Ok (poll_ret r) w1.

(** The pacing block of [stream_on] (sleep for specified fps if needed). *)
Definition pace (c : config) (r : round) (t : times) : M times :=
  if frame_us c >? 0 then
    n1 <- gettimeofday (now1 r) ;;
    let cu := usec_of n1 in
    let de := u32 (cu - prev t) in
    (if de <? frame_us c
     then usleep (u32 (frame_us c - de)) (sleep_cancel r)
     else ret tt) ;;;
    n2 <- gettimeofday (now2 r) ;;
    ret (mk_times cu (usec_of n2) de)
  else ret t.

(** The branch [if (fds[0].revents & POLLIN)] of [stream_on]. *)
Definition input_ready (s : stream) (r : round) (t : times) : M times :=
  t' <- pace (s_config s) r t ;;
  b <- device_dequeue_buffer DevIn (s_in s) (buffers s) (dq_in r) ;;
  device_queue_buffer DevOut (s_out s) b (q_out_ret r) ;;;
  ret t'.

(** The branch [if (fds[1].revents & POLLOUT)] of [stream_on]. *)
Definition output_ready (s : stream) (r : round) : M unit :=
  b <- device_dequeue_buffer DevOut (s_out s) (buffers s) (dq_out r) ;;
  device_queue_buffer DevIn (s_in s) b (q_in_ret r).

(** The body of the [while] loop of [stream_on]. *)
Definition relay_turn (s : stream) (r : round) (t : times) : M times :=
  t' <- (if negb (Z.land (revents_in r) POLLIN =? 0)
         then input_ready s r t else ret t) ;;
  (if negb (Z.land (revents_out r) POLLOUT =? 0)
   then output_ready s r else ret tt) ;;;
  ret t'.

(** [while ((res = poll(fds, 2, 5000)) > 0) { ... }], one [round] of the
    script per call of [poll]. *)
Fixpoint relay_loop (s : stream) (script : list round) (t : times)
    : M unit :=
  match script with
  | [] => fun w => Pending w
  | r :: rest =>
      res <- poll r ;;
      if res >? 0
      then t' <- relay_turn s r t ;; relay_loop s rest t'
      else ret tt
  end.

(** What [stream_on] does between [pthread_cleanup_push] and
    [pthread_cleanup_pop]. *)
Definition relay_body (s : stream) (script : list round) : M unit :=
  (* turn on devices *)
  device_on DevIn (s_in s) ;;;
  device_on DevOut (s_out s) ;;;
  (* poll and pass buffers *)
  relay_loop s script (mk_times 0 0 0).

(** [stream_on]: [pthread_cleanup_pop(s)] is given the non-null [s], so the
    handler [stream_off] also runs when the loop ends on its own. *)
Definition stream_on (s : stream) (script : list round) : M unit :=
  with_cleanup (stream_off s) (relay_body s script).

(** What [main] does with one stream: [manager_init] runs [stream_init],
    [manager_on] starts a thread that runs [stream_on], and [manager_exit]
    waits for that thread. *)
Definition run_stream (s : stream) (script : list round) : M unit :=
  s' <- stream_init s ;;
  stream_on s' script.

End Engine.

(** * Vocabulary of the properties *)

(** ** Reasoning about computations *)

(** [hoare P m Q R]: from a world in [P], [m] either returns [a] in a world
    of [Q a], or stops in a world of [R oe], where [oe] is the error of an
    abort and [None] for a cancellation or a script that ended. *)
Definition hoare {A} (P : world -> Prop) (m : M A)
    (Q : A -> world -> Prop) (R : option err -> world -> Prop) : Prop :=
  forall w, P w ->
    match m w with
    | Ok a w' => Q a w'
    | Abort e w' => R (Some e) w'
    | Cancel w' | Pending w' => R None w'
    end.

(** Counting events of a kind in a trace. *)
Definition count (f : event -> bool) (tr : list event) : nat :=
  List.length (filter f tr).

(** The kinds of events that are counted. *)
Definition is_off (d : side) (e : event) : bool :=
  match e with
  | EvSTREAMOFF d' _ => side_eqb d d'
  | _ => false
  end.

(** Number of stop calls a device has received. *)
Definition offs (d : side) (w : world) : nat := count (is_off d) (trace w).

(** An abort is announced on stderr right before it happens. *)
Definition logged (oe : option err) (w : world) : Prop :=
  match oe with
  | Some e => exists tr, trace w = tr ++ [EvStderr e; EvAbort]
  | None => True
  end.

(** [quiet d n m]: [m] issues no stop call to device [d], and announces
    every abort. *)
Definition quiet {A} (d : side) (n : nat) (m : M A) : Prop :=
  hoare (fun w => offs d w = n) m
        (fun _ w => offs d w = n)
        (fun oe w => offs d w = n /\ logged oe w).

(** ** Setup *)

Definition other (d : side) : side :=
  match d with DevIn => DevOut | DevOut => DevIn end.

(** The format [device_init] asks a node for. *)
Definition requested (c : config) : v4l2_pix_format :=
  set_pixelformat (format c) (fourcc c).

(** The indices [0 .. n-1]. *)
Definition range (n : Z) : list Z := map Z.of_nat (seq 0 (Z.to_nat n)).

(** Entry [j] of the pool describes buffer [j]. *)
Definition pool_ok (n : Z) (bs : list buffer) : Prop :=
  List.length bs = Z.to_nat n /\
  forall j, 0 <= j < n -> index (buffer_at bs j) = j.

Section Vocabulary.

Variable drv : side -> driver.

(** Everything before VIDIOC_REQBUFS goes well on node [sd] for role [ty]. *)
Definition negotiates (sd : side) (ty : Z) : Prop :=
  0 <= drv_open (drv sd) /\
  drv_querycap (drv sd) = 0 /\
  Z.land (u32 (Z.lnot (drv_caps (drv sd)))) ty = 0 /\
  0 <= drv_g_fmt (drv sd) /\
  0 <= drv_s_fmt (drv sd) /\
  0 <= drv_g_fmt2 (drv sd) /\
  0 <= drv_reqbufs (drv sd).

End Vocabulary.

(** Every handle given out so far was asked for with index 0. *)
Definition exports_index_0 (w : world) : Prop :=
  Forall (fun x => snd (fst x) = 0) (exported w).

(** The geometry of a format: width, height and pixel format. *)
Definition same_geometry (p q : v4l2_pix_format) : Prop :=
  width p = width q /\ height p = height q /\ pixelformat p = pixelformat q.

(** ** Conservation of buffers *)

(** The places a buffer can be in, and everything that is there. *)
Definition places (w : world) : list Z := held w ++ q_in w ++ q_out w.

(** Every index below [n] is in exactly one place. *)
Definition conserved (n : Z) (w : world) : Prop :=
  Permutation (places w) (range n).

(** Between two turns of the loop nothing is in transit. *)
Definition idle (n : Z) (w : world) : Prop :=
  held w = [] /\ conserved n w.

(** ** Reading a trace *)

Definition usleeps (tr : list event) : list Z :=
  flat_map (fun e => match e with EvUsleep us => [us] | _ => [] end) tr.

Definition is_stderr (e : event) : bool :=
  match e with EvStderr _ => true | _ => false end.

Definition is_dqbuf (e : event) : bool :=
  match e with EvDQBUF _ _ _ => true | _ => false end.

(** ** A concrete pair of video nodes
    The command line [/dev/video0:/dev/video1@i@<fps>:<n>:640,480:YUYV]. *)

Definition ex_fourcc : Z := 1448695129.   (* 'Y' 'U' 'Y' 'V' *)

Definition ex_pix : v4l2_pix_format := mk_pix 640 480 0 0 0 0 0.

Definition ex_node (ofd caps : Z)
    (coerce : v4l2_pix_format -> v4l2_pix_format) (grant : Z -> Z) : driver :=
  mk_driver ofd 0 caps 0 0 coerce 0 0 grant
            (fun k => (0, 5 + Z.of_nat k)) (fun _ => 0) 0 0.

(** Both nodes take every format as asked and grant every buffer. *)
Definition ex_drv (d : side) : driver :=
  match d with
  | DevIn => ex_node 3 67108865 (fun p => p) (fun n => n)
  | DevOut => ex_node 4 67108866 (fun p => p) (fun n => n)
  end.

(** The output node only does 320x240. *)
Definition ex_drv_fixed (d : side) : driver :=
  match d with
  | DevIn => ex_node 3 67108865 (fun p => p) (fun n => n)
  | DevOut =>
      ex_node 4 67108866
        (fun p => mk_pix 320 240 (pixelformat p) (pix_field p) 640 153600
                         (colorspace p))
        (fun n => n)
  end.

(** The input node has room for three buffers only. *)
Definition ex_drv_short (d : side) : driver :=
  match d with
  | DevIn => ex_node 3 67108865 (fun p => p) (fun n => Z.min n 3)
  | DevOut => ex_node 4 67108866 (fun p => p) (fun n => n)
  end.

Definition ex_world : world :=
  mk_world [] [] [] [] (mk_pix 0 0 0 0 0 0 0) (mk_pix 0 0 0 0 0 0 0) [].

Definition ex_stream (f n : Z) : stream :=
  mk_stream (mk_device "/dev/video0" 0 0 0 0 true)
            (mk_device "/dev/video1" 0 0 0 0 false)
            []
            (mk_config ex_fourcc ex_pix n f 0).

(** The stream [ex_stream 30 2] after [stream_init], and the kernel side
    at that point (trace left out). *)
Definition ex_primed : stream :=
  mk_stream (mk_device "/dev/video0" 3 1 1 1 true)
            (mk_device "/dev/video1" 4 2 2 4 false)
            [mk_buffer 0 5; mk_buffer 1 6]
            (mk_config ex_fourcc (mk_pix 640 480 ex_fourcc 0 0 0 0) 2 30 33333).

Definition ex_primed_world : world :=
  mk_world [] [0; 1] [] []
           (mk_pix 640 480 ex_fourcc 0 0 0 0)
           (mk_pix 640 480 ex_fourcc 0 0 0 0)
           [(DevIn, 0, 5); (DevIn, 0, 6)].

(** Rounds of the relay loop. *)
Definition ex_input_ready : round :=
  mk_round 1 false POLLIN 0 (mk_tv 1700000000 0) false
           (mk_tv 1700003891 0) (0, 0) 0 (0, 0) 0.

Definition ex_output_ready : round :=
  mk_round 1 false 0 POLLOUT (mk_tv 0 0) false (mk_tv 0 0) (0, 0) 0 (0, 0) 0.

Definition ex_timeout : round :=
  mk_round 0 false 0 0 (mk_tv 0 0) false (mk_tv 0 0) (0, 0) 0 (0, 0) 0.

Definition ex_dqbuf_fails : round :=
  mk_round 1 false POLLIN 0 (mk_tv 1700000000 0) false
           (mk_tv 1700000000 1) (-1, 0) 0 (0, 0) 0.

Definition ex_qbuf_fails : round :=
  mk_round 1 false POLLIN 0 (mk_tv 1700000000 0) false
           (mk_tv 1700000000 1) (0, 0) (-1) (0, 0) 0.

(** Two frames 10 ms apart at 30 frames per second. *)
Definition ex_fast : round :=
  mk_round 1 false POLLIN 0 (mk_tv 1700000000 10000) false
           (mk_tv 1700000000 33400) (0, 0) 0 (0, 0) 0.

(** A first frame, and a second one 10 ms later during whose pacing sleep
    the thread is cancelled. *)
Definition ex_first : round :=
  mk_round 1 false POLLIN 0 (mk_tv 1700000000 0) false
           (mk_tv 1700000000 100) (0, 0) 0 (0, 0) 0.

Definition ex_cancel_in_sleep : round :=
  mk_round 1 false POLLIN 0 (mk_tv 1700000000 10000) true
           (mk_tv 0 0) (0, 1) 0 (0, 0) 0.

(** Runs on these inputs. *)
Abbreviation ex_cancelled_run :=
  (stream_on ex_drv ex_primed [ex_first; ex_cancel_in_sleep] ex_primed_world).

Abbreviation ex_cancelled_body :=
  (relay_body ex_drv ex_primed [ex_first; ex_cancel_in_sleep] ex_primed_world).

Abbreviation ex_aborted_run :=
  (stream_on ex_drv ex_primed [ex_qbuf_fails] ex_primed_world).

Abbreviation ex_out_init :=
  (device_init ex_drv DevOut (s_out (ex_stream 30 2))
              (s_config (ex_stream 30 2)) V4L2_CAP_VIDEO_OUTPUT ex_world).

Abbreviation ex_init :=
  (stream_init ex_drv (ex_stream 30 2) ex_world).

Abbreviation ex_paced :=
  (pace (s_config ex_primed) ex_fast (mk_times 0 404635648 0) ex_primed_world).

(** * The command line of a stream

    [stream_parse_args] and [stream_dump_config], with the functions of the
    C library they use.  A C string is the [string] of its characters
    before the terminating NUL, and a pointer into it is the rest of the
    string from there on. *)

(** The value of a character as an [unsigned char]. *)
Definition code (c : ascii) : Z := Z.of_N (N_of_ascii c).

(** [isspace] and [isdigit] in the C locale. *)
Definition isspace (c : ascii) : bool :=
  (code c =? 32) || ((9 <=? code c) && (code c <=? 13)).

Definition isdigit (c : ascii) : bool :=
  (48 <=? code c) && (code c <=? 57).

(** [strchr(s, c)] for a character other than NUL: the rest of [s] from
    the first [c] on, [None] for NULL. *)
Fixpoint strchr (s : string) (c : ascii) : option string :=
  match s with
  | EmptyString => None
  | String x t => if Ascii.eqb x c then Some s else strchr t c
  end.

(** [p + 1] *)
Definition advance (p : string) : string :=
  match p with
  | EmptyString => EmptyString
  | String _ t => t
  end.

(** [endp - startp], for [endp] pointing into [startp]. *)
Definition ptrdiff (startp endp : string) : Z :=
  Z.of_nat (String.length startp) - Z.of_nat (String.length endp).

Fixpoint skip_space (s : string) : string :=
  match s with
  | String c t => if isspace c then skip_space t else s
  | EmptyString => s
  end.

(** The decimal digits at the start of [s]: their value on top of [acc],
    and the rest of [s]. *)
Fixpoint digits (s : string) (acc : Z) : Z * string :=
  match s with
  | String c t =>
      if isdigit c then digits t (acc * 10 + (code c - 48)) else (acc, s)
  | EmptyString => (acc, s)
  end.

(** A string of decimal digits, and its value. *)
Fixpoint all_digits (s : string) : bool :=
  match s with
  | EmptyString => true
  | String c t => isdigit c && all_digits t
  end.

Definition decimal (s : string) : Z := fst (digits s 0).

(** An optional sign. *)
Definition sign (s : string) : bool * string :=
  match s with
  | String c t =>
      if Ascii.eqb c "-" then (true, t)
      else if Ascii.eqb c "+" then (false, t)
      else (false, s)
  | EmptyString => (false, s)
  end.

(** [int] from an [unsigned long] or [unsigned int], as gcc converts:
    reduced modulo 2^32 into the range of [int]. *)
Definition to_int (x : Z) : Z :=
  let m := u32 x in if m <? 2 ^ 31 then m else m - 2 ^ 32.

(** Result of one [%u] directive of [sscanf]. *)
Inductive scan :=
| ScanEOF                           (* input failure: the input ended *)
| ScanFail                          (* matching failure *)
| ScanOk (v : Z) (rest : string)    (* converted and stored *)
| ScanOpen.   (* a minus sign before the digits, a value that does not
                 fit in unsigned int, or a sign at the very end of the
                 input: the C standard leaves the behaviour undefined, or
                 the libraries differ *)

(** [%u]: white space is skipped, then an optionally signed decimal
    number is matched. *)
Definition scan_u (s : string) : scan :=
  match skip_space s with
  | EmptyString => ScanEOF
  | String c t =>
      if isdigit c then
        let '(v, rest) := digits (String c t) 0 in
        if v <? 2 ^ 32 then ScanOk v rest else ScanOpen
      else if Ascii.eqb c "+" then
        match t with
        | String c' _ =>
            if isdigit c' then
              let '(v, rest) := digits t 0 in
              if v <? 2 ^ 32 then ScanOk v rest else ScanOpen
            else ScanFail
        | EmptyString => ScanOpen
        end
      else if Ascii.eqb c "-" then
        match t with
        | String c' _ => if isdigit c' then ScanOpen else ScanFail
        | EmptyString => ScanOpen
        end
      else ScanFail
  end.

(** [sscanf(s, "%u", &n)]: the return value and the new [n]; [None] where
    the behaviour is undefined.  [EOF] is -1. *)
Definition sscanf_u (s : string) (n : Z) : option (Z * Z) :=
  match scan_u s with
  | ScanEOF => Some (-1, n)
  | ScanFail => Some (0, n)
  | ScanOk v _ => Some (1, v)
  | ScanOpen => None
  end.

(** [sscanf(s, "%u,%u", &w, &h)]: the return value and the new [w], [h]. *)
Definition sscanf_u_u (s : string) (w h : Z) : option (Z * Z * Z) :=
  match scan_u s with
  | ScanEOF => Some (-1, w, h)
  | ScanFail => Some (0, w, h)
  | ScanOpen => None
  | ScanOk v rest =>
      match rest with
      | String c rest' =>
          if Ascii.eqb c "," then
            match scan_u rest' with
            | ScanOk v' _ => Some (2, v, v')
            | ScanOpen => None
            | ScanEOF | ScanFail => Some (1, v, h)
            end
          else Some (1, v, h)
      | EmptyString => Some (1, v, h)
      end
  end.

(** What a parser leaves behind. *)
Inductive parsed (A : Type) :=
| Parsed (ret : Z) (a : A)   (* the function returned [ret] *)
| Wild.   (* an access outside an object, or a conversion whose behaviour
             the C standard leaves undefined *)
Arguments Parsed {A} ret a.
Arguments Wild {A}.

Definition set_devname (d : device) (n : string) : device :=
  mk_device n (fd d) (type d) (buf_type d) (mem_type d) (export d).

Definition set_export (d : device) (e : bool) : device :=
  mk_device (devname d) (fd d) (type d) (buf_type d) (mem_type d) e.

Definition set_in (s : stream) (d : device) : stream :=
  mk_stream d (s_out s) (buffers s) (s_config s).

Definition set_out (s : stream) (d : device) : stream :=
  mk_stream (s_in s) d (buffers s) (s_config s).

Definition set_config (s : stream) (c : config) : stream :=
  mk_stream (s_in s) (s_out s) (buffers s) c.

Definition set_fps (c : config) (f : Z) : config :=
  mk_config (fourcc c) (format c) (num_buffers c) f (frame_us c).

Definition set_num_buffers (c : config) (n : Z) : config :=
  mk_config (fourcc c) (format c) n (fps c) (frame_us c).

Definition set_fourcc (c : config) (f : Z) : config :=
  mk_config f (format c) (num_buffers c) (fps c) (frame_us c).

Definition set_size (p : v4l2_pix_format) (w h : Z) : v4l2_pix_format :=
  mk_pix w h (pixelformat p) (pix_field p) (bytesperline p) (sizeimage p)
         (colorspace p).

(** [startp[k]]: the characters of the string, then the terminating NUL;
    [None] past the terminator. *)
Fixpoint char_at (s : string) (k : nat) : option ascii :=
  match s, k with
  | EmptyString, O => Some zero
  | EmptyString, S _ => None
  | String c _, O => Some c
  | String _ t, S k' => char_at t k'
  end.

(** [(char)(x)] as a character: the low eight bits. *)
Definition char_of (x : Z) : ascii := ascii_of_N (Z.to_N (x mod 256)).

(** The four characters that [stream_dump_config] stores in [fourcc]. *)
Definition fourcc_chars (f : Z) : list ascii :=
  [char_of f; char_of (Z.shiftr f 8); char_of (Z.shiftr f 16);
   char_of (Z.shiftr f 24)].

(** What [%s] prints of a character array: up to the first NUL. *)
Fixpoint c_string (l : list ascii) : string :=
  match l with
  | [] => EmptyString
  | c :: t => if Ascii.eqb c zero then EmptyString else String c (c_string t)
  end.

(** The lines [stream_dump_config] writes to stderr, as their arguments. *)
Record dump := mk_dump {
  dump_in : string * bool;      (* input device name:%s(exp: %d) *)
  dump_out : string * bool;     (* output device name:%s(exp: %d) *)
  dump_width : Z;
  dump_height : Z;
  dump_buffers : Z;
  dump_fps : Z;
  dump_fourcc : string
}.

(** [stream_dump_config] *)
Definition stream_dump_config (s : stream) : dump :=
  mk_dump (devname (s_in s), export (s_in s))
          (devname (s_out s), export (s_out s))
          (width (format (s_config s)))
          (height (format (s_config s)))
          (num_buffers (s_config s))
          (fps (s_config s))
          (c_string (fourcc_chars (fourcc (s_config s)) ++ [zero])).

Section CommandLine.

(** [sizeof(struct device)], the width of [unsigned long] in bits, and
    whether plain [char] is signed: all three depend on the platform. *)
Variable sizeof_device : Z.
Variable LONG_BIT : Z.
Variable char_signed : bool.

Definition ULONG_MAX : Z := 2 ^ LONG_BIT - 1.

(** [strtoul(nptr, &endp, 10)]: the value and [endp]. *)
Definition strtoul (nptr : string) : Z * string :=
  let '(neg, s) := sign (skip_space nptr) in
  match s with
  | String c _ =>
      if isdigit c then
        let '(v, rest) := digits s 0 in
        (if v >? ULONG_MAX then ULONG_MAX
         else if neg then (ULONG_MAX + 1 - v) mod (ULONG_MAX + 1)
         else v, rest)
      else (0, nptr)
  | EmptyString => (0, nptr)
  end.

(** [(unsigned)startp[k]]: a negative [char] is sign-extended. *)
Definition unsigned_of_char (c : ascii) : Z :=
  if char_signed && (128 <=? code c) then code c - 256 + 2 ^ 32 else code c.

(** [NEXT_ARG(s, e, x)]: [e = strchr(s, x)], and [ret = -1; goto err_out]
    when there is none. *)
Definition NEXT_ARG {A} (st : A) (startp : string) (x : ascii)
    (k : string -> parsed A) : parsed A :=
  match strchr startp x with
  | None => Parsed (-1) st
  | Some endp => k endp
  end.

(** [len = min(sizeof(s->in) - 1, endp - startp); strncpy(devname, startp,
    len); devname[len] = 0] into the 32 bytes of [devname]. *)
Definition copy_name (startp endp : string) : option string :=
  let len := Z.min (sizeof_device - 1) (ptrdiff startp endp) in
  if len >? 31 then None
  else Some (substring 0 (Z.to_nat len) startp).

(** [((unsigned)c0 << 0) | ((unsigned)c1 << 8) | ((unsigned)c2 << 16) |
    ((unsigned)c3 << 24)] *)
Definition fourcc_value (c0 c1 c2 c3 : ascii) : Z :=
  Z.lor (Z.lor (Z.lor
    (u32 (Z.shiftl (unsigned_of_char c0) 0))
    (u32 (Z.shiftl (unsigned_of_char c1) 8)))
    (u32 (Z.shiftl (unsigned_of_char c2) 16)))
    (u32 (Z.shiftl (unsigned_of_char c3) 24)).

(** The fourcc that [stream_parse_args] packs from [startp[0 .. 3]]. *)
Definition pack_fourcc (startp : string) : option Z :=
  match char_at startp 0, char_at startp 1, char_at startp 2,
        char_at startp 3 with
  | Some c0, Some c1, Some c2, Some c3 => Some (fourcc_value c0 c1 c2 c3)
  | _, _, _, _ => None
  end.

(** The end of [stream_parse_args]: the size and the fourcc. *)
Definition parse_size (s : stream) (startp : string) : parsed stream :=
  (* size(width, height) *)
  NEXT_ARG s startp ":" (fun endp =>
  match sscanf_u_u startp (width (format (s_config s)))
                   (height (format (s_config s))) with
  | None => Wild
  | Some (ret, w, h) =>
      let s := set_config s
                 (set_format (s_config s)
                             (set_size (format (s_config s)) w h)) in
      if ret <? 0 then Parsed ret s
      else
        (* fourcc *)
        let startp := advance endp in
        match pack_fourcc startp with
        | None => Wild
        | Some f => Parsed 0 (set_config s (set_fourcc (s_config s) f))
        end
  end).

(** The middle of [stream_parse_args]: fps and the number of buffers. *)
Definition parse_numbers (s : stream) (startp : string) : parsed stream :=
  (* fps *)
  NEXT_ARG s startp ":" (fun _ =>
  let '(v, endp) := strtoul startp in
  let s := set_config s (set_fps (s_config s) (to_int v)) in
  (* num of buffers *)
  let startp := advance endp in
  NEXT_ARG s startp ":" (fun _ =>
  let '(v, endp) := strtoul startp in
  let s := set_config s (set_num_buffers (s_config s) (u32 v)) in
  parse_size s (advance endp))).

(** The test of the first character of the export field against 'o' and
    'i': the stream with its export flags set, [None] for the [else]
    branch. *)
Definition parse_export (s : stream) (startp : string) : option stream :=
  match startp with
  | String c _ =>
      if Ascii.eqb c "o" then
        Some (set_in (set_out s (set_export (s_out s) true))
                     (set_export (s_in s) false))
      else if Ascii.eqb c "i" then
        Some (set_in (set_out s (set_export (s_out s) false))
                     (set_export (s_in s) true))
      else None
  | EmptyString => None
  end.

(** [stream_parse_args] *)
Definition stream_parse_args (s : stream) (arg : string)
    : parsed stream :=
  (* input device name *)
  let startp := arg in
  NEXT_ARG s startp ":" (fun endp =>
  match copy_name startp endp with
  | None => Wild
  | Some n_in =>
  let s := set_in s (set_devname (s_in s) n_in) in
  (* output device name *)
  let startp := advance endp in
  NEXT_ARG s startp "@" (fun endp =>
  match copy_name startp endp with
  | None => Wild
  | Some n_out =>
  let s := set_out s (set_devname (s_out s) n_out) in
  (* device to export *)
  let startp := advance endp in
  NEXT_ARG s startp "@" (fun endp =>
  match parse_export s startp with
  | None => Parsed (-1) s
  | Some s => parse_numbers s (advance endp)
  end)
  end)
  end).

(** ** The options of the program *)

(** [struct manager]; [streams] is [None] as long as the pointer has not
    been assigned. *)
Record manager := mk_manager {
  streams : option (list stream);
  num_streams : Z
}.

(** What goes to stderr while the options are read. *)
Inductive message :=
| MsgUsage                       (* usage() *)
| MsgWarn (text : string)        (* WARN_ON *)
| MsgError (text : string)       (* ASSERT *)
| MsgDump (d : dump).            (* stream_dump_config *)

(** [a[i] = x] *)
Fixpoint update_nth {A} (l : list A) (i : nat) (x : A) : list A :=
  match l, i with
  | [], _ => []
  | _ :: t, O => x :: t
  | y :: t, S i' => y :: update_nth t i' x
  end.

(** [sizeof(struct stream)], the width of [size_t] in bits, and which
    requests [malloc] grants, by their size in bytes: these depend on the
    platform and on the state of the heap. *)
Variable sizeof_stream : Z.
Variable SIZE_BIT : Z.
Variable malloc_grants : Z -> bool.

Definition INT_MAX : Z := 2 ^ 31 - 1.

(** [malloc(sizeof(struct stream) * m->num_streams)]: the product is
    computed in [size_t] and wraps.  The new memory has room for as many
    streams as fit into the bytes asked for, and holds [junk]; when
    [malloc] returns NULL there is no stream to access. *)
Definition alloc_bytes (n : Z) : Z :=
  (sizeof_stream * (n mod 2 ^ SIZE_BIT)) mod 2 ^ SIZE_BIT.

(** The number of streams that fit into these bytes. *)
Definition room (n : Z) : Z := alloc_bytes n / sizeof_stream.

Definition malloc_streams (junk : stream) (n : Z) : list stream :=
  if malloc_grants (alloc_bytes n)
  then repeat junk (Z.to_nat (room n))
  else [].

(** The [while ((c = getopt(argc, argv, "hn:S:")) != -1)] loop of
    [manager_parse_args], over what the calls of [getopt] return: the
    option character and [optarg].  With [idx] outside the array, the
    stream that [stream_parse_args] writes and [stream_dump_config] reads
    is no object. *)
Fixpoint parse_options (junk : stream) (m : manager) (idx : Z)
    (msgs : list message) (opts : list (ascii * string))
    : parsed (manager * list message) :=
  match opts with
  | [] => Parsed 0 (m, msgs)
  | (c, optarg) :: rest =>
      if Ascii.eqb c "h" then Parsed (-1) (m, msgs ++ [MsgUsage])
      else if Ascii.eqb c "n" then
        match sscanf_u optarg (num_streams m) with
        | None => Wild
        | Some (ret, n) =>
            (* nothing is stored unless a number was converted *)
            if negb (ret =? 1)
            then Parsed ret (m, msgs ++ [MsgWarn "incorrect stream count"])
            else if n >? INT_MAX
            then Wild   (* [num_streams] is an [int]: %u converted a
                           number that this object cannot hold *)
            else
              let m := mk_manager (streams m) n in
              parse_options junk
                (mk_manager (Some (malloc_streams junk (num_streams m)))
                            (num_streams m))
                idx msgs rest
        end
      else if Ascii.eqb c "S" then
        match streams m with
        | None => Wild
        | Some arr =>
            if (0 <=? idx) && (idx <? Z.of_nat (List.length arr)) then
              match stream_parse_args (nth (Z.to_nat idx) arr junk) optarg
              with
              | Wild => Wild
              | Parsed ret s' =>
                  let m := mk_manager
                             (Some (update_nth arr (Z.to_nat idx) s'))
                             (num_streams m) in
                  if ret <? 0
                  then Parsed ret
                         (m, msgs ++ [MsgWarn "invalid stream args";
                                      MsgDump (stream_dump_config s')])
                  else if idx + 1 >? num_streams m
                  then Parsed ret (m, msgs ++ [MsgWarn "num streams"])
                  else parse_options junk m (idx + 1) msgs rest
              end
            else Wild
        end
      else Parsed (-1) (m, msgs ++ [MsgUsage])
  end.

(** [manager_parse_args] *)
Definition manager_parse_args (junk : stream) (m : manager) (argc : Z)
    (opts : list (ascii * string)) : parsed (manager * list message) :=
  if argc <=? 1 then Parsed (-1) (m, [MsgUsage])
  else parse_options junk m 0 [] opts.

(** How [main] gets past its first three statements. *)
Inductive started :=
| Started (m : manager) (msgs : list message)  (* goes on to manager_init *)
| Aborted (msgs : list message)                (* the ASSERT fired *)
| Undefined.

(** The start of [main]: [m = malloc(...)] leaves [m] with whatever the
    memory holds, then [ret = manager_parse_args(m, argc, argv)] and
    [ASSERT(ret, ...)]. *)
Definition main_parse (junk : stream) (m : manager) (argc : Z)
    (opts : list (ascii * string)) : started :=
  match manager_parse_args junk m argc opts with
  | Wild => Undefined
  | Parsed ret (m', msgs) =>
      if negb (ret =? 0)
      then Aborted (msgs ++ [MsgError "failed to parse arguments"])
      else Started m' msgs
  end.

End CommandLine.

(** ** Vocabulary for the command line *)

(** A command line with its seven fields. *)
Definition command_line (n_in n_out side fps_f nbuf_f size_f cc : string)
    : string :=
  (n_in ++ ":" ++ n_out ++ "@" ++ side ++ "@" ++ fps_f ++ ":" ++ nbuf_f
   ++ ":" ++ size_f ++ ":" ++ cc)%string.

(** The stream [s] after its names, export side, rate and buffer count
    have been set. *)
Definition named (s : stream) (n_in n_out : string) (exp_in : bool)
    (f n : Z) : stream :=
  mk_stream
    (mk_device n_in (fd (s_in s)) (type (s_in s)) (buf_type (s_in s))
               (mem_type (s_in s)) exp_in)
    (mk_device n_out (fd (s_out s)) (type (s_out s)) (buf_type (s_out s))
               (mem_type (s_out s)) (negb exp_in))
    (buffers s)
    (mk_config (fourcc (s_config s)) (format (s_config s)) n f
               (frame_us (s_config s))).

(** And after size and fourcc have been set as well. *)
Definition sized (s : stream) (w h f : Z) : stream :=
  set_config s
    (mk_config f (set_size (format (s_config s)) w h)
               (num_buffers (s_config s)) (fps (s_config s))
               (frame_us (s_config s))).

(** The options [-S a1 -S a2 ...] as [getopt] returns them. *)
Definition stream_options (args : list string) : list (ascii * string) :=
  map (fun a => ("S"%char, a)) args.

Section Accepted.

Variable sizeof_device : Z.
Variable LONG_BIT : Z.
Variable char_signed : bool.

(** The memory of a new stream holds [junk]. *)
Variable junk : stream.

(** [stream_parse_args] returns 0 for the argument ... *)
Definition accepted (a : string) : bool :=
  match stream_parse_args sizeof_device LONG_BIT char_signed junk a with
  | Parsed 0 _ => true
  | _ => false
  end.

(** ... and this is the stream it leaves. *)
Definition parsed_stream (a : string) : stream :=
  match stream_parse_args sizeof_device LONG_BIT char_signed junk a with
  | Parsed _ s => s
  | Wild => junk
  end.

End Accepted.

(** The array has no more entries than [num_streams] says, once it
    exists. *)
Definition sized_array (m : manager) : Prop :=
  match streams m with
  | None => True
  | Some arr => Z.of_nat (List.length arr) <= num_streams m
  end.

(** A field that [%u] cannot start to convert: empty, or beginning with a
    character that is no digit, no sign and no white space. *)
Definition no_number (s : string) : bool :=
  match s with
  | EmptyString => true
  | String c _ =>
      negb (isdigit c || isspace c || Ascii.eqb c "-" || Ascii.eqb c "+")
  end.

(** ** Example command lines *)

(** Platform of the examples: [sizeof(struct device)] is 52, [unsigned
    long] has 64 bits, plain [char] is unsigned. *)
Abbreviation ex_parse := (stream_parse_args 52 64 false).

(** The example of the usage text. *)
Definition ex_line : string := "/dev/video0:/dev/video1@o@5:4:640,480:YUYV".

(** What the memory of a stream holds before it is parsed. *)
Definition ex_junk : stream :=
  mk_stream (mk_device "?" 7 7 7 7 true) (mk_device "?" 7 7 7 7 true) []
            (mk_config 7 (mk_pix 7 7 7 7 7 7 7) 7 7 7).

(** [malloc] grants what is below a gigabyte. *)
Definition ex_malloc (bytes : Z) : bool := bytes <? 2 ^ 30.

(** [sizeof(struct stream)] is 184 and [size_t] has 64 bits. *)
Abbreviation ex_manager_args :=
  (manager_parse_args 52 64 false 184 64 ex_malloc ex_junk).
Abbreviation ex_main_parse :=
  (main_parse 52 64 false 184 64 ex_malloc ex_junk).

(** The manager that [main] allocates: nothing in it has been assigned. *)
Definition ex_manager : manager := mk_manager None 7.

(** ** Vocabulary for the rest of the engine *)

(** The capability bit of a role in [caps.capabilities]: bit 0 for video
    capture, bit 1 for video output. *)
Definition has_capability (caps ty : Z) : bool := Z.testbit caps (Z.log2 ty).

(** The kinds of events that belong to setup: opening and configuring a
    node, exporting, queueing on the input node, and the messages. *)
Definition is_setup (e : event) : bool :=
  match e with
  | EvOpen _ _ | EvQUERYCAP _ | EvG_FMT _ _ | EvS_FMT _ _ _
  | EvREQBUFS _ _ _ _ | EvEXPBUF _ _ _ _ _ | EvPrintf _ _ _
  | EvStderr _ | EvAbort => true
  | EvQBUF d _ _ => side_eqb d DevIn
  | _ => false
  end.

(** The trace of [w] is [base] followed by setup events. *)
Definition grown (base : list event) (w : world) : Prop :=
  exists tr, trace w = base ++ tr /\ forallb is_setup tr = true.

(** [m] emits setup events only, and ends by returning or by an abort. *)
Definition only_setup {A} (m : M A) : Prop :=
  forall base,
    hoare (grown base) m (fun _ => grown base)
          (fun oe w => grown base w /\ oe <> None).

(** A round in which [poll] reports events, but neither POLLIN on the
    input nor POLLOUT on the output. *)
Definition error_only (r : round) : bool :=
  (poll_ret r >? 0) && negb (poll_cancel r) &&
  (Z.land (revents_in r) POLLIN =? 0) &&
  (Z.land (revents_out r) POLLOUT =? 0).

(** The device of a stream that exports the buffers. *)
Definition exporter (s : stream) : side :=
  if export (s_in s) then DevIn else DevOut.

(** The handles a node gives out for its first [n] exports. *)
Definition handles (k : driver) (n : nat) : list Z :=
  map (fun j => snd (drv_expbuf k j)) (seq 0 n).

(** ** More video nodes *)

(** The second node cannot do video output. *)
Definition ex_drv_no_output (d : side) : driver :=
  match d with
  | DevIn => ex_node 3 67108865 (fun p => p) (fun n => n)
  | DevOut => ex_node 4 67108865 (fun p => p) (fun n => n)
  end.

(** VIDIOC_STREAMON fails on the output node. *)
Definition ex_drv_no_start (d : side) : driver :=
  match d with
  | DevIn => ex_node 3 67108865 (fun p => p) (fun n => n)
  | DevOut =>
      mk_driver 4 0 67108866 0 0 (fun p => p) 0 0 (fun n => n)
                (fun k => (0, 5 + Z.of_nat k)) (fun _ => 0) (-1) 0
  end.

(** VIDIOC_STREAMOFF fails on the input node. *)
Definition ex_drv_no_stop (d : side) : driver :=
  match d with
  | DevIn =>
      mk_driver 3 0 67108865 0 0 (fun p => p) 0 0 (fun n => n)
                (fun k => (0, 5 + Z.of_nat k)) (fun _ => 0) 0 (-1)
  | DevOut => ex_node 4 67108866 (fun p => p) (fun n => n)
  end.

(** [poll] reports POLLERR (8) on both nodes. *)
Definition ex_error : round :=
  mk_round 2 false 8 8 (mk_tv 0 0) false (mk_tv 0 0) (0, 0) 0 (0, 0) 0.

(** [poll] fails. *)
Definition ex_poll_fails : round :=
  mk_round (-1) false 0 0 (mk_tv 0 0) false (mk_tv 0 0) (0, 0) 0 (0, 0) 0.

(** Buffer 0 is on the output node, buffer 1 on the input node. *)
Definition ex_mid_world : world :=
  mk_world [] [1] [0] []
           (mk_pix 640 480 ex_fourcc 0 0 0 0)
           (mk_pix 640 480 ex_fourcc 0 0 0 0)
           [(DevIn, 0, 5); (DevIn, 0, 6)].

(** The output node returns buffer 0, then [poll] fails. *)
Abbreviation ex_relay_run :=
  (relay_loop ex_primed [ex_output_ready; ex_poll_fails; ex_input_ready]
              (mk_times 0 0 0) ex_mid_world).

(** ** Hand-offs *)

(** In a trace, the event after each successful VIDIOC_DQBUF on the input
    node is a VIDIOC_QBUF on the output node: nothing, a sleep in
    particular, comes between the two. *)
Fixpoint direct_handoffs (tr : list event) : bool :=
  match tr with
  | [] => true
  | EvDQBUF DevIn _ r :: rest =>
      if r =? 0 then
        match rest with
        | EvQBUF DevOut _ _ :: _ => direct_handoffs rest
        | _ => false
        end
      else direct_handoffs rest
  | _ :: rest => direct_handoffs rest
  end.

(** The trace of [w] is [base] followed by events with direct hand-offs. *)
Definition handed (base : list event) (w : world) : Prop :=
  exists tr, trace w = base ++ tr /\ direct_handoffs tr = true.

(** [m] keeps the hand-offs direct, however it ends. *)
Definition hands_on {A} (m : M A) : Prop :=
  forall base,
    hoare (handed base) m (fun _ => handed base) (fun _ => handed base).

(** ** A slow source *)

(** The next frame is ready 2^32 + 10 microseconds (71 minutes 35 seconds)
    after the time stamp of the first hand-off of [ex_first]. *)
Definition ex_late : round :=
  mk_round 1 false POLLIN 0 (mk_tv 1700004294 967406) false
           (mk_tv 1700004295 967500) (0, 1) 0 (0, 0) 0.

(** One frame per second.  Between the two frames the output node returns
    the first buffer, and [poll] then reports POLLERR 900 times, so that no
    call of [poll] has to last longer than its timeout of five seconds. *)
Abbreviation ex_slow_run :=
  (run_stream ex_drv (ex_stream 1 2)
              (ex_first :: ex_output_ready :: repeat ex_error 900 ++ [ex_late])
              ex_world).
(** * Properties *)

(** ** Rules for [hoare] and [quiet] *)

Lemma hoare_ret {A} (P : world -> Prop) (a : A) Q R :
  (forall w, P w -> Q a w) -> hoare P (ret a) Q R.
Proof. intros H w Hw. simpl. auto. Qed.

Lemma hoare_bind {A B} P (m : M A) (k : A -> M B) Q Q' R :
  hoare P m Q R -> (forall a, hoare (Q a) (k a) Q' R) ->
  hoare P (bind m k) Q' R.
Proof.
  intros Hm Hk w Hw. unfold bind. specialize (Hm w Hw).
  destruct (m w) as [a w'| e w' | w' | w']; auto.
  apply Hk; exact Hm.
Qed.

Lemma hoare_if {A} P (b : bool) (m1 m2 : M A) Q R :
  hoare P m1 Q R -> hoare P m2 Q R -> hoare P (if b then m1 else m2) Q R.
Proof. destruct b; auto. Qed.

Lemma count_app f a b : count f (a ++ b) = (count f a + count f b)%nat.
Proof. unfold count. rewrite filter_app, length_app. reflexivity. Qed.

Arguments offs : simpl never.
Arguments emit : simpl never.

Lemma quiet_ret {A} d n (a : A) : quiet d n (ret a).
Proof. apply hoare_ret; auto. Qed.

Lemma quiet_bind {A B} d n (m : M A) (k : A -> M B) :
  quiet d n m -> (forall a, quiet d n (k a)) -> quiet d n (bind m k).
Proof. intros; eapply hoare_bind; eauto. Qed.

Lemma quiet_if {A} d n (b : bool) (m1 m2 : M A) :
  quiet d n m1 -> quiet d n m2 -> quiet d n (if b then m1 else m2).
Proof. destruct b; auto. Qed.

Lemma trace_emit e w : trace (emit e w) = trace w ++ [e].
Proof. reflexivity. Qed.

Lemma logged_abort e w : logged (Some e) (emit EvAbort (emit (EvStderr e) w)).
Proof.
  exists (trace w). rewrite !trace_emit, <- app_assoc. reflexivity.
Qed.

Lemma offs_emit d e w :
  offs d (emit e w) = (offs d w + if is_off d e then 1 else 0)%nat.
Proof.
  unfold offs. rewrite trace_emit, count_app. unfold count; simpl.
  destruct (is_off d e); reflexivity.
Qed.

Lemma offs_set_queues d a b c w : offs d (set_queues a b c w) = offs d w.
Proof. reflexivity. Qed.

Lemma quiet_do_emit d n e : is_off d e = false -> quiet d n (do_emit e).
Proof.
  intros He w Hw; simpl. rewrite offs_emit, He. lia.
Qed.

Lemma quiet_ASSERT d n c e : quiet d n (ASSERT c e).
Proof.
  intros w Hw. unfold ASSERT. destruct c; simpl; auto.
  split; [|apply logged_abort].
  rewrite !offs_emit; simpl. lia.
Qed.

Lemma quiet_ioctl_QBUF d n sd vb r : quiet d n (ioctl_QBUF sd vb r).
Proof.
  intros w Hw. unfold ioctl_QBUF.
  destruct (r =? 0); [destruct sd|]; simpl;
    rewrite ?offs_set_queues, offs_emit; simpl; lia.
Qed.

Lemma quiet_ioctl_DQBUF d n sd vb reply : quiet d n (ioctl_DQBUF sd vb reply).
Proof.
  intros w Hw. unfold ioctl_DQBUF. destruct reply as [r i].
  destruct ((r =? 0) && memb i (queue_of sd w)); [destruct sd|]; simpl;
    rewrite ?offs_set_queues, offs_emit; simpl; lia.
Qed.

Lemma quiet_gettimeofday d n now : quiet d n (gettimeofday now).
Proof. intros w Hw; simpl. rewrite offs_emit; simpl; lia. Qed.

Lemma quiet_usleep d n us c : quiet d n (usleep us c).
Proof.
  intros w Hw; unfold usleep. destruct c; simpl.
  - split; auto. rewrite !offs_emit; simpl; lia.
  - rewrite offs_emit; simpl; lia.
Qed.

Lemma quiet_poll d n r : quiet d n (poll r).
Proof.
  intros w Hw; unfold poll. destruct (poll_cancel r); simpl.
  - split; auto. rewrite !offs_emit; simpl; lia.
  - rewrite offs_emit; simpl; lia.
Qed.

Create HintDb quiet.
#[export] Hint Resolve quiet_ret quiet_bind quiet_if quiet_ASSERT
  quiet_ioctl_QBUF quiet_ioctl_DQBUF quiet_gettimeofday quiet_usleep
  quiet_poll : quiet.

Section EngineFacts.

Variable drv : side -> driver.

Lemma quiet_device_queue_buffer d n sd dv b r :
  quiet d n (device_queue_buffer sd dv b r).
Proof. unfold device_queue_buffer. auto with quiet. Qed.

Lemma quiet_device_dequeue_buffer d n sd dv bs reply :
  quiet d n (device_dequeue_buffer sd dv bs reply).
Proof. unfold device_dequeue_buffer. auto 6 with quiet. Qed.

Lemma quiet_device_on d n sd dv : quiet d n (device_on drv sd dv).
Proof.
  unfold device_on. apply quiet_bind; intros; auto with quiet.
  apply quiet_do_emit; reflexivity.
Qed.

Lemma quiet_pace d n c r t : quiet d n (pace c r t).
Proof. unfold pace. auto 8 with quiet. Qed.

Hint Resolve quiet_device_queue_buffer quiet_device_dequeue_buffer
  quiet_device_on quiet_pace : quiet.

Lemma quiet_relay_turn d n s r t : quiet d n (relay_turn s r t).
Proof. unfold relay_turn, input_ready, output_ready. auto 10 with quiet. Qed.

Lemma quiet_relay_loop d n s script :
  forall t, quiet d n (relay_loop s script t).
Proof.
  induction script as [|r rest IH]; intros t; simpl.
  - intros w Hw; simpl; auto.
  - apply quiet_bind; [apply quiet_poll|]. intros res.
    apply quiet_if; [|apply quiet_ret].
    apply quiet_bind; [apply quiet_relay_turn|]. intros; apply IH.
Qed.

End EngineFacts.

Section Teardown.

Variable drv : side -> driver.

Lemma quiet_relay_body d n s script : quiet d n (relay_body drv s script).
Proof.
  unfold relay_body.
  repeat (apply quiet_bind; [apply quiet_device_on | intros _]).
  apply quiet_relay_loop.
Qed.

Lemma stream_off_eq s w :
  stream_off drv s w =
  let w1 := emit (EvSTREAMOFF DevIn (buf_type (s_in s))) w in
  if drv_streamoff (drv DevIn) <? 0
  then Abort E_STREAMOFF (emit EvAbort (emit (EvStderr E_STREAMOFF) w1))
  else
    let w2 := emit (EvSTREAMOFF DevOut (buf_type (s_out s))) w1 in
    if drv_streamoff (drv DevOut) <? 0
    then Abort E_STREAMOFF (emit EvAbort (emit (EvStderr E_STREAMOFF) w2))
    else Ok tt w2.
Proof.
  unfold stream_off, device_off, bind, do_emit, ASSERT; simpl.
  destruct (drv_streamoff (drv DevIn) <? 0); simpl; auto.
Qed.

Lemma stream_off_stops s w w' :
  stream_off drv s w = Ok tt w' ->
  offs DevIn w' = (offs DevIn w + 1)%nat /\
  offs DevOut w' = (offs DevOut w + 1)%nat /\
  trace w' = trace w ++ [EvSTREAMOFF DevIn (buf_type (s_in s));
                         EvSTREAMOFF DevOut (buf_type (s_out s))].
Proof.
  rewrite stream_off_eq; simpl.
  destruct (drv_streamoff (drv DevIn) <? 0); [discriminate|].
  destruct (drv_streamoff (drv DevOut) <? 0); [discriminate|].
  intros H; injection H as <-.
  rewrite !offs_emit; simpl. repeat split; try lia.
  rewrite ?trace_emit, <- ?app_assoc; reflexivity.
Qed.

Lemma stream_off_abort s w e w' :
  stream_off drv s w = Abort e w' -> e = E_STREAMOFF.
Proof.
  rewrite stream_off_eq; simpl.
  destruct (drv_streamoff (drv DevIn) <? 0); [congruence|].
  destruct (drv_streamoff (drv DevOut) <? 0); congruence.
Qed.

Lemma stream_off_result s w :
  match stream_off drv s w with
  | Ok _ _ | Abort _ _ => True
  | _ => False
  end.
Proof.
  rewrite stream_off_eq; simpl.
  destruct (drv_streamoff (drv DevIn) <? 0); auto.
  destruct (drv_streamoff (drv DevOut) <? 0); auto.
Qed.

Lemma stream_on_eq s script :
  stream_on drv s script = with_cleanup (stream_off drv s) (relay_body drv s script).
Proof. reflexivity. Qed.

(** C2 (as amended): what the cleanup does, for every way the part of
    [stream_on] between push and pop can end.  That part issues no stop
    call.  When it returns or the thread is cancelled inside it, the
    handler runs once, as the last thing the worker does: the input device
    receives its stop call; if this call fails the process is aborted at
    once and the output device receives none; if it succeeds the output
    device receives its stop call, and the worker ends as it would have
    (returns, or is cancelled) unless that second call fails, which aborts
    the process as well.  When an [ASSERT] aborts the process inside that
    part, no handler runs and no device is stopped. *)
Theorem teardown_once s script w :
  let body := relay_body drv s script w in
  let r := stream_on drv s script w in
  let off_in := EvSTREAMOFF DevIn (buf_type (s_in s)) in
  let off_out := EvSTREAMOFF DevOut (buf_type (s_out s)) in
  offs DevIn (world_of body) = offs DevIn w /\
  offs DevOut (world_of body) = offs DevOut w /\
  match body with
  | Ok _ w1 | Cancel w1 =>
      offs DevIn (world_of r) = (offs DevIn w + 1)%nat /\
      (drv_streamoff (drv DevIn) < 0 ->
       (exists w', r = Abort E_STREAMOFF w') /\
       trace (world_of r)
       = trace w1 ++ [off_in; EvStderr E_STREAMOFF; EvAbort] /\
       offs DevOut (world_of r) = offs DevOut w) /\
      (0 <= drv_streamoff (drv DevIn) ->
       offs DevOut (world_of r) = (offs DevOut w + 1)%nat /\
       (drv_streamoff (drv DevOut) < 0 ->
        (exists w', r = Abort E_STREAMOFF w') /\
        trace (world_of r)
        = trace w1 ++ [off_in; off_out; EvStderr E_STREAMOFF; EvAbort]) /\
       (0 <= drv_streamoff (drv DevOut) ->
        r = match body with
            | Ok _ _ => Ok tt (world_of r)
            | _ => Cancel (world_of r)
            end /\
        trace (world_of r) = trace w1 ++ [off_in; off_out]))
  | Abort _ _ | Pending _ => r = body
  end.
Proof.
  intros body r off_in off_out. subst body r.
  pose proof (quiet_relay_body DevIn (offs DevIn w) s script w eq_refl) as Hi.
  pose proof (quiet_relay_body DevOut (offs DevOut w) s script w eq_refl) as Ho.
  rewrite stream_on_eq. unfold with_cleanup.
  destruct (relay_body drv s script w) as [[] w1 | e w1 | w1 | w1];
    cbn [world_of] in *.
  - split; [exact Hi|]. split; [exact Ho|].
    rewrite stream_off_eq. cbv zeta.
    destruct (drv_streamoff (drv DevIn) <? 0) eqn:E1.
    + apply Z.ltb_lt in E1. cbn [world_of].
      rewrite !offs_emit. cbn [is_off side_eqb].
      split; [lia|]. split; [|intros; lia]. intros _.
      split; [eauto|]. split; [|lia].
      rewrite ?trace_emit, <- ?app_assoc. reflexivity.
    + apply Z.ltb_ge in E1.
      destruct (drv_streamoff (drv DevOut) <? 0) eqn:E2; cbn [world_of];
        rewrite !offs_emit; cbn [is_off side_eqb];
        (split; [lia|]); (split; [intros; lia|]); intros _;
        (split; [lia|]).
      * apply Z.ltb_lt in E2. split; [|intros; lia]. intros _.
        split; [eauto|].
        rewrite ?trace_emit, <- ?app_assoc. reflexivity.
      * apply Z.ltb_ge in E2. split; [intros; lia|]. intros _.
        split; [reflexivity|].
        rewrite ?trace_emit, <- ?app_assoc. reflexivity.
  - destruct Hi as [Hi _], Ho as [Ho _]. auto.
  - destruct Hi as [Hi _], Ho as [Ho _].
    split; [exact Hi|]. split; [exact Ho|].
    rewrite stream_off_eq. cbv zeta.
    destruct (drv_streamoff (drv DevIn) <? 0) eqn:E1.
    + apply Z.ltb_lt in E1. cbn [world_of].
      rewrite !offs_emit. cbn [is_off side_eqb].
      split; [lia|]. split; [|intros; lia]. intros _.
      split; [eauto|]. split; [|lia].
      rewrite ?trace_emit, <- ?app_assoc. reflexivity.
    + apply Z.ltb_ge in E1.
      destruct (drv_streamoff (drv DevOut) <? 0) eqn:E2; cbn [world_of];
        rewrite !offs_emit; cbn [is_off side_eqb];
        (split; [lia|]); (split; [intros; lia|]); intros _;
        (split; [lia|]).
      * apply Z.ltb_lt in E2. split; [|intros; lia]. intros _.
        split; [eauto|].
        rewrite ?trace_emit, <- ?app_assoc. reflexivity.
      * apply Z.ltb_ge in E2. split; [intros; lia|]. intros _.
        split; [reflexivity|].
        rewrite ?trace_emit, <- ?app_assoc. reflexivity.
  - destruct Hi as [Hi _], Ho as [Ho _]. auto.
Qed.

Lemma device_queue_buffer_fails sd d b r w :
  r <> 0 ->
  device_queue_buffer sd d b r w =
  Abort (E_QBUF (index b))
    (emit EvAbort (emit (EvStderr (E_QBUF (index b)))
      (emit (EvQBUF sd (queue_request d b) r) w))).
Proof.
  intros Hr. unfold device_queue_buffer, bind, ioctl_QBUF, ASSERT.
  apply Z.eqb_neq in Hr. rewrite Hr. simpl. rewrite Hr. reflexivity.
Qed.

Lemma device_dequeue_buffer_fails sd d bs reply w :
  fst reply <> 0 ->
  device_dequeue_buffer sd d bs reply w =
  Abort E_DQBUF
    (emit EvAbort (emit (EvStderr E_DQBUF)
      (emit (EvDQBUF sd (dequeue_request d) (fst reply)) w))).
Proof.
  destruct reply as [r i]; simpl. intros Hr.
  unfold device_dequeue_buffer, bind, ioctl_DQBUF, ASSERT.
  apply Z.eqb_neq in Hr. rewrite Hr. simpl. rewrite Hr. reflexivity.
Qed.

(** C5 (as amended): a failed enqueue or dequeue is announced on stderr and
    then aborts the whole process; when the relay ends this way no stop call
    has been issued to either device. *)
Theorem runtime_failure_aborts s script w sd d b bs r reply :
  r <> 0 -> fst reply <> 0 ->
  (exists w1, device_queue_buffer sd d b r w = Abort (E_QBUF (index b)) w1 /\
              logged (Some (E_QBUF (index b))) w1) /\
  (exists w1, device_dequeue_buffer sd d bs reply w = Abort E_DQBUF w1 /\
              logged (Some E_DQBUF) w1) /\
  (forall e w',
     stream_on drv s script w = Abort e w' ->
     e = E_DQBUF \/ (exists i, e = E_QBUF i) ->
     offs DevIn w' = offs DevIn w /\ offs DevOut w' = offs DevOut w /\
     logged (Some e) w').
Proof.
  intros Hr Hreply. split; [|split].
  - rewrite device_queue_buffer_fails by exact Hr.
    eexists; split; [reflexivity|]. apply logged_abort.
  - rewrite device_dequeue_buffer_fails by exact Hreply.
    eexists; split; [reflexivity|]. apply logged_abort.
  - intros e w'. rewrite stream_on_eq. unfold with_cleanup.
    pose proof (quiet_relay_body DevIn (offs DevIn w) s script w eq_refl) as Hi.
    pose proof (quiet_relay_body DevOut (offs DevOut w) s script w eq_refl) as Ho.
    destruct (relay_body drv s script w) as [[] w1 | e1 w1 | w1 | w1].
    + intros H He. apply stream_off_abort in H. subst e.
      destruct He as [He | [i He]]; discriminate.
    + intros H He. injection H as <- <-.
      destruct Hi as [Hi Hl], Ho as [Ho _]. auto.
    + destruct (stream_off drv s w1) as [[] w2 | e2 w2 | |] eqn:E;
        intros H He; try discriminate.
      injection H as <- <-. apply stream_off_abort in E. subst e2.
      destruct He as [He | [i He]]; discriminate.
    + discriminate.
Qed.


End Teardown.

Section Setup.

Variable drv : side -> driver.

Lemma device_init_ok sd d c ty w d' c' w' :
  device_init drv sd d c ty w = Ok (d', c') w' ->
  negotiates drv sd ty /\
  num_buffers c <= drv_grant (drv sd) (num_buffers c) /\
  d' = mk_device (devname d) (drv_open (drv sd)) ty
         (if ty =? V4L2_CAP_VIDEO_CAPTURE
          then V4L2_BUF_TYPE_VIDEO_CAPTURE else V4L2_BUF_TYPE_VIDEO_OUTPUT)
         (if export d then V4L2_MEMORY_MMAP else V4L2_MEMORY_DMABUF)
         (export d) /\
  c' = mk_config (fourcc c) (drv_coerce (drv sd) (requested c))
         (num_buffers c) (fps c) (frame_us c) /\
  fmt_of sd w' = drv_coerce (drv sd) (requested c) /\
  fmt_of (other sd) w' = fmt_of (other sd) w /\
  q_in w' = q_in w /\ q_out w' = q_out w /\ held w' = held w /\
  exported w' = exported w.
Proof.
  unfold device_init, negotiates, bind, do_emit, ASSERT, ioctl_G_FMT,
    ioctl_S_FMT, ioctl_REQBUFS, ret, requested; simpl.
  destruct (drv_open (drv sd) <? 0) eqn:E1; [discriminate|].
  destruct (drv_querycap (drv sd) =? 0) eqn:E2; [|discriminate]; simpl.
  destruct (Z.land (u32 (Z.lnot (drv_caps (drv sd)))) ty =? 0) eqn:E3;
    [|discriminate]; simpl.
  destruct (drv_g_fmt (drv sd) <? 0) eqn:E4; simpl; rewrite ?E4;
    [discriminate|].
  destruct (drv_s_fmt (drv sd) <? 0) eqn:E5; simpl; rewrite ?E5;
    [discriminate|].
  destruct (drv_g_fmt2 (drv sd) <? 0) eqn:E6; simpl; rewrite ?E6;
    [discriminate|].
  destruct (drv_reqbufs (drv sd) <? 0) eqn:E7; simpl; rewrite ?E7;
    [discriminate|].
  destruct (drv_grant (drv sd) (num_buffers c) <? num_buffers c) eqn:E8;
    [discriminate|].
  intros H; injection H as <- <- <-.
  apply Z.ltb_ge in E1, E4, E5, E6, E7, E8.
  apply Z.eqb_eq in E2, E3.
  destruct sd; simpl; repeat split; auto.
Qed.

(** C7: once the node has answered VIDIOC_REQBUFS, setup of the device
    fails exactly when fewer buffers were granted than requested, the
    failure names both counts, and otherwise setup goes on. *)
Theorem allocation_shortfall sd d c ty w :
  negotiates drv sd ty ->
  let n := num_buffers c in
  let g := drv_grant (drv sd) n in
  (g < n ->
   exists w', device_init drv sd d c ty w = Abort (E_alloc_short g n) w' /\
              logged (Some (E_alloc_short g n)) w') /\
  (n <= g ->
   exists d' c' w', device_init drv sd d c ty w = Ok (d', c') w').
Proof.
  intros (H1 & H2 & H3 & H4 & H5 & H6 & H7) n g.
  apply Z.ltb_ge in H1, H4, H5, H6, H7.
  apply Z.eqb_eq in H2, H3.
  unfold device_init, bind, do_emit, ASSERT, ioctl_G_FMT, ioctl_S_FMT,
    ioctl_REQBUFS, ret; simpl.
  repeat (progress (rewrite ?H1, ?H2, ?H3, ?H4, ?H5, ?H6, ?H7; simpl)).
  fold n g.
  split; intros Hg.
  - apply Z.ltb_lt in Hg. rewrite Hg.
    eexists; split; [reflexivity|]. apply logged_abort.
  - apply Z.ltb_ge in Hg. rewrite Hg. eauto.
Qed.

(** C10: after [device_init] in either role, the type field that the
    dequeue request carries equals the buffer type that the enqueue
    request, stream-on and stream-off carry. *)
Theorem dequeue_type_matches sd d c ty w d' c' w' b :
  ty = V4L2_CAP_VIDEO_CAPTURE \/ ty = V4L2_CAP_VIDEO_OUTPUT ->
  device_init drv sd d c ty w = Ok (d', c') w' ->
  type d' = ty /\
  vb_type (dequeue_request d') = vb_type (queue_request d' b) /\
  vb_type (dequeue_request d') = buf_type d' /\
  (ty = V4L2_CAP_VIDEO_CAPTURE -> buf_type d' = V4L2_BUF_TYPE_VIDEO_CAPTURE) /\
  (ty = V4L2_CAP_VIDEO_OUTPUT -> buf_type d' = V4L2_BUF_TYPE_VIDEO_OUTPUT).
Proof.
  intros Hty H. apply device_init_ok in H.
  destruct H as (_ & _ & -> & _).
  unfold dequeue_request, queue_request; simpl.
  destruct Hty as [-> | ->]; simpl; repeat split; auto; discriminate.
Qed.

End Setup.

(** ** Inversion of successful computations *)

Lemma bind_ok {A B} (m : M A) (k : A -> M B) w b w' :
  bind m k w = Ok b w' ->
  exists a w1, m w = Ok a w1 /\ k a w1 = Ok b w'.
Proof.
  unfold bind. destruct (m w) as [a w1 | | |]; try discriminate. eauto.
Qed.

Lemma for_loop_ok {St} (Inv : Z -> St -> world -> Prop) body :
  forall n i0 s0 w s' w',
  (forall i s w s' w',
      i0 <= i < i0 + Z.of_nat n -> Inv i s w ->
      body i s w = Ok s' w' -> Inv (i + 1) s' w') ->
  Inv i0 s0 w ->
  for_loop n i0 body s0 w = Ok s' w' ->
  Inv (i0 + Z.of_nat n) s' w'.
Proof.
  induction n as [|n IH]; intros i0 s0 w s' w' Hbody Hinv Hrun.
  - simpl in Hrun. injection Hrun as <- <-.
    replace (i0 + Z.of_nat 0) with i0 by lia. exact Hinv.
  - simpl in Hrun. apply bind_ok in Hrun.
    destruct Hrun as (s1 & w1 & Hb & Hrest).
    replace (i0 + Z.of_nat (S n)) with ((i0 + 1) + Z.of_nat n) by lia.
    eapply IH; [| |exact Hrest].
    + intros i s w2 s2 w3 Hi. apply Hbody. lia.
    + eapply Hbody; [|exact Hinv|exact Hb]. lia.
Qed.

(** ** The pool *)

Lemma range_succ i : 0 <= i -> range (i + 1) = range i ++ [i].
Proof.
  intros Hi. unfold range.
  replace (Z.to_nat (i + 1)) with (Z.to_nat i + 1)%nat by lia.
  rewrite seq_app, map_app. simpl. rewrite Z2Nat.id by lia. reflexivity.
Qed.

Lemma In_range i n : In i (range n) <-> 0 <= i < n.
Proof.
  unfold range. rewrite in_map_iff. split.
  - intros (k & <- & Hk). apply in_seq in Hk. lia.
  - intros Hi. exists (Z.to_nat i). split; [lia|]. apply in_seq. lia.
Qed.

Lemma length_range n : List.length (range n) = Z.to_nat n.
Proof. unfold range. rewrite length_map, length_seq. reflexivity. Qed.

Lemma length_set_nth bs i b : List.length (set_nth bs i b) = List.length bs.
Proof.
  revert i; induction bs as [|x t IH]; intros [|i]; simpl; auto.
Qed.

Lemma nth_set_nth_same bs i b d :
  (i < List.length bs)%nat -> nth i (set_nth bs i b) d = b.
Proof.
  revert i; induction bs as [|x t IH]; intros [|i] H; simpl in *;
    try lia; auto. apply IH; lia.
Qed.

Lemma nth_set_nth_other bs i j b d :
  i <> j -> nth j (set_nth bs i b) d = nth j bs d.
Proof.
  revert i j; induction bs as [|x t IH]; intros [|i] [|j] H; simpl;
    try congruence; auto.
Qed.

Section Priming.

Variable drv : side -> driver.

Lemma device_prepare_buffer_ok sd d b w b' w' :
  device_prepare_buffer drv sd d b w = Ok b' w' ->
  index b' = index b /\
  q_in w' = q_in w /\ q_out w' = q_out w /\ held w' = held w /\
  fmt_in w' = fmt_in w /\ fmt_out w' = fmt_out w /\
  (if export d
   then exported w' = exported w ++ [(sd, 0, dbuf_fd b')]
   else exported w' = exported w /\ b' = b) /\
  (exports_index_0 w -> exports_index_0 w').
Proof.
  unfold device_prepare_buffer, exports_index_0. destruct (export d).
  - unfold bind, ioctl_EXPBUF, ASSERT, ret.
    destruct (drv_expbuf (drv sd) (exports_of sd w)) as [r efd]; simpl.
    destruct (r <? 0); [discriminate|].
    intros H; injection H as <- <-. simpl. repeat split; auto.
    intros F. apply Forall_app. split; [exact F|]. repeat constructor.
  - intros H; injection H as <- <-. repeat split; auto.
Qed.

Lemma device_queue_buffer_ok sd d b r w u w' :
  device_queue_buffer sd d b r w = Ok u w' ->
  r = 0 /\
  queue_of sd w' = queue_of sd w ++ [index b] /\
  queue_of (other sd) w' = queue_of (other sd) w /\
  held w' = remove_one (index b) (held w) /\
  fmt_in w' = fmt_in w /\ fmt_out w' = fmt_out w /\
  exported w' = exported w.
Proof.
  unfold device_queue_buffer, bind, ioctl_QBUF, ASSERT.
  destruct (r =? 0) eqn:E; simpl; rewrite E; simpl; [|discriminate].
  apply Z.eqb_eq in E.
  destruct sd; intros H; injection H as <- <-; simpl; repeat split; auto.
Qed.

(** What a successful [stream_init] leaves behind. *)
Lemma stream_init_ok s w s' w' :
  stream_init drv s w = Ok s' w' ->
  let c := s_config s in
  let act_in := drv_coerce (drv DevIn) (requested c) in
  let act_out :=
    drv_coerce (drv DevOut) (set_pixelformat act_in (fourcc c)) in
  s_config s' = mk_config (fourcc c) act_out (num_buffers c) (fps c)
                          (frame_us_of_fps (fps c)) /\
  pool_ok (num_buffers c) (buffers s') /\
  q_in w' = q_in w ++ range (num_buffers c) /\
  q_out w' = q_out w /\ (held w = [] -> held w' = []) /\
  fmt_in w' = act_in /\ fmt_out w' = act_out /\
  (exports_index_0 w -> exports_index_0 w').
Proof.
  intros H c act_in act_out. unfold stream_init in H.
  apply bind_ok in H. destruct H as ([din c1] & w1 & Hin & H).
  apply bind_ok in H. destruct H as ([dout c2] & w2 & Hout & H).
  simpl in H.
  apply device_init_ok in Hin.
  destruct Hin as (_ & _ & _ & Hc1 & Hf1 & Hg1 & Hqi1 & Hqo1 & Hh1 & He1).
  apply device_init_ok in Hout.
  destruct Hout as (_ & _ & _ & Hc2 & Hf2 & Hg2 & Hqi2 & Hqo2 & Hh2 & He2).
  simpl in Hf1, Hg1, Hf2, Hg2.
  assert (Hn2 : num_buffers c2 = num_buffers c) by (subst c2 c1; reflexivity).
  rewrite Hn2 in H.
  apply bind_ok in H. destruct H as (bs & w3 & Hprep & H).
  apply bind_ok in H. destruct H as ([] & w4 & Hprime & H).
  injection H as <- <-. simpl.
  set (n := num_buffers c) in *.
  (* the export loop *)
  pose (Inv1 := fun (i : Z) (bs : list buffer) (w : world) =>
    List.length bs = Z.to_nat n /\
    (forall j, 0 <= j < i -> index (buffer_at bs j) = j) /\
    q_in w = q_in w2 /\ q_out w = q_out w2 /\ held w = held w2 /\
    fmt_in w = fmt_in w2 /\ fmt_out w = fmt_out w2 /\
    (exports_index_0 w2 -> exports_index_0 w)).
  assert (H1 : Inv1 (0 + Z.of_nat (Z.to_nat n)) bs w3).
  { eapply (for_loop_ok Inv1); [| |exact Hprep].
    - intros i bs0 wa bs1 wb Hi (Hl & Hidx & Ha) Hbody.
      apply bind_ok in Hbody. destruct Hbody as (b1 & wc & Hp1 & Hbody).
      apply bind_ok in Hbody. destruct Hbody as (b2 & wd & Hp2 & Hbody).
      injection Hbody as <- <-.
      apply device_prepare_buffer_ok in Hp1, Hp2.
      destruct Hp1 as (Hi1 & P1 & P2 & P3 & P4 & P5 & _ & P6).
      destruct Hp2 as (Hi2 & R1 & R2 & R3 & R4 & R5 & _ & R6).
      simpl in Hi1. unfold Inv1. rewrite length_set_nth.
      split; [exact Hl|]. split.
      + intros j Hj. unfold buffer_at.
        destruct (Z.eq_dec j i) as [-> | Hne].
        * rewrite nth_set_nth_same by lia. congruence.
        * rewrite nth_set_nth_other by lia. apply Hidx. lia.
      + destruct Ha as (A1 & A2 & A3 & A4 & A5 & A6).
        repeat split; try congruence. auto.
    - unfold Inv1, calloc_buffers. rewrite repeat_length.
      repeat split; auto. intros j Hj; lia. }
  destruct H1 as (Hl & Hidx & B1 & B2 & B3 & B4 & B5 & B6).
  (* the priming loop *)
  pose (Inv2 := fun (i : Z) (_ : unit) (w : world) =>
    q_in w = q_in w3 ++ range i /\ q_out w = q_out w3 /\
    (held w3 = [] -> held w = []) /\
    fmt_in w = fmt_in w3 /\ fmt_out w = fmt_out w3 /\
    exported w = exported w3).
  assert (H2 : Inv2 (0 + Z.of_nat (Z.to_nat n)) tt w4).
  { eapply (for_loop_ok Inv2); [| |exact Hprime].
    - intros i [] wa [] wb Hi (A1 & A2 & A3 & A4 & A5 & A6) Hbody.
      apply device_queue_buffer_ok in Hbody.
      destruct Hbody as (_ & Q1 & Q2 & Q3 & Q4 & Q5 & Q6).
      simpl in Q1, Q2. unfold Inv2.
      rewrite range_succ by lia. rewrite Q1, A1, <- app_assoc.
      rewrite (Hidx i) by lia.
      repeat split; try congruence.
      intros E. rewrite Q3, (A3 E). reflexivity.
    - unfold Inv2, range. simpl. rewrite app_nil_r.
      repeat split; congruence. }
  destruct H2 as (C1 & C2 & C3 & C4 & C5 & C6).
  assert (Hrange : range (0 + Z.of_nat (Z.to_nat n)) = range n).
  { unfold range. f_equal. f_equal. lia. }
  rewrite Hrange in C1.
  assert (Hreq : requested c1 = set_pixelformat act_in (fourcc c))
    by (subst c1; reflexivity).
  rewrite Hreq in Hf2.
  split; [subst c2 c1; reflexivity|].
  split; [split; [exact Hl | intros j Hj; apply Hidx; lia]|].
  split; [congruence|]. split; [congruence|].
  split; [intros E; apply C3; congruence|].
  split; [rewrite C4, B4, Hg2, Hf1; reflexivity|].
  split; [rewrite C5, B5, Hf2; reflexivity|].
  intros E. unfold exports_index_0 in *. rewrite C6. apply B6.
  rewrite He2, He1. exact E.
Qed.

(** Whatever the nodes answer, [stream_init] never asks for a handle of a
    buffer other than buffer 0. *)
Lemma exports_always_index_0 s w s' w' :
  stream_init drv s w = Ok s' w' ->
  exported w = [] ->
  forall d i efd, In (d, i, efd) (exported w') -> i = 0.
Proof.
  intros H E d i efd Hin. apply stream_init_ok in H.
  destruct H as (_ & _ & _ & _ & _ & _ & _ & H).
  assert (F : exports_index_0 w) by (unfold exports_index_0; rewrite E; constructor).
  specialize (H F). unfold exports_index_0 in H.
  rewrite Forall_forall in H. apply (H _ Hin).
Qed.

End Priming.

(** ** Conservation of buffers *)

Lemma memb_In i l : memb i l = true <-> In i l.
Proof.
  unfold memb. rewrite existsb_exists. split.
  - intros (x & Hx & E). apply Z.eqb_eq in E. subst; auto.
  - intros H. exists i. split; auto. apply Z.eqb_refl.
Qed.

Lemma perm_remove_one i l : In i l -> Permutation l (i :: remove_one i l).
Proof.
  induction l as [|x t IH]; simpl; [tauto|].
  intros H. destruct (Z.eqb_spec x i) as [-> | Hne]; [reflexivity|].
  destruct H as [H | H]; [congruence|].
  rewrite perm_swap. constructor. auto.
Qed.

Section Conservation.

Variable drv : side -> driver.

Lemma device_dequeue_buffer_ok sd d bs reply w b w' :
  device_dequeue_buffer sd d bs reply w = Ok b w' ->
  let i := snd reply in
  In i (queue_of sd w) /\ b = buffer_at bs i /\
  queue_of sd w' = remove_one i (queue_of sd w) /\
  queue_of (other sd) w' = queue_of (other sd) w /\
  held w' = held w ++ [i].
Proof.
  destruct reply as [r i]; simpl.
  unfold device_dequeue_buffer, bind, ioctl_DQBUF, ASSERT, ret.
  destruct ((r =? 0) && memb i (queue_of sd w)) eqn:E; simpl.
  - intros H; injection H as <- <-.
    apply andb_prop in E. destruct E as [_ E]. apply memb_In in E.
    destruct sd; simpl in *; auto.
  - destruct (r =? 0) eqn:R; simpl; rewrite ?R; simpl; discriminate.
Qed.

Lemma device_dequeue_buffer_stop sd d bs reply w :
  match device_dequeue_buffer sd d bs reply w with
  | Ok _ _ => True
  | r => places (world_of r) = places w
  end.
Proof.
  destruct reply as [r i].
  unfold device_dequeue_buffer, bind, ioctl_DQBUF, ASSERT, ret.
  destruct ((r =? 0) && memb i (queue_of sd w)) eqn:E; simpl; auto.
  destruct (r =? 0) eqn:R; simpl; rewrite ?R; simpl; reflexivity.
Qed.

Lemma device_queue_buffer_stop sd d b r w :
  match device_queue_buffer sd d b r w with
  | Ok _ _ => True
  | r => places (world_of r) = places w
  end.
Proof.
  unfold device_queue_buffer, bind, ioctl_QBUF, ASSERT.
  destruct (r =? 0) eqn:E; simpl; rewrite E; simpl; auto.
Qed.

Lemma dequeue_conserved n sd d bs reply :
  pool_ok n bs ->
  hoare (idle n) (device_dequeue_buffer sd d bs reply)
        (fun b w => conserved n w /\ held w = [index b])
        (fun _ => conserved n).
Proof.
  intros [_ Hidx] w [Hh Hc].
  pose proof (device_dequeue_buffer_stop sd d bs reply w) as Hs.
  destruct (device_dequeue_buffer sd d bs reply w) as [b w' | e w' | w' | w']
    eqn:E; simpl in Hs; try (unfold conserved; rewrite Hs; exact Hc).
  apply device_dequeue_buffer_ok in E.
  destruct E as (Hin & -> & Hq & Ho & Hh').
  set (i := snd reply) in *.
  assert (Hr : 0 <= i < n).
  { apply In_range. eapply Permutation_in; [exact Hc|].
    unfold places. rewrite Hh. simpl.
    apply in_or_app. destruct sd; simpl in Hin; auto. }
  rewrite Hidx by exact Hr. rewrite Hh in Hh'. simpl in Hh'.
  split; [|exact Hh'].
  unfold conserved, places in *. rewrite Hh in Hc. rewrite Hh'. simpl in *.
  rewrite <- Hc. destruct sd; simpl in *; rewrite Hq, Ho.
  - rewrite (perm_remove_one i (q_in w) Hin) at 2. reflexivity.
  - rewrite (perm_remove_one i (q_out w) Hin) at 2.
    apply Permutation_middle.
Qed.

Lemma queue_conserved n sd d b r :
  hoare (fun w => conserved n w /\ held w = [index b])
        (device_queue_buffer sd d b r)
        (fun _ => idle n) (fun _ => conserved n).
Proof.
  intros w [Hc Hh].
  pose proof (device_queue_buffer_stop sd d b r w) as Hs.
  destruct (device_queue_buffer sd d b r w) as [u w' | e w' | w' | w']
    eqn:E; simpl in Hs; try (unfold conserved; rewrite Hs; exact Hc).
  apply device_queue_buffer_ok in E.
  destruct E as (_ & Hq & Ho & Hh' & _).
  rewrite Hh in Hh'. simpl in Hh'. rewrite Z.eqb_refl in Hh'.
  split; [exact Hh'|].
  unfold conserved, places in *. rewrite Hh in Hc. rewrite Hh'. simpl in *.
  rewrite <- Hc. destruct sd; simpl in *; rewrite Hq, Ho.
  - rewrite <- app_assoc. symmetry. apply Permutation_middle.
  - rewrite app_assoc. symmetry. apply Permutation_cons_append.
Qed.

Lemma pace_places c r t w :
  q_in (world_of (pace c r t w)) = q_in w /\
  q_out (world_of (pace c r t w)) = q_out w /\
  held (world_of (pace c r t w)) = held w.
Proof.
  unfold pace, bind, gettimeofday, usleep, ret.
  destruct (frame_us c >? 0); simpl; auto.
  destruct (_ <? frame_us c); simpl; auto.
  destruct (sleep_cancel r); simpl; auto.
Qed.

Lemma pace_idle n c r t :
  hoare (idle n) (pace c r t) (fun _ => idle n) (fun _ => conserved n).
Proof.
  intros w [Hh Hc].
  destruct (pace_places c r t w) as (A & B & C).
  assert (Hc' : conserved n (world_of (pace c r t w))).
  { unfold conserved, places in *. rewrite A, B, C. exact Hc. }
  destruct (pace c r t w); simpl in *; auto.
  split; congruence.
Qed.

Lemma poll_idle n r :
  hoare (idle n) (poll r) (fun _ => idle n) (fun _ => conserved n).
Proof.
  intros w [Hh Hc]. unfold poll.
  destruct (poll_cancel r); simpl; [exact Hc | split; assumption].
Qed.

Lemma input_ready_idle n s r t :
  pool_ok n (buffers s) ->
  hoare (idle n) (input_ready s r t) (fun _ => idle n) (fun _ => conserved n).
Proof.
  intros Hp. unfold input_ready.
  eapply hoare_bind; [apply pace_idle|]. intros t'.
  eapply hoare_bind; [apply dequeue_conserved; exact Hp|]. intros b.
  eapply hoare_bind; [apply queue_conserved|]. intros u.
  apply hoare_ret. auto.
Qed.

Lemma output_ready_idle n s r :
  pool_ok n (buffers s) ->
  hoare (idle n) (output_ready s r) (fun _ => idle n) (fun _ => conserved n).
Proof.
  intros Hp. unfold output_ready.
  eapply hoare_bind; [apply dequeue_conserved; exact Hp|]. intros b.
  apply queue_conserved.
Qed.

Lemma relay_turn_idle n s r t :
  pool_ok n (buffers s) ->
  hoare (idle n) (relay_turn s r t) (fun _ => idle n) (fun _ => conserved n).
Proof.
  intros Hp. unfold relay_turn.
  eapply hoare_bind.
  - apply hoare_if; [apply input_ready_idle; exact Hp|].
    apply hoare_ret. intros w H. exact H.
  - intros t'. simpl. eapply hoare_bind.
    + apply hoare_if; [apply output_ready_idle; exact Hp|].
      apply hoare_ret. intros w H. exact H.
    + intros u. apply hoare_ret. auto.
Qed.

Lemma relay_loop_idle n s script :
  pool_ok n (buffers s) ->
  forall t,
  hoare (idle n) (relay_loop s script t) (fun _ => idle n)
        (fun _ => conserved n).
Proof.
  intros Hp. induction script as [|r rest IH]; intros t; simpl.
  - intros w [_ Hc]. exact Hc.
  - eapply hoare_bind; [apply poll_idle|]. intros res.
    apply hoare_if; [|apply hoare_ret; auto].
    eapply hoare_bind; [apply relay_turn_idle; exact Hp|].
    intros t'. apply IH.
Qed.

Lemma pace_ok c r t w t' w' :
  pace c r t w = Ok t' w' ->
  q_in w' = q_in w /\ q_out w' = q_out w /\ held w' = held w.
Proof.
  intros H. pose proof (pace_places c r t w) as P. rewrite H in P. exact P.
Qed.

Lemma input_ready_moves n s r t w t' w' :
  pool_ok n (buffers s) -> idle n w ->
  input_ready s r t w = Ok t' w' ->
  exists i, In i (q_in w) /\ q_in w' = remove_one i (q_in w) /\
            q_out w' = q_out w ++ [i] /\ held w' = [].
Proof.
  intros [_ Hidx] [Hh Hc] H. unfold input_ready in H.
  apply bind_ok in H. destruct H as (t1 & w1 & Hpace & H).
  apply bind_ok in H. destruct H as (b & w2 & Hdq & H).
  apply bind_ok in H. destruct H as (u & w3 & Hq & H).
  injection H as <- <-.
  apply pace_ok in Hpace. destruct Hpace as (A1 & A2 & A3).
  apply device_dequeue_buffer_ok in Hdq. simpl in Hdq.
  destruct Hdq as (Hin & -> & B1 & B2 & B3).
  apply device_queue_buffer_ok in Hq. simpl in Hq.
  destruct Hq as (_ & C1 & C2 & C3 & _).
  set (i := snd (dq_in r)) in *.
  rewrite A1 in Hin, B1. rewrite A2 in B2. rewrite A3, Hh in B3.
  assert (Hr : 0 <= i < n).
  { apply In_range. eapply Permutation_in; [exact Hc|].
    unfold places. rewrite Hh. simpl. apply in_or_app. auto. }
  rewrite Hidx in C1, C3 by exact Hr.
  exists i. rewrite C2, B1, C1, B2, C3, B3. simpl.
  rewrite Z.eqb_refl. auto.
Qed.

Lemma output_ready_moves n s r w u w' :
  pool_ok n (buffers s) -> idle n w ->
  output_ready s r w = Ok u w' ->
  exists i, In i (q_out w) /\ q_out w' = remove_one i (q_out w) /\
            q_in w' = q_in w ++ [i] /\ held w' = [].
Proof.
  intros [_ Hidx] [Hh Hc] H. unfold output_ready in H.
  apply bind_ok in H. destruct H as (b & w2 & Hdq & Hq).
  apply device_dequeue_buffer_ok in Hdq. simpl in Hdq.
  destruct Hdq as (Hin & -> & B1 & B2 & B3).
  apply device_queue_buffer_ok in Hq. simpl in Hq.
  destruct Hq as (_ & C1 & C2 & C3 & _).
  set (i := snd (dq_out r)) in *.
  rewrite Hh in B3.
  assert (Hr : 0 <= i < n).
  { apply In_range. eapply Permutation_in; [exact Hc|].
    unfold places. rewrite Hh. simpl. apply in_or_app. auto. }
  rewrite Hidx in C1, C3 by exact Hr.
  exists i. rewrite C2, B1, C1, B2, C3, B3. simpl.
  rewrite Z.eqb_refl. auto.
Qed.


(** C8 (as amended): each [device_init] asks for a format, reads back what
    the node settled on and stores it in the shared config.  The output
    device is asked for what the input device obtained, with the pixel
    format set to the configured fourcc again, and the config ends up
    holding the format of the output device.  The two devices have the same
    geometry when the output device grants its request as asked and the
    input device kept the fourcc. *)
Theorem negotiated_format s w s' w' :
  stream_init drv s w = Ok s' w' ->
  let c := s_config s in
  let act_in := drv_coerce (drv DevIn) (requested c) in
  let req_out := set_pixelformat act_in (fourcc c) in
  let act_out := drv_coerce (drv DevOut) req_out in
  fmt_in w' = act_in /\ fmt_out w' = act_out /\
  format (s_config s') = act_out /\
  (same_geometry act_out req_out -> pixelformat act_in = fourcc c ->
   same_geometry (fmt_in w') (fmt_out w') /\
   same_geometry (format (s_config s')) (fmt_in w')).
Proof.
  intros H c act_in req_out act_out.
  apply stream_init_ok in H.
  destruct H as (Hc & _ & _ & _ & _ & Hi & Ho & _).
  fold c in Hc, Hi, Ho. fold act_in in Hc, Hi, Ho. fold req_out in Hc, Ho.
  fold act_out in Hc, Ho.
  rewrite Hc, Hi, Ho. simpl. repeat split; auto;
    destruct H as (G1 & G2 & G3); simpl in *; congruence.
Qed.

End Conservation.

(** ** Hand-offs are direct *)

Lemma direct_handoffs_app a b :
  direct_handoffs a = true ->
  direct_handoffs (a ++ b) = direct_handoffs b.
Proof.
  induction a as [|e rest IH]; intros H; [reflexivity|].
  cbn [app]. destruct e; cbn [direct_handoffs] in *; auto.
  destruct d; auto.
  destruct (ret0 =? 0); auto.
  destruct rest as [|e' rest']; [discriminate|].
  destruct e'; try discriminate. destruct d; try discriminate.
  cbn [app]. apply IH. exact H.
Qed.

Lemma handed_app base l w w' :
  trace w' = trace w ++ l -> direct_handoffs l = true ->
  handed base w -> handed base w'.
Proof.
  intros E Hl (tr & Ht & F). exists (tr ++ l).
  rewrite E, Ht, <- app_assoc. split; [reflexivity|].
  rewrite direct_handoffs_app by exact F. exact Hl.
Qed.

Lemma handed_emit base e w :
  direct_handoffs [e] = true -> handed base w -> handed base (emit e w).
Proof. intros He. apply (handed_app base [e]); [apply trace_emit | exact He]. Qed.

Lemma hands_on_ret {A} (a : A) : hands_on (ret a).
Proof. intros base. apply hoare_ret. auto. Qed.

Lemma hands_on_bind {A B} (m : M A) (k : A -> M B) :
  hands_on m -> (forall a, hands_on (k a)) -> hands_on (bind m k).
Proof.
  intros Hm Hk base. eapply hoare_bind; [apply Hm|]. intros a. apply Hk.
Qed.

Lemma hands_on_if {A} (b : bool) (m1 m2 : M A) :
  hands_on m1 -> hands_on m2 -> hands_on (if b then m1 else m2).
Proof. destruct b; auto. Qed.

Lemma hands_on_emit e : direct_handoffs [e] = true -> hands_on (do_emit e).
Proof.
  intros He base w Hw. unfold do_emit. apply handed_emit; assumption.
Qed.

Lemma hands_on_ASSERT c e : hands_on (ASSERT c e).
Proof.
  intros base w Hw. unfold ASSERT. destruct c; [|exact Hw].
  repeat apply handed_emit; auto.
Qed.

Lemma hands_on_gettimeofday now : hands_on (gettimeofday now).
Proof.
  intros base w Hw. unfold gettimeofday. apply handed_emit; auto.
Qed.

Lemma hands_on_usleep us c : hands_on (usleep us c).
Proof.
  intros base w Hw. unfold usleep.
  destruct c; repeat apply handed_emit; auto.
Qed.

Lemma hands_on_poll r : hands_on (poll r).
Proof.
  intros base w Hw. unfold poll.
  destruct (poll_cancel r); repeat apply handed_emit; auto.
Qed.

Lemma hands_on_pace c r t : hands_on (pace c r t).
Proof.
  unfold pace. apply hands_on_if; [|apply hands_on_ret].
  apply hands_on_bind; [apply hands_on_gettimeofday|]. intros n1.
  apply hands_on_bind.
  { apply hands_on_if; [apply hands_on_usleep | apply hands_on_ret]. }
  intros _. apply hands_on_bind; [apply hands_on_gettimeofday|]. intros n2.
  apply hands_on_ret.
Qed.

Lemma device_dequeue_buffer_outcome sd d bs reply w :
  match device_dequeue_buffer sd d bs reply w with
  | Ok _ w' => trace w' = trace w ++ [EvDQBUF sd (dequeue_request d) 0]
  | Abort _ w' =>
      exists r, r <> 0 /\
        trace w' = trace w ++ [EvDQBUF sd (dequeue_request d) r;
                               EvStderr E_DQBUF; EvAbort]
  | Cancel _ | Pending _ => False
  end.
Proof.
  unfold device_dequeue_buffer, bind, ioctl_DQBUF, ASSERT, ret.
  destruct reply as [rd i].
  destruct ((rd =? 0) && memb i (queue_of sd w)) eqn:E; simpl.
  - destruct sd; simpl; rewrite ?trace_emit; reflexivity.
  - assert (Hr : (if rd =? 0 then -1 else rd) <> 0).
    { destruct (rd =? 0) eqn:Ed; [discriminate|].
      apply Z.eqb_neq. exact Ed. }
    apply Z.eqb_neq in Hr. rewrite Hr. simpl.
    apply Z.eqb_neq in Hr.
    exists (if rd =? 0 then -1 else rd). split; [exact Hr|].
    rewrite ?trace_emit, <- ?app_assoc. reflexivity.
Qed.

Lemma device_queue_buffer_outcome sd d b r w :
  match device_queue_buffer sd d b r w with
  | Ok _ w' => trace w' = trace w ++ [EvQBUF sd (queue_request d b) r]
  | Abort _ w' =>
      trace w' = trace w ++ [EvQBUF sd (queue_request d b) r;
                             EvStderr (E_QBUF (index b)); EvAbort]
  | Cancel _ | Pending _ => False
  end.
Proof.
  unfold device_queue_buffer, bind, ioctl_QBUF, ASSERT.
  destruct (r =? 0) eqn:E; simpl; rewrite E; simpl.
  - destruct sd; simpl; rewrite ?trace_emit; reflexivity.
  - rewrite ?trace_emit, <- ?app_assoc. reflexivity.
Qed.

(** A dequeue and the enqueue to the other node that follows it, taken
    together. *)
Lemma hands_on_handoff sd d bs reply d' r :
  hands_on (b <- device_dequeue_buffer sd d bs reply ;;
            device_queue_buffer (other sd) d' b r).
Proof.
  intros base w Hw. unfold bind.
  pose proof (device_dequeue_buffer_outcome sd d bs reply w) as H1.
  destruct (device_dequeue_buffer sd d bs reply w) as [b w1|e w1|w1|w1];
    try contradiction.
  - pose proof (device_queue_buffer_outcome (other sd) d' b r w1) as H2.
    destruct (device_queue_buffer (other sd) d' b r w1)
      as [u w2|e w2|w2|w2]; try contradiction.
    + eapply (handed_app base
                [EvDQBUF sd (dequeue_request d) 0;
                 EvQBUF (other sd) (queue_request d' b) r]);
        [|destruct sd; reflexivity|exact Hw].
      rewrite H2, H1, <- app_assoc. reflexivity.
    + eapply (handed_app base
                [EvDQBUF sd (dequeue_request d) 0;
                 EvQBUF (other sd) (queue_request d' b) r;
                 EvStderr (E_QBUF (index b)); EvAbort]);
        [|destruct sd; reflexivity|exact Hw].
      rewrite H2, H1, <- app_assoc. reflexivity.
  - destruct H1 as (r' & Hr & H1).
    eapply (handed_app base
              [EvDQBUF sd (dequeue_request d) r';
               EvStderr E_DQBUF; EvAbort]);
      [exact H1| |exact Hw].
    apply Z.eqb_neq in Hr.
    destruct sd; cbn [direct_handoffs]; rewrite ?Hr; reflexivity.
Qed.

Lemma hands_on_input_ready s r t : hands_on (input_ready s r t).
Proof.
  unfold input_ready.
  apply hands_on_bind; [apply hands_on_pace|]. intros t'.
  intros base w Hw.
  pose proof (hands_on_handoff DevIn (s_in s) (buffers s) (dq_in r)
                (s_out s) (q_out_ret r) base w Hw) as H.
  cbn [other] in H. unfold bind in *.
  destruct (device_dequeue_buffer DevIn (s_in s) (buffers s) (dq_in r) w)
    as [b w1|e w1|w1|w1]; try exact H.
  destruct (device_queue_buffer DevOut (s_out s) b (q_out_ret r) w1)
    as [u w2|e w2|w2|w2]; exact H.
Qed.

Lemma hands_on_output_ready s r : hands_on (output_ready s r).
Proof.
  unfold output_ready.
  exact (hands_on_handoff DevOut (s_out s) (buffers s) (dq_out r)
           (s_in s) (q_in_ret r)).
Qed.

Lemma hands_on_relay_turn s r t : hands_on (relay_turn s r t).
Proof.
  unfold relay_turn.
  apply hands_on_bind.
  { apply hands_on_if; [apply hands_on_input_ready | apply hands_on_ret]. }
  intros t'. apply hands_on_bind.
  { apply hands_on_if; [apply hands_on_output_ready | apply hands_on_ret]. }
  intros _. apply hands_on_ret.
Qed.

Lemma hands_on_relay_loop s script :
  forall t, hands_on (relay_loop s script t).
Proof.
  induction script as [|r rest IH]; intros t; cbn [relay_loop].
  - intros base w Hw. exact Hw.
  - apply hands_on_bind; [apply hands_on_poll|]. intros res.
    apply hands_on_if; [|apply hands_on_ret].
    apply hands_on_bind; [apply hands_on_relay_turn|]. intros t'. apply IH.
Qed.

Section Handoff.

Variable drv : side -> driver.

Lemma hands_on_device_on sd d : hands_on (device_on drv sd d).
Proof.
  unfold device_on.
  apply hands_on_bind; [apply hands_on_emit; reflexivity|]. intros _.
  apply hands_on_ASSERT.
Qed.

Lemma hands_on_device_off sd d : hands_on (device_off drv sd d).
Proof.
  unfold device_off.
  apply hands_on_bind; [apply hands_on_emit; reflexivity|]. intros _.
  apply hands_on_ASSERT.
Qed.

Lemma hands_on_stream_off s : hands_on (stream_off drv s).
Proof.
  unfold stream_off.
  apply hands_on_bind; [apply hands_on_device_off|]. intros _.
  apply hands_on_device_off.
Qed.

Lemma hands_on_relay_body s script : hands_on (relay_body drv s script).
Proof.
  unfold relay_body.
  apply hands_on_bind; [apply hands_on_device_on|]. intros _.
  apply hands_on_bind; [apply hands_on_device_on|]. intros _.
  apply hands_on_relay_loop.
Qed.

(** C1: in every run of the worker, for every stream (whatever its rate,
    so in free-run mode too), every script of kernel answers and every way
    the run ends, the event right after a successful dequeue from the
    input is the enqueue of that buffer to the output.  No sleep is
    inserted between the two on any iteration: the pacing block, which is
    the only place that sleeps, comes before the dequeue. *)
Theorem handoff_never_sleeps s script w :
  exists tr,
    trace (world_of (stream_on drv s script w)) = trace w ++ tr /\
    direct_handoffs tr = true.
Proof.
  assert (G : handed (trace w) w).
  { exists []. rewrite app_nil_r. auto. }
  pose proof (hands_on_relay_body s script (trace w) w G) as H.
  unfold stream_on, with_cleanup.
  destruct (relay_body drv s script w) as [u w1|e w1|w1|w1];
    cbn [world_of]; try exact H.
  - pose proof (hands_on_stream_off s (trace w) w1 H) as K.
    destruct (stream_off drv s w1); exact K.
  - pose proof (hands_on_stream_off s (trace w) w1 H) as K.
    destruct (stream_off drv s w1); exact K.
Qed.

End Handoff.

(** ** Free run *)

(** With fps = -1 [stream_init] stores 4294967295 in [frame_us], and the
    first input-ready turn of the relay loop sleeps for 3890331647
    microseconds before it dequeues. *)
Example free_run_sleeps :
  frame_us_of_fps (-1) = 4294967295 /\
  usleeps (trace (world_of
     (run_stream ex_drv (ex_stream (-1) 2) [ex_input_ready] ex_world)))
  = [3890331647].
Proof. split; vm_compute; reflexivity. Qed.

Lemma free_run_frame_us f : f <= 0 -> frame_us_of_fps f = 4294967295.
Proof.
  intros Hf. unfold frame_us_of_fps.
  destruct (f >? 0) eqn:E; [apply Z.gtb_lt in E; lia | reflexivity].
Qed.

(** C3: with two buffers and the input device exporting, both export
    requests name index 0: the handle stored at pool entry 1 is a handle of
    buffer 0 of the exporting device. *)
Theorem export_names_index_0 :
  match stream_init ex_drv (ex_stream 30 2) ex_world with
  | Ok s w =>
      buffers s = [mk_buffer 0 5; mk_buffer 1 6] /\
      exported w = [(DevIn, 0, 5); (DevIn, 0, 6)] /\
      filter (fun e => match e with EvEXPBUF _ _ _ _ _ => true | _ => false end)
             (trace w)
      = [EvEXPBUF DevIn 1 0 0 5; EvEXPBUF DevIn 1 0 0 6]
  | _ => False
  end.
Proof. vm_compute. auto. Qed.

(** [ex_primed] and [ex_primed_world] are what [stream_init] leaves behind. *)
Lemma ex_primed_ok :
  match stream_init ex_drv (ex_stream 30 2) ex_world with
  | Ok s w =>
      s = ex_primed /\
      mk_world [] (q_in w) (q_out w) (held w) (fmt_in w) (fmt_out w)
               (exported w) = ex_primed_world
  | _ => False
  end.
Proof. vm_compute. auto. Qed.

(** C2, counterexample: the dequeue fails in the first turn; the process
    aborts and neither device has received a stop call. *)
Lemma abort_skips_teardown :
  exists w,
    stream_on ex_drv ex_primed [ex_dqbuf_fails] ex_primed_world
      = Abort E_DQBUF w /\
    offs DevIn w = 0%nat /\ offs DevOut w = 0%nat.
Proof. eexists. split; [vm_compute; reflexivity|]. split; reflexivity. Qed.

(** C5, counterexample: the enqueue to the output device fails; the
    outcome is an abort of the process, not a teardown of the stream. *)
Lemma enqueue_failure_aborts_process :
  exists w,
    stream_on ex_drv ex_primed [ex_qbuf_fails] ex_primed_world
      = Abort (E_QBUF 0) w /\
    offs DevIn w = 0%nat /\ offs DevOut w = 0%nat.
Proof. eexists. split; [vm_compute; reflexivity|]. split; reflexivity. Qed.


(** C8, counterexample: the output node settles on 320x240 whatever it is
    asked; after setup the input device runs at 640x480 and the output
    device at 320x240. *)
Lemma geometry_can_differ :
  match stream_init ex_drv_fixed (ex_stream 30 2) ex_world with
  | Ok s w =>
      width (fmt_in w) = 640 /\ width (fmt_out w) = 320 /\
      ~ same_geometry (fmt_in w) (fmt_out w)
  | _ => False
  end.
Proof.
  vm_compute. split; [reflexivity|]. split; [reflexivity|].
  intros [H _]. discriminate H.
Qed.

(** ** Pacing *)

Lemma u32_small x : 0 <= x < 2 ^ 32 -> u32 x = x.
Proof. intros H. unfold u32. apply Z.mod_small. exact H. Qed.

Lemma u32_sub a b : u32 (u32 a - u32 b) = u32 (a - b).
Proof. unfold u32. rewrite <- Zminus_mod. reflexivity. Qed.

Lemma frame_us_of_fps_pos F : 0 < F -> frame_us_of_fps F = 1000000 / F.
Proof.
  intros HF. unfold frame_us_of_fps.
  replace (F >? 0) with true by (symmetry; apply Z.gtb_lt; lia).
  rewrite (Z.quot_div_nonneg 10000000 F) by lia.
  assert (0 <= 10000000 / F) by (apply Z.div_pos; lia).
  rewrite Z.quot_div_nonneg by lia.
  rewrite Z.div_div by lia.
  replace 10000000 with (1000000 * 10) by reflexivity.
  rewrite Z.div_mul_cancel_r by lia.
  apply u32_small. split; [apply Z.div_pos; lia|].
  apply Z.le_lt_trans with 1000000; [|reflexivity].
  apply Z.div_le_upper_bound; lia.
Qed.

Lemma frame_us_bounds F :
  0 < F ->
  0 <= frame_us_of_fps F <= 1000000 /\
  F * frame_us_of_fps F <= 1000000 < F * (frame_us_of_fps F + 1).
Proof.
  intros HF. rewrite frame_us_of_fps_pos by exact HF.
  pose proof (Z.mul_div_le 1000000 F HF).
  pose proof (Z.mul_succ_div_gt 1000000 F HF).
  assert (0 <= 1000000 / F) by (apply Z.div_pos; lia).
  assert (1000000 / F <= 1000000) by (apply Z.div_le_upper_bound; lia).
  lia.
Qed.

(** Pacing while the time stamps do not wrap.  With a positive rate [F]
    the interval is [1000000 / F] microseconds, which is 1/F seconds cut to
    whole microseconds.  On an input-ready turn that follows the previous
    one after fewer than [frame_us] microseconds the relay sleeps for the
    difference; when 1/F seconds or more have passed it does not sleep at
    all.  [T0], [T1] and [T2] are the clock, in microseconds, at the
    previous stamp, before and after the sleep.  The clock is taken not to
    run backwards, fewer than 2^32 microseconds to lie between two
    input-ready turns (the stamps are 32 bits wide), and [usleep] to
    suspend at least as long as asked. *)
Lemma bounded_pacing c r t w F T0 :
  0 < F ->
  frame_us c = frame_us_of_fps F ->
  prev t = u32 T0 ->
  let T1 := tv_sec (now1 r) * 1000000 + tv_usec (now1 r) in
  let T2 := tv_sec (now2 r) * 1000000 + tv_usec (now2 r) in
  T0 <= T1 < T0 + 2 ^ 32 ->
  sleep_cancel r = false ->
  T1 + Z.max 0 (frame_us c - (T1 - T0)) <= T2 ->
  exists t' w',
    pace c r t w = Ok t' w' /\
    (T1 - T0 < frame_us c ->
     usleeps (trace w') = usleeps (trace w) ++ [frame_us c - (T1 - T0)]) /\
    (frame_us c <= T1 - T0 -> usleeps (trace w') = usleeps (trace w)) /\
    (1000000 <= F * (T1 - T0) -> usleeps (trace w') = usleeps (trace w)) /\
    (0 < frame_us c -> prev t' = u32 T2) /\
    frame_us c <= T2 - T0 /\
    F * frame_us c <= 1000000 < F * (frame_us c + 1).
Proof.
  intros HF Hfu Hprev T1 T2 HT Hcan Hsleep.
  destruct (frame_us_bounds F HF) as [Hb1 Hb2]. rewrite <- Hfu in Hb1, Hb2.
  assert (Hde : u32 (usec_of (now1 r) - prev t) = T1 - T0).
  { unfold usec_of. fold T1. rewrite Hprev, u32_sub. apply u32_small. lia. }
  assert (Hslow : 1000000 <= F * (T1 - T0) -> frame_us c <= T1 - T0) by nia.
  unfold pace.
  destruct (frame_us c >? 0) eqn:Epos.
  - unfold bind, gettimeofday. rewrite Hde.
    destruct (T1 - T0 <? frame_us c) eqn:Elt.
    + apply Z.ltb_lt in Elt.
      unfold usleep. rewrite Hcan. simpl.
      rewrite u32_small by lia.
      eexists; eexists; split; [reflexivity|].
      rewrite ?trace_emit. unfold usleeps. rewrite ?flat_map_app. simpl.
      rewrite ?app_nil_r.
      repeat split; try lia; auto; try (intros; lia).
    + apply Z.ltb_ge in Elt. simpl.
      eexists; eexists; split; [reflexivity|].
      rewrite ?trace_emit. unfold usleeps. rewrite ?flat_map_app. simpl.
      rewrite ?app_nil_r.
      repeat split; try lia; auto; try (intros; lia).
  - assert (frame_us c = 0) by (rewrite Z.gtb_ltb in Epos; apply Z.ltb_ge in Epos; lia).
    eexists; eexists; split; [reflexivity|].
    repeat split; try lia; auto; try (intros; lia).
Qed.

(** Free run sleeps on every input-ready turn, whatever the clock says,
    unless the computed delay happens to be 4294967295 itself. *)
Lemma free_run_pace_sleeps c r t w :
  frame_us c = 4294967295 ->
  sleep_cancel r = false ->
  u32 (usec_of (now1 r) - prev t) <> 4294967295 ->
  exists t' w',
    pace c r t w = Ok t' w' /\
    usleeps (trace w') =
    usleeps (trace w) ++ [4294967295 - u32 (usec_of (now1 r) - prev t)].
Proof.
  intros Hfu Hcan Hde.
  assert (Hr : 0 <= u32 (usec_of (now1 r) - prev t) < 4294967296)
    by (apply Z.mod_pos_bound; reflexivity).
  remember (u32 (usec_of (now1 r) - prev t)) as de eqn:Ede.
  assert (Hs : u32 (4294967295 - de) = 4294967295 - de)
    by (apply u32_small; change (2 ^ 32) with 4294967296; lia).
  unfold pace. rewrite Hfu. change (4294967295 >? 0) with true. cbv iota.
  unfold bind, gettimeofday. rewrite <- Ede.
  replace (de <? 4294967295) with true by (symmetry; apply Z.ltb_lt; lia).
  unfold usleep. rewrite Hcan, Hs.
  eexists; eexists; split; [reflexivity|].
  rewrite ?trace_emit. unfold usleeps. rewrite ?flat_map_app.
  cbn [flat_map app]. rewrite ?app_nil_r. reflexivity.
Qed.

Lemma device_dequeue_buffer_trace sd d bs reply w b w' :
  device_dequeue_buffer sd d bs reply w = Ok b w' ->
  trace w' = trace w ++ [EvDQBUF sd (dequeue_request d) 0].
Proof.
  destruct reply as [r i].
  unfold device_dequeue_buffer, bind, ioctl_DQBUF, ASSERT, ret.
  destruct ((r =? 0) && memb i (queue_of sd w)) eqn:E; simpl.
  - destruct sd; intros H; injection H as _ <-; reflexivity.
  - destruct (r =? 0) eqn:R; simpl; rewrite ?R; simpl; discriminate.
Qed.

Lemma device_queue_buffer_trace sd d b r w u w' :
  device_queue_buffer sd d b r w = Ok u w' ->
  trace w' = trace w ++ [EvQBUF sd (queue_request d b) 0].
Proof.
  unfold device_queue_buffer, bind, ioctl_QBUF, ASSERT.
  destruct (r =? 0) eqn:E; simpl; rewrite E; simpl; [|discriminate].
  apply Z.eqb_eq in E. subst r.
  destruct sd; intros H; injection H as _ <-; reflexivity.
Qed.

(** Inside an input-ready turn the enqueue to the output device follows
    the dequeue from the input device directly: the pacing sleep comes
    before the dequeue, never between the two. *)
Lemma handoff_is_immediate s r t w t' w' :
  input_ready s r t w = Ok t' w' ->
  exists tr b,
    trace w' = tr ++ [EvDQBUF DevIn (dequeue_request (s_in s)) 0;
                      EvQBUF DevOut (queue_request (s_out s) b) 0].
Proof.
  unfold input_ready. intros H.
  apply bind_ok in H. destruct H as (t1 & w1 & _ & H).
  apply bind_ok in H. destruct H as (b & w2 & Hdq & H).
  apply bind_ok in H. destruct H as (u & w3 & Hq & H).
  injection H as <- <-.
  apply device_dequeue_buffer_trace in Hdq.
  apply device_queue_buffer_trace in Hq.
  exists (trace w1), b. rewrite Hq, Hdq, <- app_assoc. reflexivity.
Qed.

(** C9: the time stamps [curr] and [prev] are 32 bits wide, so the delay
    between two hand-offs is known modulo 2^32 microseconds only.  At one
    frame per second ([frame_us] = 1000000), a frame that is ready 2^32 + 10
    microseconds after the previous hand-off, the loop having been kept
    going by events on the nodes in between, looks 10 microseconds late: the
    relay sleeps 999990 microseconds before it hands the frame on, although
    the source was more than 71 minutes slower than the rate.  This is the
    only sleep of the run. *)
Theorem slow_source_is_delayed :
  frame_us_of_fps 1 = 1000000 /\
  tv_sec (now1 ex_late) * 1000000 + tv_usec (now1 ex_late)
  = tv_sec (now2 ex_first) * 1000000 + tv_usec (now2 ex_first)
    + 2 ^ 32 + 10 /\
  usleeps (trace (world_of ex_slow_run)) = [999990] /\
  (exists w', ex_slow_run = Pending w').
Proof.
  split; [vm_compute; reflexivity|].
  split; [vm_compute; reflexivity|].
  split; [vm_compute; reflexivity|].
  eexists. vm_compute. reflexivity.
Qed.

(** ** The theorems at concrete inputs *)

(** [teardown_once] on a run that is cancelled inside the pacing sleep of
    its second turn, with both stop calls succeeding. *)
Lemma teardown_once_witness :
  ex_cancelled_run = Cancel (world_of ex_cancelled_run) /\
  usleeps (trace (world_of ex_cancelled_run)) = [23433] /\
  offs DevIn (world_of ex_cancelled_run) = 1%nat /\
  offs DevOut (world_of ex_cancelled_run) = 1%nat /\
  trace (world_of ex_cancelled_run)
  = trace (world_of ex_cancelled_body)
    ++ [EvSTREAMOFF DevIn 1; EvSTREAMOFF DevOut 2].
Proof.
  pose proof (teardown_once ex_drv ex_primed [ex_first; ex_cancel_in_sleep]
                ex_primed_world) as T.
  cbv zeta in T. destruct T as (_ & _ & T).
  assert (B : ex_cancelled_body = Cancel (world_of ex_cancelled_body))
    by (vm_compute; reflexivity).
  rewrite B in T. destruct T as (Tin & _ & T).
  destruct (T ltac:(simpl; lia)) as (Tout & _ & T').
  destruct (T' ltac:(simpl; lia)) as (Tr & Ttrace).
  split; [exact Tr|]. split; [vm_compute; reflexivity|].
  split; [exact Tin|]. split; [exact Tout|]. exact Ttrace.
Defined.

(** [runtime_failure_aborts] on a run whose first enqueue to the output
    device fails. *)
Lemma runtime_failure_aborts_witness :
  -1 <> 0 /\ fst (-1, 0) <> 0 /\
  ex_aborted_run = Abort (E_QBUF 0) (world_of ex_aborted_run) /\
  offs DevIn (world_of ex_aborted_run) = 0%nat /\
  offs DevOut (world_of ex_aborted_run) = 0%nat /\
  logged (Some (E_QBUF 0)) (world_of ex_aborted_run).
Proof.
  assert (H1 : -1 <> 0) by discriminate.
  assert (H2 : fst (-1, 0) <> 0) by discriminate.
  assert (H3 : ex_aborted_run = Abort (E_QBUF 0) (world_of ex_aborted_run))
    by (vm_compute; reflexivity).
  split; [exact H1|]. split; [exact H2|]. split; [exact H3|].
  destruct (runtime_failure_aborts ex_drv ex_primed [ex_qbuf_fails]
              ex_primed_world DevOut (s_out ex_primed) (mk_buffer 0 5)
              (buffers ex_primed) (-1) (-1, 0) H1 H2) as (_ & _ & H).
  apply (H (E_QBUF 0) (world_of ex_aborted_run) H3).
  right. exists 0. reflexivity.
Defined.


(** The short node answers everything before VIDIOC_REQBUFS. *)
Lemma ex_short_negotiates : negotiates ex_drv_short DevIn V4L2_CAP_VIDEO_CAPTURE.
Proof. unfold negotiates; cbn. repeat split; try lia. Defined.

(** [allocation_shortfall] when four buffers are requested and three are
    granted. *)
Lemma allocation_shortfall_witness :
  negotiates ex_drv_short DevIn V4L2_CAP_VIDEO_CAPTURE /\
  3 < 4 /\
  exists w',
    device_init ex_drv_short DevIn (s_in (ex_stream 30 4))
                (s_config (ex_stream 30 4)) V4L2_CAP_VIDEO_CAPTURE ex_world
      = Abort (E_alloc_short 3 4) w' /\
    logged (Some (E_alloc_short 3 4)) w'.
Proof.
  split; [exact ex_short_negotiates|]. split; [lia|].
  apply (proj1 (allocation_shortfall ex_drv_short DevIn
                  (s_in (ex_stream 30 4)) (s_config (ex_stream 30 4))
                  V4L2_CAP_VIDEO_CAPTURE ex_world ex_short_negotiates)).
  cbn. lia.
Defined.

(** [dequeue_type_matches] on the output device of the example. *)
Lemma dequeue_type_matches_witness :
  (V4L2_CAP_VIDEO_OUTPUT = V4L2_CAP_VIDEO_CAPTURE \/
   V4L2_CAP_VIDEO_OUTPUT = V4L2_CAP_VIDEO_OUTPUT) /\
  ex_out_init =
    Ok (s_out ex_primed,
        mk_config ex_fourcc (mk_pix 640 480 ex_fourcc 0 0 0 0) 2 30 0)
       (world_of ex_out_init) /\
  vb_type (dequeue_request (s_out ex_primed)) = 2 /\
  vb_type (queue_request (s_out ex_primed) (mk_buffer 0 5)) = 2 /\
  buf_type (s_out ex_primed) = 2.
Proof.
  assert (H1 : V4L2_CAP_VIDEO_OUTPUT = V4L2_CAP_VIDEO_CAPTURE \/
               V4L2_CAP_VIDEO_OUTPUT = V4L2_CAP_VIDEO_OUTPUT)
    by (right; reflexivity).
  assert (H2 : ex_out_init =
    Ok (s_out ex_primed,
        mk_config ex_fourcc (mk_pix 640 480 ex_fourcc 0 0 0 0) 2 30 0)
       (world_of ex_out_init)) by (vm_compute; reflexivity).
  split; [exact H1|]. split; [exact H2|].
  destruct (dequeue_type_matches ex_drv DevOut (s_out (ex_stream 30 2))
              (s_config (ex_stream 30 2)) V4L2_CAP_VIDEO_OUTPUT ex_world
              _ _ _ (mk_buffer 0 5) H1 H2) as (_ & E1 & E2 & _ & E3).
  rewrite <- E1, E2. rewrite (E3 eq_refl). repeat split; reflexivity.
Defined.

(** The same, keeping the trace. *)
Lemma ex_init_ok : ex_init = Ok ex_primed (world_of ex_init).
Proof. vm_compute. reflexivity. Defined.

(** [negotiated_format] on two nodes that take every format as asked. *)
Lemma negotiated_format_witness :
  ex_init = Ok ex_primed (world_of ex_init) /\
  format (s_config ex_primed) = fmt_out (world_of ex_init) /\
  same_geometry (fmt_in (world_of ex_init)) (fmt_out (world_of ex_init)).
Proof.
  split; [exact ex_init_ok|].
  destruct (negotiated_format ex_drv (ex_stream 30 2) ex_world ex_primed
              (world_of ex_init) ex_init_ok) as (_ & E2 & E3 & H).
  split; [rewrite E2, E3; reflexivity|].
  apply H; [repeat split; reflexivity | reflexivity].
Defined.


(** [bounded_pacing] at 30 frames per second, the second frame 10 ms after
    the first: the relay sleeps 23333 microseconds. *)
Lemma bounded_pacing_witness :
  0 < 30 /\
  frame_us (s_config ex_primed) = frame_us_of_fps 30 /\
  404635648 = u32 1700000000000000 /\
  1700000000000000 <= 1700000000010000 < 1700000000000000 + 2 ^ 32 /\
  sleep_cancel ex_fast = false /\
  1700000000010000 + Z.max 0 (33333 - 10000) <= 1700000000033400 /\
  usleeps (trace (world_of ex_paced)) = [23333] /\
  33333 <= 1700000000033400 - 1700000000000000.
Proof.
  assert (H1 : 0 < 30) by lia.
  assert (H2 : frame_us (s_config ex_primed) = frame_us_of_fps 30)
    by reflexivity.
  assert (H3 : prev (mk_times 0 404635648 0) = u32 1700000000000000)
    by reflexivity.
  assert (H4 : 1700000000000000
               <= tv_sec (now1 ex_fast) * 1000000 + tv_usec (now1 ex_fast)
               < 1700000000000000 + 2 ^ 32) by (cbn; lia).
  assert (H5 : sleep_cancel ex_fast = false) by reflexivity.
  assert (H6 : tv_sec (now1 ex_fast) * 1000000 + tv_usec (now1 ex_fast)
               + Z.max 0 (frame_us (s_config ex_primed)
                          - (tv_sec (now1 ex_fast) * 1000000
                             + tv_usec (now1 ex_fast) - 1700000000000000))
               <= tv_sec (now2 ex_fast) * 1000000 + tv_usec (now2 ex_fast))
    by (cbn; lia).
  destruct (bounded_pacing (s_config ex_primed) ex_fast
              (mk_times 0 404635648 0) ex_primed_world 30 1700000000000000
              H1 H2 H3 H4 H5 H6)
    as (t' & w' & Hrun & Hfast & _ & _ & _ & Hgap & _).
  repeat (split; [first [exact H1 | exact H2 | exact H3 | exact H4
                        | exact H5 | exact H6] |]).
  split; [|exact Hgap].
  rewrite Hrun. simpl world_of.
  rewrite Hfast by (cbn; lia). reflexivity.
Defined.


(** * Properties of the rest of the code *)

(** ** Strings and numbers of the C library *)

Lemma strchr_app_absent a r c :
  strchr a c = None -> strchr (a ++ r) c = strchr r c.
Proof.
  induction a as [|x t IH]; simpl; [reflexivity|].
  destruct (Ascii.eqb x c); [discriminate|]. exact IH.
Qed.

Lemma strchr_hit c r : strchr (String c r) c = Some (String c r).
Proof. simpl. rewrite Ascii.eqb_refl. reflexivity. Qed.

Lemma strchr_sep a c r :
  strchr a c = None -> strchr (a ++ String c r) c = Some (String c r).
Proof. intros H. rewrite strchr_app_absent by exact H. apply strchr_hit. Qed.

Lemma length_app_string a r :
  String.length (a ++ r) = (String.length a + String.length r)%nat.
Proof. induction a; simpl; congruence. Qed.

Lemma ptrdiff_app a r : ptrdiff (a ++ r) r = Z.of_nat (String.length a).
Proof. unfold ptrdiff. rewrite length_app_string. lia. Qed.

Lemma substring_app a r : substring 0 (String.length a) (a ++ r) = a.
Proof. induction a; simpl; [destruct r; reflexivity|]. congruence. Qed.

Lemma digits_app ds r :
  all_digits ds = true ->
  match r with String c _ => isdigit c = false | EmptyString => True end ->
  forall acc, digits (ds ++ r) acc = (fst (digits ds acc), r).
Proof.
  intros Hd Hr. induction ds as [|c t IH]; intros acc; simpl.
  - destruct r as [|c r']; [reflexivity|]. simpl. rewrite Hr. reflexivity.
  - simpl in Hd. apply andb_prop in Hd. destruct Hd as [Hc Ht].
    rewrite Hc. apply IH. exact Ht.
Qed.

Lemma digits_nonneg s :
  forall acc, 0 <= acc -> 0 <= fst (digits s acc).
Proof.
  induction s as [|c t IH]; intros acc Hacc; simpl; [exact Hacc|].
  destruct (isdigit c) eqn:E; simpl; [|exact Hacc].
  apply IH. unfold isdigit in E. apply andb_prop in E. destruct E as [E _].
  apply Z.leb_le in E. lia.
Qed.

Lemma all_digits_no_sep ds c :
  all_digits ds = true -> isdigit c = false -> strchr ds c = None.
Proof.
  intros Hd Hc. induction ds as [|x t IH]; simpl; [reflexivity|].
  simpl in Hd. apply andb_prop in Hd. destruct Hd as [Hx Ht].
  destruct (Ascii.eqb_spec x c) as [-> | _]; [congruence|]. auto.
Qed.

Lemma digit_not_space c : isdigit c = true -> isspace c = false.
Proof.
  unfold isdigit, isspace. intros H. apply andb_prop in H.
  destruct H as [H1 H2]. apply Z.leb_le in H1, H2.
  apply orb_false_intro.
  - apply Z.eqb_neq. lia.
  - apply andb_false_intro2. apply Z.leb_gt. lia.
Qed.

Lemma digit_not_sign c :
  isdigit c = true -> Ascii.eqb c "-" = false /\ Ascii.eqb c "+" = false.
Proof.
  intros H. split.
  - destruct (Ascii.eqb_spec c "-") as [-> | _]; [discriminate|reflexivity].
  - destruct (Ascii.eqb_spec c "+") as [-> | _]; [discriminate|reflexivity].
Qed.

Lemma gtb_false n m : n <= m -> (n >? m) = false.
Proof. intros H. rewrite Z.gtb_ltb. apply Z.ltb_ge. exact H. Qed.

(** [u32] on values below 2^32 and on negated values. *)
Lemma u32_id x : 0 <= x < 2 ^ 32 -> u32 x = x.
Proof. intros H. apply Z.mod_small. exact H. Qed.

Lemma to_int_small x : 0 <= x < 2 ^ 31 -> to_int x = x.
Proof.
  intros H. unfold to_int. rewrite u32_id by lia.
  replace (x <? 2 ^ 31) with true by (symmetry; apply Z.ltb_lt; lia).
  reflexivity.
Qed.

Lemma to_int_negated L v :
  32 <= L -> 0 <= v < 2 ^ 31 -> to_int ((2 ^ L - v) mod 2 ^ L) = - v.
Proof.
  intros HL Hv.
  assert (Hp : 2 ^ L = 2 ^ (L - 32) * 2 ^ 32).
  { rewrite <- Z.pow_add_r by lia. f_equal. lia. }
  assert (Hq : 0 < 2 ^ (L - 32)) by (apply Z.pow_pos_nonneg; lia).
  change (2 ^ 31) with 2147483648 in Hv.
  change (2 ^ 32) with 4294967296 in Hp.
  destruct (Z.eq_dec v 0) as [-> | Hne].
  - rewrite Z.sub_0_r, Z.mod_same by lia. reflexivity.
  - rewrite (Z.mod_small (2 ^ L - v)) by nia.
    unfold to_int, u32.
    change (2 ^ 31) with 2147483648. change (2 ^ 32) with 4294967296.
    replace (2 ^ L - v)
      with (4294967296 - v + (2 ^ (L - 32) - 1) * 4294967296) by lia.
    rewrite Z.mod_add by lia. rewrite (Z.mod_small (4294967296 - v)) by lia.
    replace (4294967296 - v <? 2147483648) with false
      by (symmetry; apply Z.ltb_ge; lia).
    lia.
Qed.

Section CommandLineFacts.

Variable sizeof_device : Z.
Variable LONG_BIT : Z.
Variable char_signed : bool.

Hypothesis sizeof_device_ge : 33 <= sizeof_device.
Hypothesis LONG_BIT_ge : 32 <= LONG_BIT.

Lemma copy_name_fits a r :
  (String.length a <= 31)%nat ->
  copy_name sizeof_device (a ++ r) r = Some a.
Proof.
  intros H. unfold copy_name. rewrite ptrdiff_app.
  rewrite Z.min_r by lia.
  replace (Z.of_nat (String.length a) >? 31) with false
    by (symmetry; apply gtb_false; lia).
  rewrite Nat2Z.id, substring_app. reflexivity.
Qed.

Lemma copy_name_overrun a r :
  (32 <= String.length a)%nat ->
  copy_name sizeof_device (a ++ r) r = None.
Proof.
  intros H. unfold copy_name. rewrite ptrdiff_app.
  replace (Z.min (sizeof_device - 1) (Z.of_nat (String.length a)) >? 31)
    with true; [reflexivity|].
  symmetry. apply Z.gtb_lt. lia.
Qed.

Lemma ULONG_MAX_large : 2 ^ 32 - 1 <= ULONG_MAX LONG_BIT.
Proof.
  unfold ULONG_MAX.
  assert (2 ^ 32 <= 2 ^ LONG_BIT) by (apply Z.pow_le_mono_r; lia). lia.
Qed.

(** [strtoul] on a field of digits, possibly empty, that a character other
    than a digit, a sign or white space ends. *)
Lemma strtoul_digits ds c r :
  all_digits ds = true ->
  isdigit c = false -> isspace c = false ->
  Ascii.eqb c "-" = false -> Ascii.eqb c "+" = false ->
  decimal ds < 2 ^ 32 ->
  strtoul LONG_BIT (ds ++ String c r) = (decimal ds, String c r).
Proof.
  intros Hd Hc Hs Hm Hp Hv. unfold strtoul, decimal in *.
  pose proof ULONG_MAX_large as HU.
  destruct ds as [|d t].
  - cbn [append skip_space]. rewrite Hs. unfold sign. rewrite Hm, Hp, Hc.
    reflexivity.
  - pose proof Hd as Hall. cbn [all_digits] in Hd.
    apply andb_prop in Hd. destruct Hd as [Hd Ht].
    cbn [append skip_space]. rewrite (digit_not_space d Hd). unfold sign.
    destruct (digit_not_sign d Hd) as [-> ->]. rewrite Hd.
    change (String d (t ++ String c r)) with (String d t ++ String c r)%string.
    rewrite digits_app by assumption.
    rewrite gtb_false by lia. reflexivity.
Qed.

(** The same with a minus sign in front of at least one digit. *)
Lemma strtoul_minus ds c r :
  all_digits ds = true -> ds <> EmptyString ->
  isdigit c = false ->
  decimal ds < 2 ^ 32 ->
  strtoul LONG_BIT (String "-" (ds ++ String c r))
  = ((2 ^ LONG_BIT - decimal ds) mod 2 ^ LONG_BIT, String c r).
Proof.
  intros Hd Hne Hc Hv. unfold strtoul, decimal in *.
  pose proof ULONG_MAX_large as HU.
  destruct ds as [|d t]; [congruence|].
  pose proof Hd as Hall. cbn [all_digits] in Hd.
  apply andb_prop in Hd. destruct Hd as [Hd Ht].
  change (skip_space (String "-" (String d t ++ String c r)))
    with (String "-" (String d t ++ String c r)).
  unfold sign. change (Ascii.eqb "-" "-") with true. cbv iota.
  cbn [append]. rewrite Hd.
  change (String d (t ++ String c r)) with (String d t ++ String c r)%string.
  rewrite digits_app by assumption.
  rewrite gtb_false by lia.
  unfold ULONG_MAX. replace (2 ^ LONG_BIT - 1 + 1) with (2 ^ LONG_BIT) by lia.
  reflexivity.
Qed.

Lemma scan_u_digits ds c r :
  all_digits ds = true -> ds <> EmptyString ->
  isdigit c = false ->
  decimal ds < 2 ^ 32 ->
  scan_u (ds ++ String c r) = ScanOk (decimal ds) (String c r).
Proof.
  intros Hd Hne Hc Hv. unfold scan_u, decimal in *.
  destruct ds as [|d t]; [congruence|].
  pose proof Hd as Hall. cbn [all_digits] in Hd.
  apply andb_prop in Hd. destruct Hd as [Hd Ht].
  cbn [append skip_space]. rewrite (digit_not_space d Hd). rewrite Hd.
  change (String d (t ++ String c r)) with (String d t ++ String c r)%string.
  rewrite digits_app by assumption.
  replace (fst (digits (String d t) 0) <? 2 ^ 32) with true
    by (symmetry; apply Z.ltb_lt; exact Hv).
  reflexivity.
Qed.

End CommandLineFacts.

(** ** [stream_parse_args] *)

Section ParseFacts.

Variable sizeof_device : Z.
Variable LONG_BIT : Z.
Variable char_signed : bool.

Hypothesis sizeof_device_ge : 33 <= sizeof_device.
Hypothesis LONG_BIT_ge : 32 <= LONG_BIT.

Local Abbreviation parse := (stream_parse_args sizeof_device LONG_BIT char_signed).
Local Abbreviation numbers := (parse_numbers LONG_BIT char_signed).
Local Abbreviation size := (parse_size char_signed).

(** The names and the export side. *)
Lemma parse_names s n_in n_out e side rest :
  strchr n_in ":" = None -> (String.length n_in <= 31)%nat ->
  strchr n_out "@" = None -> (String.length n_out <= 31)%nat ->
  strchr (String e side) "@" = None ->
  parse s (n_in ++ ":" ++ n_out ++ "@" ++ String e side ++ "@" ++ rest)
  = if Ascii.eqb e "o"
    then numbers (named s n_in n_out false (fps (s_config s))
                        (num_buffers (s_config s))) rest
    else if Ascii.eqb e "i"
    then numbers (named s n_in n_out true (fps (s_config s))
                        (num_buffers (s_config s))) rest
    else Parsed (-1)
           (set_out (set_in s (set_devname (s_in s) n_in))
                    (set_devname (s_out s) n_out)).
Proof.
  intros Hi Li Ho Lo He.
  unfold stream_parse_args, NEXT_ARG.
  cbn [append]. rewrite (strchr_sep n_in ":" _ Hi).
  rewrite (copy_name_fits sizeof_device sizeof_device_ge n_in _ Li).
  cbn [advance]. rewrite (strchr_sep n_out "@" _ Ho).
  rewrite (copy_name_fits sizeof_device sizeof_device_ge n_out _ Lo).
  cbn [advance].
  change (String e (side ++ String "@" rest))
    with (String e side ++ String "@" rest)%string.
  rewrite (strchr_sep (String e side) "@" rest He).
  cbn [append parse_export advance].
  destruct (Ascii.eqb e "o"); [destruct s as [[] [] ? []]; reflexivity|].
  destruct (Ascii.eqb e "i"); [destruct s as [[] [] ? []]; reflexivity|].
  reflexivity.
Qed.

(** Rate and buffer count, each a possibly empty field of digits; the rate
    may have a minus sign in front of its digits. *)
Lemma parse_numbers_fields s (neg : bool) fps_d nbuf_d rest :
  all_digits fps_d = true -> decimal fps_d < 2 ^ 31 ->
  (neg = true -> fps_d <> EmptyString) ->
  all_digits nbuf_d = true -> decimal nbuf_d < 2 ^ 32 ->
  numbers s ((if neg then "-" else "") ++ fps_d ++ ":" ++ nbuf_d ++ ":"
             ++ rest)
  = size (set_config s
            (mk_config (fourcc (s_config s)) (format (s_config s))
                       (decimal nbuf_d)
                       (if neg then - decimal fps_d else decimal fps_d)
                       (frame_us (s_config s))))
         rest.
Proof.
  intros Hf Vf Hneg Hn Vn.
  assert (Pf : 0 <= decimal fps_d) by (apply digits_nonneg; lia).
  assert (Pn : 0 <= decimal nbuf_d) by (apply digits_nonneg; lia).
  assert (Hsep : strchr ((if neg then "-" else "") ++ fps_d) ":" = None).
  { destruct neg; cbn [append strchr]; [change (Ascii.eqb "-" ":") with false;
      cbv iota|]; apply all_digits_no_sep; auto. }
  unfold parse_numbers, NEXT_ARG.
  replace ((if neg then "-" else "") ++ fps_d ++ ":" ++ nbuf_d ++ ":" ++ rest)%string
    with (((if neg then "-" else "") ++ fps_d) ++ String ":" (nbuf_d ++ String ":" rest))%string
    by (destruct neg; reflexivity).
  rewrite (strchr_sep _ ":" _ Hsep).
  assert (Hst :
    strtoul LONG_BIT
      (((if neg then "-" else "") ++ fps_d) ++
       String ":" (nbuf_d ++ String ":" rest))
    = (if neg then (2 ^ LONG_BIT - decimal fps_d) mod 2 ^ LONG_BIT
       else decimal fps_d, String ":" (nbuf_d ++ String ":" rest))).
  { destruct neg; cbn [append].
    - apply strtoul_minus; auto. change (2 ^ 31) with 2147483648 in Vf.
      change (2 ^ 32) with 4294967296. lia.
    - apply strtoul_digits; auto. change (2 ^ 31) with 2147483648 in Vf.
      change (2 ^ 32) with 4294967296. lia. }
  rewrite Hst. cbn [advance].
  rewrite (strchr_sep nbuf_d ":" rest (all_digits_no_sep nbuf_d ":" Hn eq_refl)).
  rewrite strtoul_digits by auto. cbn [advance].
  rewrite (u32_id (decimal nbuf_d)) by lia.
  replace (to_int (if neg then (2 ^ LONG_BIT - decimal fps_d) mod 2 ^ LONG_BIT
                   else decimal fps_d))
    with (if neg then - decimal fps_d else decimal fps_d).
  - destruct s as [? ? ? []]; reflexivity.
  - destruct neg; [rewrite to_int_negated by lia | rewrite to_int_small by lia];
      reflexivity.
Qed.

(** A size of two numbers. *)
Lemma parse_size_numbers s w_d h_d cc :
  all_digits w_d = true -> w_d <> EmptyString -> decimal w_d < 2 ^ 32 ->
  all_digits h_d = true -> h_d <> EmptyString -> decimal h_d < 2 ^ 32 ->
  size s (w_d ++ "," ++ h_d ++ ":" ++ cc)
  = match pack_fourcc char_signed cc with
    | Some f => Parsed 0 (sized s (decimal w_d) (decimal h_d) f)
    | None => Wild
    end.
Proof.
  intros Hw Nw Vw Hh Nh Vh. unfold parse_size, NEXT_ARG. cbn [append].
  rewrite (strchr_app_absent w_d _ ":" (all_digits_no_sep w_d ":" Hw eq_refl)).
  cbn [strchr]. change (Ascii.eqb "," ":") with false. cbv iota.
  rewrite (strchr_sep h_d ":" cc (all_digits_no_sep h_d ":" Hh eq_refl)).
  unfold sscanf_u_u.
  rewrite (scan_u_digits w_d "," _ Hw Nw eq_refl Vw).
  change (Ascii.eqb "," ",") with true. cbv iota.
  rewrite (scan_u_digits h_d ":" _ Hh Nh eq_refl Vh).
  cbn [advance]. change (2 <? 0) with false. cbv iota.
  destruct (pack_fourcc char_signed cc); [|reflexivity].
  destruct s as [? ? ? [? [] ? ? ?]]; reflexivity.
Qed.

Lemma skip_space_no_number sz r :
  no_number sz = true ->
  scan_u (sz ++ String ":" r) = ScanFail.
Proof.
  unfold no_number, scan_u. destruct sz as [|c t]; intros H.
  - reflexivity.
  - apply negb_true_iff in H. apply orb_false_elim in H. destruct H as [H Hp].
    apply orb_false_elim in H. destruct H as [H Hm].
    apply orb_false_elim in H. destruct H as [Hd Hs].
    cbn [append skip_space]. rewrite Hs, Hd, Hp, Hm. reflexivity.
Qed.

(** A size that does not begin with a number. *)
Lemma parse_size_no_number s sz cc :
  strchr sz ":" = None -> no_number sz = true ->
  size s (sz ++ ":" ++ cc)
  = match pack_fourcc char_signed cc with
    | Some f =>
        Parsed 0 (sized s (width (format (s_config s)))
                        (height (format (s_config s))) f)
    | None => Wild
    end.
Proof.
  intros Hsep Hno. unfold parse_size, NEXT_ARG. cbn [append].
  rewrite (strchr_sep sz ":" cc Hsep).
  unfold sscanf_u_u. rewrite (skip_space_no_number sz cc Hno).
  change (0 <? 0) with false. cbv iota. cbn [advance].
  destruct (pack_fourcc char_signed cc); [|reflexivity].
  destruct s as [? ? ? [? [] ? ? ?]]; reflexivity.
Qed.

Lemma append_assoc_string (a b c : string) :
  ((a ++ b) ++ c = a ++ b ++ c)%string.
Proof. induction a; simpl; congruence. Qed.

Lemma command_line_eq n_in n_out side (neg : bool) fps_d nbuf_d size_f cc :
  command_line n_in n_out side ((if neg then "-" else "") ++ fps_d) nbuf_d
               size_f cc
  = (n_in ++ ":" ++ n_out ++ "@" ++ side ++ "@" ++
     ((if neg then "-" else "") ++ fps_d ++ ":" ++ nbuf_d ++ ":" ++
      size_f ++ ":" ++ cc))%string.
Proof.
  unfold command_line. rewrite (append_assoc_string _ fps_d). reflexivity.
Qed.

(** X1: a well-formed command line is taken apart as written: both names
    (up to 31 characters), the export side from the first letter of its
    field, the rate (digits, also with a minus sign), the number of buffers
    and the size as decimal numbers, and the fourcc from the next four
    characters.  The call returns 0. *)
Theorem parse_well_formed s n_in n_out e side (neg : bool) fps_d nbuf_d
    w_d h_d c0 c1 c2 c3 tail :
  strchr n_in ":" = None -> (String.length n_in <= 31)%nat ->
  strchr n_out "@" = None -> (String.length n_out <= 31)%nat ->
  strchr (String e side) "@" = None -> e = "o"%char \/ e = "i"%char ->
  all_digits fps_d = true -> decimal fps_d < 2 ^ 31 ->
  (neg = true -> fps_d <> EmptyString) ->
  all_digits nbuf_d = true -> decimal nbuf_d < 2 ^ 32 ->
  all_digits w_d = true -> w_d <> EmptyString -> decimal w_d < 2 ^ 32 ->
  all_digits h_d = true -> h_d <> EmptyString -> decimal h_d < 2 ^ 32 ->
  parse s (command_line n_in n_out (String e side)
             ((if neg then "-" else "") ++ fps_d) nbuf_d
             (w_d ++ "," ++ h_d)
             (String c0 (String c1 (String c2 (String c3 tail)))))
  = Parsed 0
      (sized (named s n_in n_out (Ascii.eqb e "i")
                    (if neg then - decimal fps_d else decimal fps_d)
                    (decimal nbuf_d))
             (decimal w_d) (decimal h_d)
             (fourcc_value char_signed c0 c1 c2 c3)).
Proof.
  intros Hi Li Ho Lo Hs He Hf Vf Hneg Hn Vn Hw Nw Vw Hh Nh Vh.
  rewrite command_line_eq.
  rewrite parse_names by assumption.
  rewrite !append_assoc_string.
  assert (Hnum : forall x,
    numbers (named s n_in n_out x (fps (s_config s)) (num_buffers (s_config s)))
      ((if neg then "-" else "") ++ fps_d ++ ":" ++ nbuf_d ++ ":" ++
       w_d ++ "," ++ h_d ++ ":" ++
       String c0 (String c1 (String c2 (String c3 tail))))
    = Parsed 0
      (sized (named s n_in n_out x
                    (if neg then - decimal fps_d else decimal fps_d)
                    (decimal nbuf_d))
             (decimal w_d) (decimal h_d)
             (fourcc_value char_signed c0 c1 c2 c3))).
  { intros x. rewrite parse_numbers_fields by assumption.
    rewrite parse_size_numbers by assumption. reflexivity. }
  destruct He as [-> | ->]; cbn [Ascii.eqb]; simpl; apply Hnum.
Qed.

(** X2: the size field is never rejected.  When it does not begin with a
    number the call still returns 0 and leaves width and height as they
    were before the call. *)
Theorem parse_size_not_checked s n_in n_out e side fps_d nbuf_d sz
    c0 c1 c2 c3 tail :
  strchr n_in ":" = None -> (String.length n_in <= 31)%nat ->
  strchr n_out "@" = None -> (String.length n_out <= 31)%nat ->
  strchr (String e side) "@" = None -> e = "o"%char \/ e = "i"%char ->
  all_digits fps_d = true -> decimal fps_d < 2 ^ 31 ->
  all_digits nbuf_d = true -> decimal nbuf_d < 2 ^ 32 ->
  strchr sz ":" = None -> no_number sz = true ->
  parse s (command_line n_in n_out (String e side) fps_d nbuf_d sz
             (String c0 (String c1 (String c2 (String c3 tail)))))
  = Parsed 0
      (sized (named s n_in n_out (Ascii.eqb e "i") (decimal fps_d)
                    (decimal nbuf_d))
             (width (format (s_config s))) (height (format (s_config s)))
             (fourcc_value char_signed c0 c1 c2 c3)).
Proof.
  intros Hi Li Ho Lo Hs He Hf Vf Hn Vn Hsep Hno.
  pose proof (command_line_eq n_in n_out (String e side) false fps_d nbuf_d
                sz (String c0 (String c1 (String c2 (String c3 tail)))))
    as E.
  cbn [append] in E. cbn [append]. rewrite E. clear E.
  pose proof (parse_names s n_in n_out e side
    (fps_d ++ String ":" (nbuf_d ++ String ":" (sz ++ String ":"
       (String c0 (String c1 (String c2 (String c3 tail)))))))
    Hi Li Ho Lo Hs) as E.
  cbn [append] in E. rewrite E. clear E.
  assert (Hnum : forall x,
    numbers (named s n_in n_out x (fps (s_config s)) (num_buffers (s_config s)))
      (fps_d ++ String ":" (nbuf_d ++ String ":" (sz ++ String ":"
         (String c0 (String c1 (String c2 (String c3 tail)))))))
    = Parsed 0
      (sized (named s n_in n_out x (decimal fps_d) (decimal nbuf_d))
             (width (format (s_config s))) (height (format (s_config s)))
             (fourcc_value char_signed c0 c1 c2 c3))).
  { intros x.
    pose proof (parse_numbers_fields
      (named s n_in n_out x (fps (s_config s)) (num_buffers (s_config s)))
      false fps_d nbuf_d
      (sz ++ String ":" (String c0 (String c1 (String c2 (String c3 tail)))))
      Hf Vf (fun H => False_ind _ (Bool.diff_false_true H)) Hn Vn) as E.
    cbn [append] in E. rewrite E. clear E.
    pose proof (parse_size_no_number
      (set_config
         (named s n_in n_out x (fps (s_config s)) (num_buffers (s_config s)))
         (mk_config (fourcc (s_config s)) (format (s_config s))
                    (decimal nbuf_d) (decimal fps_d) (frame_us (s_config s))))
      sz (String c0 (String c1 (String c2 (String c3 tail)))) Hsep Hno) as E.
    cbn [append] in E. exact E. }
  destruct He as [-> | ->]; cbn [Ascii.eqb]; simpl; apply Hnum.
Qed.

(** X3: a device name of 32 characters or more does not fit the 32 bytes
    of [devname]: the copy and the terminating NUL go past its end. *)
Theorem parse_long_name s n_in n_out rest :
  strchr n_in ":" = None -> strchr n_out "@" = None ->
  (32 <= String.length n_in)%nat \/
  ((String.length n_in <= 31)%nat /\ (32 <= String.length n_out)%nat) ->
  parse s (n_in ++ ":" ++ n_out ++ "@" ++ rest) = Wild.
Proof.
  intros Hi Ho [Li | [Li Lo]];
    unfold stream_parse_args, NEXT_ARG; cbn [append];
    rewrite (strchr_sep n_in ":" _ Hi).
  - rewrite (copy_name_overrun sizeof_device sizeof_device_ge n_in _ Li).
    reflexivity.
  - rewrite (copy_name_fits sizeof_device sizeof_device_ge n_in _ Li).
    cbn [advance]. rewrite (strchr_sep n_out "@" _ Ho).
    rewrite (copy_name_overrun sizeof_device sizeof_device_ge n_out _ Lo).
    reflexivity.
Qed.

Lemma pack_fourcc_short cc :
  (String.length cc < 3)%nat -> pack_fourcc char_signed cc = None.
Proof.
  intros H. unfold pack_fourcc.
  destruct cc as [|a [|b [|c t]]]; simpl in *; try reflexivity; lia.
Qed.

(** X4: a fourcc of fewer than three characters makes the parser read
    past the terminating NUL of the argument. *)
Theorem parse_short_fourcc s n_in n_out e side fps_d nbuf_d w_d h_d cc :
  strchr n_in ":" = None -> (String.length n_in <= 31)%nat ->
  strchr n_out "@" = None -> (String.length n_out <= 31)%nat ->
  strchr (String e side) "@" = None -> e = "o"%char \/ e = "i"%char ->
  all_digits fps_d = true -> decimal fps_d < 2 ^ 31 ->
  all_digits nbuf_d = true -> decimal nbuf_d < 2 ^ 32 ->
  all_digits w_d = true -> w_d <> EmptyString -> decimal w_d < 2 ^ 32 ->
  all_digits h_d = true -> h_d <> EmptyString -> decimal h_d < 2 ^ 32 ->
  (String.length cc < 3)%nat ->
  parse s (command_line n_in n_out (String e side) fps_d nbuf_d
             (w_d ++ "," ++ h_d) cc)
  = Wild.
Proof.
  intros Hi Li Ho Lo Hs He Hf Vf Hn Vn Hw Nw Vw Hh Nh Vh Hcc.
  pose proof (command_line_eq n_in n_out (String e side) false fps_d nbuf_d
                (w_d ++ "," ++ h_d) cc) as E.
  cbn [append] in E. cbn [append]. rewrite E. clear E.
  pose proof (parse_names s n_in n_out e side
    (fps_d ++ String ":" (nbuf_d ++ String ":" ((w_d ++ String "," h_d) ++
       String ":" cc))) Hi Li Ho Lo Hs) as E.
  cbn [append] in E. rewrite E. clear E.
  assert (Hnum : forall x,
    numbers (named s n_in n_out x (fps (s_config s)) (num_buffers (s_config s)))
      (fps_d ++ String ":" (nbuf_d ++ String ":" ((w_d ++ String "," h_d) ++
         String ":" cc)))
    = Wild).
  { intros x.
    pose proof (parse_numbers_fields
      (named s n_in n_out x (fps (s_config s)) (num_buffers (s_config s)))
      false fps_d nbuf_d ((w_d ++ String "," h_d) ++ String ":" cc)
      Hf Vf (fun H => False_ind _ (Bool.diff_false_true H)) Hn Vn) as E.
    cbn [append] in E. rewrite E. clear E.
    rewrite append_assoc_string.
    pose proof (parse_size_numbers
      (set_config
         (named s n_in n_out x (fps (s_config s)) (num_buffers (s_config s)))
         (mk_config (fourcc (s_config s)) (format (s_config s))
                    (decimal nbuf_d) (decimal fps_d) (frame_us (s_config s))))
      w_d h_d cc Hw Nw Vw Hh Nh Vh) as E.
    cbn [append] in E. rewrite pack_fourcc_short in E by exact Hcc.
    cbn [append]. exact E. }
  destruct He as [-> | ->]; cbn [Ascii.eqb]; simpl; apply Hnum.
Qed.

Lemma parse_size_devices s p r s' :
  size s p = Parsed r s' -> s_in s' = s_in s /\ s_out s' = s_out s.
Proof.
  unfold parse_size, NEXT_ARG.
  destruct (strchr p ":"); [|intros H; injection H as _ <-; auto].
  destruct (sscanf_u_u _ _ _) as [[[ret w] h]|]; [|discriminate].
  destruct (ret <? 0); [intros H; injection H as _ <-; auto|].
  destruct (pack_fourcc _ _); [|discriminate].
  intros H; injection H as _ <-; auto.
Qed.

Lemma parse_numbers_devices s p r s' :
  numbers s p = Parsed r s' -> s_in s' = s_in s /\ s_out s' = s_out s.
Proof.
  unfold parse_numbers, NEXT_ARG.
  destruct (strchr p ":"); [|intros H; injection H as _ <-; auto].
  destruct (strtoul LONG_BIT p) as [v endp].
  destruct (strchr (advance endp) ":"); [|intros H; injection H as _ <-; auto].
  destruct (strtoul LONG_BIT (advance endp)) as [v' endp'].
  intros H. apply parse_size_devices in H. exact H.
Qed.

(** The two devices after a call that returned 0: the other fields are as
    they were, and the export flags are opposite. *)
Lemma parse_devices s arg s' :
  parse s arg = Parsed 0 s' ->
  exists n_in n_out e,
    s_in s' = set_export (set_devname (s_in s) n_in) e /\
    s_out s' = set_export (set_devname (s_out s) n_out) (negb e).
Proof.
  unfold stream_parse_args, NEXT_ARG.
  destruct (strchr arg ":") as [e1|]; [|discriminate].
  destruct (copy_name _ arg e1) as [n1|]; [|discriminate].
  destruct (strchr (advance e1) "@") as [e2|]; [|discriminate].
  destruct (copy_name _ (advance e1) e2) as [n2|]; [|discriminate].
  destruct (strchr (advance e2) "@") as [e3|]; [|discriminate].
  unfold parse_export.
  destruct (advance e2) as [|c t]; [discriminate|].
  destruct (Ascii.eqb c "o").
  - intros H. apply parse_numbers_devices in H. destruct H as [-> ->].
    exists n1, n2, false. split; reflexivity.
  - destruct (Ascii.eqb c "i"); [|discriminate].
    intros H. apply parse_numbers_devices in H. destruct H as [-> ->].
    exists n1, n2, true. split; reflexivity.
Qed.

(** X5: whenever the call returns 0, exactly one of the two devices has
    its export flag set, whatever the flags were before. *)
Theorem parse_exports_one s arg s' :
  stream_parse_args sizeof_device LONG_BIT char_signed s arg = Parsed 0 s' ->
  export (s_in s') = negb (export (s_out s')).
Proof.
  intros H. apply parse_devices in H.
  destruct H as (n_in & n_out & e & -> & ->).
  cbn [set_export export]. destruct e; reflexivity.
Qed.

End ParseFacts.

Ltac side_condition :=
  first [ reflexivity | discriminate | lia | vm_compute; reflexivity
        | left; reflexivity | right; reflexivity
        | vm_compute; lia ].

(** [parse_well_formed] on the example of the usage text. *)
Lemma parse_well_formed_witness :
  ex_parse ex_junk ex_line
  = Parsed 0 (sized (named ex_junk "/dev/video0" "/dev/video1" false 5 4)
                    640 480 ex_fourcc).
Proof.
  refine (parse_well_formed 52 64 false _ _ ex_junk "/dev/video0"
            "/dev/video1" "o" "" false "5" "4" "640" "480" "Y" "U" "Y" "V"
            "" _ _ _ _ _ _ _ _ _ _ _ _ _ _ _ _ _); side_condition.
Defined.

(** [parse_size_not_checked] on a size that begins with a letter. *)
Lemma parse_size_not_checked_witness :
  ex_parse ex_junk "/dev/video0:/dev/video1@o@5:4:x480:YUYV"
  = Parsed 0 (sized (named ex_junk "/dev/video0" "/dev/video1" false 5 4)
                    7 7 ex_fourcc).
Proof.
  refine (parse_size_not_checked 52 64 false _ _ ex_junk "/dev/video0"
            "/dev/video1" "o" "" "5" "4" "x480" "Y" "U" "Y" "V" ""
            _ _ _ _ _ _ _ _ _ _ _ _); side_condition.
Defined.

(** [parse_long_name] on an input name of 38 characters. *)
Lemma parse_long_name_witness :
  ex_parse ex_junk
    "/dev/v4l/by-id/usb-camera-video-index0:/dev/video1@o@5:4:640,480:YUYV"
  = Wild.
Proof.
  refine (parse_long_name 52 64 false _ ex_junk
            "/dev/v4l/by-id/usb-camera-video-index0" "/dev/video1"
            "o@5:4:640,480:YUYV" _ _ _);
    first [ lia | reflexivity | left; simpl; lia ].
Defined.

(** [parse_short_fourcc] on a fourcc of one character. *)
Lemma parse_short_fourcc_witness :
  ex_parse ex_junk "/dev/video0:/dev/video1@o@5:4:640,480:Y" = Wild.
Proof.
  refine (parse_short_fourcc 52 64 false _ _ ex_junk "/dev/video0"
            "/dev/video1" "o" "" "5" "4" "640" "480" "Y"
            _ _ _ _ _ _ _ _ _ _ _ _ _ _ _ _ _);
    first [ side_condition | simpl; lia ].
Defined.

(** [parse_exports_one] on the example of the usage text. *)
Lemma parse_exports_one_witness :
  export (s_in (sized (named ex_junk "/dev/video0" "/dev/video1" false 5 4)
                      640 480 ex_fourcc))
  = negb (export (s_out (sized (named ex_junk "/dev/video0" "/dev/video1"
                                      false 5 4) 640 480 ex_fourcc))).
Proof.
  refine (parse_exports_one 52 64 false ex_junk ex_line _ _).
  vm_compute. reflexivity.
Defined.

(** ** [stream_dump_config] *)

Lemma code_range c : 0 <= code c < 256.
Proof.
  unfold code. pose proof (N_ascii_bounded c). lia.
Qed.

Lemma char_of_code c : char_of (code c) = c.
Proof.
  unfold char_of. rewrite Z.mod_small by apply code_range.
  unfold code. rewrite N2Z.id. apply ascii_N_embedding.
Qed.

Lemma byte_hi a i : 0 <= a < 256 -> 8 <= i -> Z.testbit a i = false.
Proof.
  intros Ha Hi. destruct (Z.eq_dec a 0) as [-> | Hne]; [apply Z.bits_0|].
  apply Z.bits_above_log2; [lia|].
  apply Z.log2_lt_pow2; [lia|].
  apply Z.lt_le_trans with (2 ^ 8); [change (2 ^ 8) with 256; lia|].
  apply Z.pow_le_mono_r; lia.
Qed.

Ltac byte_bits n :=
  repeat match goal with
  | |- context [Z.testbit ?a ?i] =>
      lazymatch i with n => fail | _ => idtac end;
      first [ rewrite (Z.testbit_neg_r a i) by lia
            | rewrite (byte_hi a i) by (assumption || lia)
            | replace i with n by lia ]
  end;
  rewrite ?orb_false_r, ?orb_false_l.

Lemma fourcc_bytes a0 a1 a2 a3 :
  0 <= a0 < 256 -> 0 <= a1 < 256 -> 0 <= a2 < 256 -> 0 <= a3 < 256 ->
  let f := Z.lor (Z.lor (Z.lor (u32 (Z.shiftl a0 0)) (u32 (Z.shiftl a1 8)))
                        (u32 (Z.shiftl a2 16))) (u32 (Z.shiftl a3 24)) in
  f mod 256 = a0 /\ Z.shiftr f 8 mod 256 = a1 /\
  Z.shiftr f 16 mod 256 = a2 /\ Z.shiftr f 24 mod 256 = a3.
Proof.
  intros H0 H1 H2 H3.
  rewrite (u32_id (Z.shiftl a0 0)), (u32_id (Z.shiftl a1 8)),
          (u32_id (Z.shiftl a2 16)), (u32_id (Z.shiftl a3 24));
    try (rewrite Z.shiftl_mul_pow2 by lia;
         change (2 ^ 0) with 1; change (2 ^ 8) with 256;
         change (2 ^ 16) with 65536; change (2 ^ 24) with 16777216;
         change (2 ^ 32) with 4294967296; lia).
  cbv zeta. change 256 with (2 ^ 8) at 1 2 3 4.
  repeat split; apply Z.bits_inj'; intros n Hn;
    destruct (Z.lt_ge_cases n 8) as [Hlt | Hge];
    try (rewrite Z.mod_pow2_bits_high by lia; symmetry; apply byte_hi;
         assumption);
    rewrite Z.mod_pow2_bits_low by lia;
    rewrite ?Z.shiftr_spec by lia;
    rewrite !Z.lor_spec; rewrite !Z.shiftl_spec by lia;
    byte_bits n; reflexivity.
Qed.

Section DumpFacts.

Variable char_signed : bool.

(** The four characters come back out of the fourcc they were packed
    into, when no sign extension took place. *)
Lemma fourcc_chars_value c0 c1 c2 c3 :
  char_signed = false \/
  (code c0 < 128 /\ code c1 < 128 /\ code c2 < 128 /\ code c3 < 128) ->
  fourcc_chars (fourcc_value char_signed c0 c1 c2 c3) = [c0; c1; c2; c3].
Proof.
  intros H.
  assert (U : forall c, In c [c0; c1; c2; c3] ->
                        unsigned_of_char char_signed c = code c).
  { intros c Hc. unfold unsigned_of_char.
    destruct H as [-> | (A0 & A1 & A2 & A3)]; [reflexivity|].
    replace (128 <=? code c) with false;
      [rewrite andb_false_r; reflexivity|].
    symmetry. apply Z.leb_gt.
    simpl in Hc. destruct Hc as [<- | [<- | [<- | [<- | []]]]]; assumption. }
  unfold fourcc_value.
  rewrite (U c0), (U c1), (U c2), (U c3) by (simpl; auto).
  destruct (fourcc_bytes (code c0) (code c1) (code c2) (code c3)
              (code_range c0) (code_range c1) (code_range c2) (code_range c3))
    as (B0 & B1 & B2 & B3).
  unfold fourcc_chars, char_of. rewrite B0, B1, B2, B3.
  pose proof (char_of_code c0) as E0. pose proof (char_of_code c1) as E1.
  pose proof (char_of_code c2) as E2. pose proof (char_of_code c3) as E3.
  unfold char_of in E0, E1, E2, E3.
  rewrite Z.mod_small in E0, E1, E2, E3 by apply code_range.
  rewrite E0, E1, E2, E3. reflexivity.
Qed.

(** X6: the fourcc goes round.  A stream whose fourcc was packed from four
    characters by [stream_parse_args] is printed by [stream_dump_config]
    with these four characters, provided none of them is NUL and none was
    sign-extended (plain [char] unsigned, or all four below 128). *)
Theorem dump_shows_fourcc s c0 c1 c2 c3 :
  c0 <> zero -> c1 <> zero -> c2 <> zero -> c3 <> zero ->
  char_signed = false \/
  (code c0 < 128 /\ code c1 < 128 /\ code c2 < 128 /\ code c3 < 128) ->
  dump_fourcc
    (stream_dump_config
       (set_config s (set_fourcc (s_config s)
                                 (fourcc_value char_signed c0 c1 c2 c3))))
  = String c0 (String c1 (String c2 (String c3 EmptyString))).
Proof.
  intros N0 N1 N2 N3 H.
  unfold stream_dump_config, dump_fourcc, set_config, set_fourcc.
  cbn [s_config fourcc]. rewrite (fourcc_chars_value c0 c1 c2 c3 H).
  cbn [app c_string].
  apply Ascii.eqb_neq in N0, N1, N2, N3. rewrite N0, N1, N2, N3.
  reflexivity.
Qed.

End DumpFacts.

(** [dump_shows_fourcc] on YUYV. *)
Lemma dump_shows_fourcc_witness :
  dump_fourcc
    (stream_dump_config
       (set_config ex_junk
          (set_fourcc (s_config ex_junk) (fourcc_value false "Y" "U" "Y" "V"))))
  = "YUYV"%string.
Proof.
  refine (dump_shows_fourcc false ex_junk "Y" "U" "Y" "V" _ _ _ _ _);
    first [ discriminate | left; reflexivity ].
Defined.

(** ** [manager_parse_args] *)

Lemma length_update_nth {A} (l : list A) i x :
  List.length (update_nth l i x) = List.length l.
Proof.
  revert i. induction l as [|y t IH]; intros [|i]; simpl; auto.
Qed.

Lemma update_nth_app {A} (done : list A) y t x :
  update_nth (done ++ y :: t) (List.length done) x = (done ++ [x]) ++ t.
Proof.
  induction done as [|z done IH]; simpl; [reflexivity|]. rewrite IH.
  reflexivity.
Qed.

Lemma digits_all ds :
  all_digits ds = true -> forall acc, snd (digits ds acc) = EmptyString.
Proof.
  induction ds as [|c t IH]; intros H acc; simpl; [reflexivity|].
  simpl in H. apply andb_prop in H. destruct H as [Hc Ht]. rewrite Hc.
  apply IH. exact Ht.
Qed.

(** A number that fills the whole argument. *)
Lemma scan_u_all ds :
  all_digits ds = true -> ds <> EmptyString -> decimal ds < 2 ^ 32 ->
  scan_u ds = ScanOk (decimal ds) EmptyString.
Proof.
  intros Hd Hne Hv. unfold scan_u, decimal in *.
  destruct ds as [|d t]; [congruence|].
  pose proof (digits_all _ Hd 0) as Hs.
  cbn [all_digits] in Hd. apply andb_prop in Hd. destruct Hd as [Hd Ht].
  cbn [skip_space]. rewrite (digit_not_space d Hd). rewrite Hd.
  destruct (digits (String d t) 0) as [v rest]. cbn [fst snd] in *.
  subst rest. apply Z.ltb_lt in Hv. rewrite Hv. reflexivity.
Qed.

(** An argument that does not begin with a number. *)
Lemma scan_u_no_number a :
  no_number a = true -> a <> EmptyString -> scan_u a = ScanFail.
Proof.
  unfold no_number, scan_u. destruct a as [|c t]; intros H Hne;
    [congruence|].
  apply negb_true_iff in H. apply orb_false_elim in H. destruct H as [H Hp].
  apply orb_false_elim in H. destruct H as [H Hm].
  apply orb_false_elim in H. destruct H as [Hd Hs].
  cbn [skip_space]. rewrite Hs, Hd, Hp, Hm. reflexivity.
Qed.

Lemma scan_u_nonneg s v rest : scan_u s = ScanOk v rest -> 0 <= v.
Proof.
  unfold scan_u. destruct (skip_space s) as [|c t]; [discriminate|].
  destruct (isdigit c).
  - pose proof (digits_nonneg (String c t) 0 (Z.le_refl 0)) as P.
    destruct (digits (String c t) 0) as [v' r']. cbn [fst] in P.
    destruct (v' <? 2 ^ 32); [|discriminate].
    intros H; injection H as <- _. exact P.
  - destruct (Ascii.eqb c "+").
    + destruct t as [|c' t']; [discriminate|].
      destruct (isdigit c'); [|discriminate].
      pose proof (digits_nonneg (String c' t') 0 (Z.le_refl 0)) as P.
      destruct (digits (String c' t') 0) as [v' r']. cbn [fst] in P.
      destruct (v' <? 2 ^ 32); [|discriminate].
      intros H; injection H as <- _. exact P.
    + destruct (Ascii.eqb c "-"); [|discriminate].
      destruct t as [|c' t']; [discriminate|].
      destruct (isdigit c'); discriminate.
Qed.

Lemma sscanf_u_nonneg s old n : sscanf_u s old = Some (1, n) -> 0 <= n.
Proof.
  unfold sscanf_u. destruct (scan_u s) as [| |v rest|] eqn:E;
    try discriminate.
  intros H; injection H as <-. apply (scan_u_nonneg s v rest E).
Qed.

Section ManagerFacts.

Variable sizeof_device : Z.
Variable LONG_BIT : Z.
Variable char_signed : bool.
Variable sizeof_stream : Z.
Variable SIZE_BIT : Z.
Variable malloc_grants : Z -> bool.
Variable junk : stream.

Local Abbreviation parse :=
  (stream_parse_args sizeof_device LONG_BIT char_signed).
Local Abbreviation options :=
  (parse_options sizeof_device LONG_BIT char_signed sizeof_stream SIZE_BIT
                 malloc_grants junk).
Local Abbreviation manager_args :=
  (manager_parse_args sizeof_device LONG_BIT char_signed sizeof_stream
                      SIZE_BIT malloc_grants junk).
Local Abbreviation malloc :=
  (malloc_streams sizeof_stream SIZE_BIT malloc_grants junk).
Local Abbreviation ok :=
  (accepted sizeof_device LONG_BIT char_signed junk).
Local Abbreviation result_of :=
  (parsed_stream sizeof_device LONG_BIT char_signed junk).

Lemma accepted_parse a :
  ok a = true -> parse junk a = Parsed 0 (result_of a).
Proof.
  unfold accepted, parsed_stream.
  destruct (parse junk a) as [r s|]; [|discriminate].
  destruct r; [reflexivity|discriminate|discriminate].
Qed.

(** The room of an allocation never exceeds the count it was made for. *)
Lemma room_le n : 0 <= n -> room sizeof_stream SIZE_BIT n <= n.
Proof.
  intros Hn. unfold room, alloc_bytes.
  assert (HM : 0 <= 2 ^ SIZE_BIT) by apply Z.pow_nonneg, Z.le_0_2.
  destruct (Z.eq_dec (2 ^ SIZE_BIT) 0) as [E0 | HMpos].
  - rewrite E0, !Z.mod_0_r.
    destruct (Z.eq_dec sizeof_stream 0) as [-> | Hs].
    + rewrite Z.div_0_r. exact Hn.
    + rewrite Z.mul_comm, Z.div_mul by exact Hs. lia.
  - assert (Hb : 0 <= (sizeof_stream * (n mod 2 ^ SIZE_BIT)) mod 2 ^ SIZE_BIT)
      by (apply Z.mod_pos_bound; lia).
    destruct (Z.lt_trichotomy sizeof_stream 0) as [Hneg | [-> | Hpos]].
    + rewrite <- Z.div_opp_opp by lia.
      apply Z.le_trans with 0; [|exact Hn].
      apply Z.div_le_upper_bound; lia.
    + rewrite Z.div_0_r. exact Hn.
    + apply Z.div_le_upper_bound; [exact Hpos|].
      assert (H1 : n mod 2 ^ SIZE_BIT <= n) by (apply Z.mod_le; lia).
      assert (H2 : 0 <= n mod 2 ^ SIZE_BIT) by (apply Z.mod_pos_bound; lia).
      apply Z.le_trans with (sizeof_stream * (n mod 2 ^ SIZE_BIT)).
      * apply Z.mod_le; [nia | lia].
      * nia.
Qed.

(** What [malloc_streams] returns: junk streams, no more than asked for. *)
Lemma malloc_streams_shape n :
  0 <= n -> exists r, malloc n = repeat junk r /\ Z.of_nat r <= n /\
                      Z.of_nat r <= Z.max 0 (room sizeof_stream SIZE_BIT n).
Proof.
  intros Hn. unfold malloc_streams.
  destruct (malloc_grants _).
  - exists (Z.to_nat (room sizeof_stream SIZE_BIT n)).
    pose proof (room_le n Hn). split; [reflexivity|]. lia.
  - exists 0%nat. split; [reflexivity|]. lia.
Qed.

(** Without a wrap, and when [malloc] grants the request, there is room
    for exactly the count. *)
Lemma malloc_streams_exact n :
  0 <= n -> 0 < sizeof_stream -> sizeof_stream * n < 2 ^ SIZE_BIT ->
  malloc_grants (sizeof_stream * n) = true ->
  malloc n = repeat junk (Z.to_nat n).
Proof.
  intros Hn Hs Hfit Hg. unfold malloc_streams, room, alloc_bytes.
  assert (Hn' : n < 2 ^ SIZE_BIT) by nia.
  rewrite (Z.mod_small n) by lia.
  rewrite (Z.mod_small (sizeof_stream * n)) by nia.
  rewrite Hg. rewrite Z.mul_comm, Z.div_mul by lia. reflexivity.
Qed.

(** Accepted stream arguments fill the array from the left, as long as
    there is room. *)
Lemma parse_options_streams args :
  forall done r msgs rest K,
  forallb ok args = true ->
  (List.length args <= r)%nat ->
  Z.of_nat (List.length done + r) <= K ->
  options (mk_manager (Some (done ++ repeat junk r)) K)
          (Z.of_nat (List.length done)) msgs (stream_options args ++ rest)
  = options
      (mk_manager
         (Some ((done ++ map result_of args) ++
                repeat junk (r - List.length args)))
         K)
      (Z.of_nat (List.length done + List.length args)) msgs rest.
Proof.
  induction args as [|a args IH]; intros done r msgs rest K Hok Hlen HK.
  - simpl. rewrite app_nil_r, Nat.sub_0_r, Nat.add_0_r. reflexivity.
  - simpl in Hok. apply andb_prop in Hok. destruct Hok as [Ha Hok].
    simpl in Hlen. destruct r as [|r]; [lia|].
    cbn [stream_options map app parse_options].
    change (Ascii.eqb "S" "h") with false.
    change (Ascii.eqb "S" "n") with false.
    change (Ascii.eqb "S" "S") with true. cbv iota.
    cbn [streams num_streams repeat].
    rewrite length_app. cbn [List.length].
    replace (0 <=? Z.of_nat (List.length done)) with true
      by (symmetry; apply Z.leb_le; lia).
    replace (Z.of_nat (List.length done) <?
             Z.of_nat (List.length done + S (List.length (repeat junk r))))
      with true by (symmetry; apply Z.ltb_lt; lia).
    cbn [andb]. rewrite Nat2Z.id.
    rewrite nth_middle. rewrite (accepted_parse a Ha).
    change (0 <? 0) with false. cbv iota.
    replace (Z.of_nat (List.length done) + 1 >? K) with false
      by (symmetry; apply gtb_false; lia).
    rewrite update_nth_app.
    specialize (IH (done ++ [result_of a]) r msgs rest K Hok).
    rewrite length_app in IH. cbn [List.length] in IH.
    replace (Z.of_nat (List.length done) + 1)
      with (Z.of_nat (List.length done + 1)) by lia.
    fold (stream_options args).
    rewrite IH by lia.
    rewrite <- (app_assoc done [result_of a]). cbn [app map].
    replace (List.length done + 1 + List.length args)%nat
      with (List.length done + S (List.length args))%nat by lia.
    reflexivity.
Qed.

(** When the room is used up, the next stream argument is parsed into
    what lies behind the array. *)
Lemma parse_options_overrun args :
  forall done r msgs a rest K,
  forallb ok args = true ->
  (r <= List.length args)%nat ->
  Z.of_nat (List.length done + r) <= K ->
  options (mk_manager (Some (done ++ repeat junk r)) K)
          (Z.of_nat (List.length done)) msgs
          (stream_options args ++ ("S"%char, a) :: rest)
  = Wild.
Proof.
  intros done r msgs a rest K Hok Hlen HK.
  assert (E : stream_options args
              = stream_options (firstn r args)
                ++ stream_options (skipn r args)).
  { unfold stream_options. rewrite <- map_app, firstn_skipn. reflexivity. }
  rewrite E, <- app_assoc.
  assert (Hf : forallb ok (firstn r args) = true).
  { apply forallb_forall. intros x Hx.
    apply (proj1 (forallb_forall ok args) Hok).
    rewrite <- (firstn_skipn r args). apply in_or_app. left. exact Hx. }
  assert (Hl : List.length (firstn r args) = r)
    by (apply firstn_length_le; exact Hlen).
  rewrite parse_options_streams by (try assumption; lia).
  rewrite Hl, Nat.sub_diag. cbn [repeat]. rewrite app_nil_r.
  assert (Hnext : exists c x more,
            stream_options (skipn r args) ++ ("S"%char, a) :: rest
            = (c, x) :: more /\ c = "S"%char).
  { destruct (skipn r args) as [|y ys]; cbn [stream_options map app];
      eauto. }
  destruct Hnext as (c & x & more & -> & ->).
  cbn [parse_options].
  change (Ascii.eqb "S" "h") with false.
  change (Ascii.eqb "S" "n") with false.
  change (Ascii.eqb "S" "S") with true. cbv iota.
  cbn [streams]. rewrite length_app, length_map, Hl.
  replace (Z.of_nat (List.length done + r) <? Z.of_nat (List.length done + r))
    with false by (symmetry; apply Z.ltb_irrefl).
  rewrite andb_false_r. reflexivity.
Qed.

(** The option [-n] with a number. *)
Lemma parse_options_count m idx msgs k_d rest :
  all_digits k_d = true -> k_d <> EmptyString -> decimal k_d < 2 ^ 31 ->
  options m idx msgs (("n"%char, k_d) :: rest)
  = options (mk_manager (Some (malloc (decimal k_d))) (decimal k_d))
            idx msgs rest.
Proof.
  intros Hd Hne Hv.
  assert (P : 0 <= decimal k_d) by (apply digits_nonneg; lia).
  cbn [parse_options].
  change (Ascii.eqb "n" "h") with false.
  change (Ascii.eqb "n" "n") with true. cbv iota.
  unfold sscanf_u. rewrite scan_u_all; auto.
  2:{ change (2 ^ 31) with 2147483648 in Hv.
      change (2 ^ 32) with 4294967296. lia. }
  change (negb (1 =? 1)) with false. cbv iota.
  replace (decimal k_d >? INT_MAX) with false.
  2:{ symmetry. apply gtb_false. unfold INT_MAX.
      change (2 ^ 31) with 2147483648 in *. lia. }
  reflexivity.
Qed.

(** X7: the streams are parsed in the order of the [-S] options into the
    first entries of the array that [-n] allocates, provided the size of
    the allocation does not wrap in [size_t] and [malloc] grants it.
    Fewer [-S] options than announced are not an error: the call returns
    0 without a message, and the entries that were not given keep what the
    new memory held. *)
Theorem fewer_streams_accepted m0 argc k_d args :
  1 < argc ->
  all_digits k_d = true -> k_d <> EmptyString -> decimal k_d < 2 ^ 31 ->
  0 < sizeof_stream ->
  sizeof_stream * decimal k_d < 2 ^ SIZE_BIT ->
  malloc_grants (sizeof_stream * decimal k_d) = true ->
  forallb ok args = true ->
  Z.of_nat (List.length args) <= decimal k_d ->
  manager_args m0 argc (("n"%char, k_d) :: stream_options args)
  = Parsed 0
      (mk_manager
         (Some (map result_of args ++
                repeat junk (Z.to_nat (decimal k_d) - List.length args)))
         (decimal k_d),
       []).
Proof.
  intros Hargc Hd Hne Hv Hs Hfit Hg Hok Hlen.
  assert (P : 0 <= decimal k_d) by (apply digits_nonneg; lia).
  unfold manager_parse_args.
  replace (argc <=? 1) with false by (symmetry; apply Z.leb_gt; lia).
  rewrite parse_options_count by assumption.
  rewrite malloc_streams_exact by assumption.
  pose proof (parse_options_streams args [] (Z.to_nat (decimal k_d)) [] []
                (decimal k_d) Hok) as E.
  cbn [List.length app Nat.add] in E. change (Z.of_nat 0) with 0 in E.
  rewrite app_nil_r in E.
  rewrite E by lia. reflexivity.
Qed.

(** X8: one [-S] option more than [-n] announced is handed to
    [stream_parse_args] with the memory behind the array as its stream;
    the test that would warn about the number of streams comes after
    this. *)
Theorem surplus_stream_overruns m0 argc k_d args a rest :
  1 < argc ->
  all_digits k_d = true -> k_d <> EmptyString -> decimal k_d < 2 ^ 31 ->
  forallb ok args = true ->
  Z.of_nat (List.length args) = decimal k_d ->
  manager_args m0 argc
    (("n"%char, k_d) :: stream_options args ++ ("S"%char, a) :: rest)
  = Wild.
Proof.
  intros Hargc Hd Hne Hv Hok Hlen.
  assert (P : 0 <= decimal k_d) by (apply digits_nonneg; lia).
  unfold manager_parse_args.
  replace (argc <=? 1) with false by (symmetry; apply Z.leb_gt; lia).
  rewrite parse_options_count by assumption.
  destruct (malloc_streams_shape (decimal k_d) P) as (r & -> & Hr & _).
  apply (parse_options_overrun args [] r [] a rest (decimal k_d) Hok);
    cbn [List.length Nat.add]; lia.
Qed.

(** X25: when the size of the allocation wraps in [size_t], or [malloc]
    returns NULL, the array is shorter than [num_streams] says.  The
    [-S] option that follows the last one there is room for is parsed
    into what lies behind the array, although fewer streams were given
    than [-n] announced. *)
Theorem short_allocation_overruns m0 argc k_d args a rest :
  1 < argc ->
  all_digits k_d = true -> k_d <> EmptyString -> decimal k_d < 2 ^ 31 ->
  forallb ok args = true ->
  room sizeof_stream SIZE_BIT (decimal k_d) <= Z.of_nat (List.length args) ->
  manager_args m0 argc
    (("n"%char, k_d) :: stream_options args ++ ("S"%char, a) :: rest)
  = Wild.
Proof.
  intros Hargc Hd Hne Hv Hok Hlen.
  assert (P : 0 <= decimal k_d) by (apply digits_nonneg; lia).
  unfold manager_parse_args.
  replace (argc <=? 1) with false by (symmetry; apply Z.leb_gt; lia).
  rewrite parse_options_count by assumption.
  destruct (malloc_streams_shape (decimal k_d) P) as (r & -> & Hr & Hroom).
  apply (parse_options_overrun args [] r [] a rest (decimal k_d) Hok);
    cbn [List.length Nat.add]; lia.
Qed.

Lemma parse_options_no_count_warning opts :
  forall m idx msgs ret m' msgs',
  sized_array m ->
  ~ In (MsgWarn "num streams") msgs ->
  options m idx msgs opts = Parsed ret (m', msgs') ->
  ~ In (MsgWarn "num streams") msgs'.
Proof.
  induction opts as [|[c optarg] rest IH];
    intros m idx msgs ret m' msgs' Hm Hmsgs H.
  - simpl in H. injection H as _ _ <-. exact Hmsgs.
  - cbn [parse_options] in H.
    destruct (Ascii.eqb c "h").
    { injection H as _ _ <-. intros Hin. apply in_app_or in Hin.
      destruct Hin as [Hin | [Hin | []]]; [auto | discriminate]. }
    destruct (Ascii.eqb c "n").
    { destruct (sscanf_u optarg (num_streams m)) as [[r n]|] eqn:Es;
        [|discriminate].
      destruct (r =? 1) eqn:Er; cbn [negb] in H.
      - apply Z.eqb_eq in Er. subst r.
        destruct (n >? INT_MAX); [discriminate|].
        eapply IH; [| exact Hmsgs | exact H].
        unfold sized_array. cbn [streams num_streams].
        destruct (malloc_streams_shape n (sscanf_u_nonneg _ _ _ Es))
          as (k & -> & Hk & _).
        rewrite repeat_length. exact Hk.
      - injection H as _ _ <-. intros Hin. apply in_app_or in Hin.
        destruct Hin as [Hin | [Hin | []]]; [auto | discriminate]. }
    destruct (Ascii.eqb c "S").
    { unfold sized_array in Hm.
      destruct (streams m) as [arr|] eqn:Harr; [|discriminate].
      destruct ((0 <=? idx) && (idx <? Z.of_nat (List.length arr))) eqn:Hin;
        [|discriminate].
      apply andb_prop in Hin. destruct Hin as [H0 H1].
      apply Z.leb_le in H0. apply Z.ltb_lt in H1.
      destruct (parse (nth (Z.to_nat idx) arr junk) optarg) as [r s'|];
        [|discriminate].
      destruct (r <? 0).
      - injection H as _ _ <-. intros Hin. apply in_app_or in Hin.
        destruct Hin as [Hin | [Hin | [Hin | []]]];
          [auto | discriminate | discriminate].
      - cbn [num_streams] in H.
        replace (idx + 1 >? num_streams m) with false in H
          by (symmetry; apply gtb_false; lia).
        eapply IH; [| exact Hmsgs | exact H].
        unfold sized_array. cbn [streams num_streams].
        rewrite length_update_nth. exact Hm. }
    injection H as _ _ <-. intros Hin. apply in_app_or in Hin.
    destruct Hin as [Hin | [Hin | []]]; [auto | discriminate].
Qed.

(** X9: the warning about the number of streams is never printed.
    Starting from a manager whose array has not been allocated, in every
    run that stays inside its objects (and stores no count that its [int]
    cannot hold) the test [++idx > num_streams] is false each time it is
    reached. *)
Theorem count_check_never_fires m0 argc opts ret m msgs :
  streams m0 = None ->
  manager_args m0 argc opts = Parsed ret (m, msgs) ->
  ~ In (MsgWarn "num streams") msgs.
Proof.
  intros Hm0. unfold manager_parse_args.
  destruct (argc <=? 1).
  - intros H. injection H as _ _ <-. intros [Hin | []]. discriminate.
  - intros H. eapply parse_options_no_count_warning; [| | exact H].
    + unfold sized_array. rewrite Hm0. exact I.
    + intros [].
Qed.

(** X10: a stream count that is not a number is reported as a warning but
    not as a failure: the call returns 0, the value of [sscanf], and
    leaves the manager as it was. *)
Theorem bad_count_returns_success m0 argc a rest :
  1 < argc -> no_number a = true -> a <> EmptyString ->
  manager_args m0 argc (("n"%char, a) :: rest)
  = Parsed 0 (m0, [MsgWarn "incorrect stream count"]).
Proof.
  intros Hargc Hno Hne. unfold manager_parse_args.
  replace (argc <=? 1) with false by (symmetry; apply Z.leb_gt; lia).
  cbn [parse_options].
  change (Ascii.eqb "n" "h") with false.
  change (Ascii.eqb "n" "n") with true. cbv iota.
  unfold sscanf_u. rewrite (scan_u_no_number a Hno Hne).
  reflexivity.
Qed.

(** Every way [parse_options] can end, from an empty list of messages. *)
Lemma parse_options_ends opts :
  forall m idx ret m' msgs,
  sized_array m ->
  options m idx [] opts = Parsed ret (m', msgs) ->
  (ret = 0 /\ msgs = []) \/
  (ret = 0 /\ msgs = [MsgWarn "incorrect stream count"]) \/
  (ret <> 0).
Proof.
  induction opts as [|[c optarg] rest IH]; intros m idx ret m' msgs Hm H.
  - simpl in H. injection H as <- _ <-. auto.
  - cbn [parse_options] in H.
    destruct (Ascii.eqb c "h").
    { injection H as <- _ _. right. right. discriminate. }
    destruct (Ascii.eqb c "n").
    { unfold sscanf_u in H.
      destruct (scan_u optarg) as [| |v r|] eqn:Es; try discriminate.
      - injection H as <- _ _. right. right. discriminate.
      - injection H as <- _ <-. right. left. auto.
      - cbn [Z.eqb Pos.eqb negb] in H.
        destruct (v >? INT_MAX); [discriminate|].
        eapply IH; [|exact H].
        unfold sized_array. cbn [streams num_streams].
        destruct (malloc_streams_shape v (scan_u_nonneg _ _ _ Es))
          as (k & -> & Hk & _).
        rewrite repeat_length. exact Hk. }
    destruct (Ascii.eqb c "S").
    { unfold sized_array in Hm.
      destruct (streams m) as [arr|] eqn:Harr; [|discriminate].
      destruct ((0 <=? idx) && (idx <? Z.of_nat (List.length arr))) eqn:Hin;
        [|discriminate].
      apply andb_prop in Hin. destruct Hin as [H0 H1].
      apply Z.leb_le in H0. apply Z.ltb_lt in H1.
      destruct (parse (nth (Z.to_nat idx) arr junk) optarg) as [r s'|];
        [|discriminate].
      destruct (r <? 0) eqn:Hr.
      - injection H as <- _ _. apply Z.ltb_lt in Hr. right. right. lia.
      - cbn [num_streams] in H.
        replace (idx + 1 >? num_streams m) with false in H
          by (symmetry; apply gtb_false; lia).
        eapply IH; [|exact H].
        unfold sized_array. cbn [streams num_streams].
        rewrite length_update_nth. exact Hm. }
    injection H as <- _ _. right. right. discriminate.
Qed.


End ManagerFacts.

(** [fewer_streams_accepted] on two announced streams and one given. *)
Lemma fewer_streams_accepted_witness :
  ex_manager_args ex_manager 5 [("n"%char, "2"%string); ("S"%char, ex_line)]
  = Parsed 0
      (mk_manager
         (Some [sized (named ex_junk "/dev/video0" "/dev/video1" false 5 4)
                      640 480 ex_fourcc;
                ex_junk])
         2,
       []).
Proof.
  refine (fewer_streams_accepted 52 64 false 184 64 ex_malloc ex_junk
            ex_manager 5 "2" [ex_line] _ _ _ _ _ _ _ _ _); side_condition.
Defined.

(** [surplus_stream_overruns] on one announced stream and two given. *)
Lemma surplus_stream_overruns_witness :
  ex_manager_args ex_manager 7
    [("n"%char, "1"%string); ("S"%char, ex_line); ("S"%char, ex_line)]
  = Wild.
Proof.
  refine (surplus_stream_overruns 52 64 false 184 64 ex_malloc ex_junk
            ex_manager 7 "1" [ex_line] ex_line [] _ _ _ _ _ _);
    side_condition.
Defined.

(** [count_check_never_fires] on a run that ends with a rejected stream
    argument. *)
Lemma count_check_never_fires_witness :
  ex_manager_args ex_manager 5
    [("n"%char, "1"%string); ("S"%char, "/dev/video0"%string)]
  = Parsed (-1)
      (mk_manager (Some [ex_junk]) 1,
       [MsgWarn "invalid stream args"; MsgDump (stream_dump_config ex_junk)])
  /\ ~ In (MsgWarn "num streams")
         [MsgWarn "invalid stream args"; MsgDump (stream_dump_config ex_junk)].
Proof.
  assert (H : ex_manager_args ex_manager 5
                [("n"%char, "1"%string); ("S"%char, "/dev/video0"%string)]
              = Parsed (-1)
                  (mk_manager (Some [ex_junk]) 1,
                   [MsgWarn "invalid stream args";
                    MsgDump (stream_dump_config ex_junk)]))
    by (vm_compute; reflexivity).
  split; [exact H|].
  exact (count_check_never_fires 52 64 false 184 64 ex_malloc ex_junk
           ex_manager 5 _ _ _ _ eq_refl H).
Defined.

(** [bad_count_returns_success] on the count [two]. *)
Lemma bad_count_returns_success_witness :
  ex_manager_args ex_manager 3 [("n"%char, "two"%string)]
  = Parsed 0 (ex_manager, [MsgWarn "incorrect stream count"]).
Proof.
  refine (bad_count_returns_success 52 64 false 184 64 ex_malloc ex_junk
            ex_manager 3 "two" [] _ _ _); side_condition.
Defined.


(** [short_allocation_overruns] where [size_t] has 32 bits and
    [sizeof(struct stream)] is 176: for 2^30 + 1 streams the size wraps to
    176 bytes, the room of one stream, and the second stream overruns. *)
Lemma short_allocation_overruns_witness :
  room 176 32 1073741825 = 1 /\
  manager_parse_args 52 32 false 176 32 ex_malloc ex_junk ex_manager 7
    [("n"%char, "1073741825"%string); ("S"%char, ex_line);
     ("S"%char, ex_line)]
  = Wild.
Proof.
  split; [vm_compute; reflexivity|].
  refine (short_allocation_overruns 52 32 false 176 32 ex_malloc ex_junk
            ex_manager 7 "1073741825" [ex_line] ex_line [] _ _ _ _ _ _);
    side_condition.
Defined.

(** ** The rest of the engine *)

Lemma land_pow2 y b :
  0 <= b -> Z.land y (2 ^ b) = if Z.testbit y b then 2 ^ b else 0.
Proof.
  intros Hb. apply Z.bits_inj'. intros n Hn.
  rewrite Z.land_spec, Z.pow2_bits_eqb by lia.
  destruct (Z.eqb_spec b n) as [<- | Hne].
  - rewrite andb_true_r. destruct (Z.testbit y b) eqn:E.
    + rewrite Z.pow2_bits_eqb, Z.eqb_refl by lia. reflexivity.
    + rewrite Z.bits_0. reflexivity.
  - rewrite andb_false_r. destruct (Z.testbit y b).
    + rewrite Z.pow2_bits_eqb by lia. symmetry. apply Z.eqb_neq. exact Hne.
    + rewrite Z.bits_0. reflexivity.
Qed.

(** The test [~caps.capabilities & type] of [device_init], for a role. *)
Lemma capability_test caps ty :
  ty = V4L2_CAP_VIDEO_CAPTURE \/ ty = V4L2_CAP_VIDEO_OUTPUT ->
  (Z.land (u32 (Z.lnot caps)) ty =? 0) = has_capability caps ty.
Proof.
  intros Hty. unfold has_capability, u32.
  assert (E : exists b, 0 <= b < 32 /\ ty = 2 ^ b /\ Z.log2 ty = b).
  { destruct Hty as [-> | ->]; [exists 0 | exists 1];
      repeat split; try reflexivity; lia. }
  destruct E as (b & Hb & -> & ->).
  rewrite land_pow2 by lia.
  rewrite Z.mod_pow2_bits_low by lia. rewrite Z.lnot_spec by lia.
  destruct (Z.testbit caps b); cbn [negb].
  - reflexivity.
  - apply Z.eqb_neq. apply Z.pow_nonzero; lia.
Qed.

Section EngineMore.

Variable drv : side -> driver.

(** X12: a node that opens and answers VIDIOC_QUERYCAP is accepted for a
    role exactly by the bit of that role in [caps.capabilities].  Without
    the bit [device_init] aborts, naming the capabilities and the role,
    before it asks for a format or for buffers; with the bit it never
    aborts for this reason. *)
Theorem missing_capability_aborts sd d c ty w :
  ty = V4L2_CAP_VIDEO_CAPTURE \/ ty = V4L2_CAP_VIDEO_OUTPUT ->
  0 <= drv_open (drv sd) -> drv_querycap (drv sd) = 0 ->
  (has_capability (drv_caps (drv sd)) ty = false ->
   exists w',
     device_init drv sd d c ty w = Abort (E_caps (drv_caps (drv sd)) ty) w' /\
     trace w' = trace w ++ [EvOpen (devname d) (drv_open (drv sd));
                            EvQUERYCAP sd;
                            EvStderr (E_caps (drv_caps (drv sd)) ty);
                            EvAbort]) /\
  (has_capability (drv_caps (drv sd)) ty = true ->
   forall a b w', device_init drv sd d c ty w <> Abort (E_caps a b) w').
Proof.
  intros Hty H1 H2. apply Z.ltb_ge in H1. apply Z.eqb_eq in H2.
  pose proof (capability_test (drv_caps (drv sd)) ty Hty) as H3.
  unfold device_init, bind, do_emit, ASSERT, ioctl_G_FMT, ioctl_S_FMT,
    ioctl_REQBUFS, ret; simpl.
  rewrite H1, H2; simpl. rewrite H3.
  split; intros Hcap; rewrite Hcap; simpl.
  - eexists; split; [reflexivity|].
    rewrite ?trace_emit, <- ?app_assoc. reflexivity.
  - intros a b w'.
    destruct (drv_g_fmt (drv sd) <? 0) eqn:E4; simpl; rewrite ?E4;
      [discriminate|].
    destruct (drv_s_fmt (drv sd) <? 0) eqn:E5; simpl; rewrite ?E5;
      [discriminate|].
    destruct (drv_g_fmt2 (drv sd) <? 0) eqn:E6; simpl; rewrite ?E6;
      [discriminate|].
    destruct (drv_reqbufs (drv sd) <? 0) eqn:E7; simpl; rewrite ?E7;
      [discriminate|].
    destruct (drv_grant (drv sd) (num_buffers c) <? num_buffers c);
      discriminate.
Qed.

(** X13: when VIDIOC_STREAMON fails on either node the thread aborts the
    process before the first [poll]; no VIDIOC_STREAMOFF is issued, so an
    input node that was started stays started. *)
Theorem start_failure_aborts s script w :
  (drv_streamon (drv DevIn) < 0 ->
   exists w',
     stream_on drv s script w = Abort E_STREAMON w' /\
     trace w' = trace w ++ [EvSTREAMON DevIn (buf_type (s_in s));
                            EvStderr E_STREAMON; EvAbort]) /\
  (0 <= drv_streamon (drv DevIn) -> drv_streamon (drv DevOut) < 0 ->
   exists w',
     stream_on drv s script w = Abort E_STREAMON w' /\
     trace w' = trace w ++ [EvSTREAMON DevIn (buf_type (s_in s));
                            EvSTREAMON DevOut (buf_type (s_out s));
                            EvStderr E_STREAMON; EvAbort]).
Proof.
  unfold stream_on, relay_body, with_cleanup, device_on, bind, do_emit,
    ASSERT.
  split.
  - intros H. apply Z.ltb_lt in H. rewrite H.
    eexists; split; [reflexivity|].
    rewrite ?trace_emit, <- ?app_assoc. reflexivity.
  - intros H1 H2. apply Z.ltb_ge in H1. apply Z.ltb_lt in H2.
    rewrite H1, H2.
    eexists; split; [reflexivity|].
    rewrite ?trace_emit, <- ?app_assoc. reflexivity.
Qed.

(** X14: when VIDIOC_STREAMOFF fails on the input node, [stream_on] never
    comes to an end of its own: the cleanup handler aborts the process,
    whether the loop had ended or the thread was cancelled, and the
    output node is never stopped. *)
Theorem teardown_failure_aborts s script w :
  drv_streamoff (drv DevIn) < 0 ->
  (forall w', stream_on drv s script w <> Ok tt w' /\
              stream_on drv s script w <> Cancel w') /\
  offs DevOut (world_of (stream_on drv s script w)) = offs DevOut w.
Proof.
  intros H. apply Z.ltb_lt in H.
  pose proof (quiet_relay_body drv DevOut (offs DevOut w) s script w eq_refl)
    as Q.
  unfold stream_on, with_cleanup.
  destruct (relay_body drv s script w) as [u w1|e w1|w1|w1];
    rewrite ?stream_off_eq; cbv zeta; rewrite ?H.
  - split; [intros w'; split; discriminate|].
    cbn [world_of]. rewrite !offs_emit. cbn [is_off side_eqb]. lia.
  - split; [intros w'; split; discriminate|]. cbn [world_of]. apply Q.
  - split; [intros w'; split; discriminate|].
    cbn [world_of]. rewrite !offs_emit. cbn [is_off side_eqb]. lia.
  - split; [intros w'; split; discriminate|]. cbn [world_of]. apply Q.
Qed.

End EngineMore.

(** ** More on pacing *)

Lemma usleeps_emit e w :
  usleeps (trace (emit e w))
  = usleeps (trace w) ++ match e with EvUsleep us => [us] | _ => [] end.
Proof.
  rewrite trace_emit. unfold usleeps. rewrite flat_map_app.
  cbn [flat_map]. rewrite app_nil_r. reflexivity.
Qed.

(** X15: whatever the clock shows, handing on one frame sleeps at most
    once, and never longer than one frame period. *)
Theorem pace_sleeps_at_most_a_frame c r t w :
  0 <= frame_us c < 2 ^ 32 ->
  let w' := world_of (pace c r t w) in
  usleeps (trace w') = usleeps (trace w) \/
  exists us, usleeps (trace w') = usleeps (trace w) ++ [us] /\
             0 < us <= frame_us c.
Proof.
  intros Hf w'. subst w'. unfold pace.
  destruct (frame_us c >? 0); [|left; reflexivity].
  unfold bind, gettimeofday.
  assert (Hr : 0 <= u32 (usec_of (now1 r) - prev t) < 2 ^ 32)
    by (apply Z.mod_pos_bound; reflexivity).
  remember (u32 (usec_of (now1 r) - prev t)) as de eqn:Ede.
  destruct (de <? frame_us c) eqn:Hlt.
  - apply Z.ltb_lt in Hlt. right. exists (frame_us c - de).
    rewrite (u32_small (frame_us c - de)) by lia.
    split; [|lia].
    unfold usleep, ret. destruct (sleep_cancel r); cbn [world_of];
      rewrite ?usleeps_emit; cbn iota beta;
      rewrite ?app_nil_r; reflexivity.
  - left. unfold ret. cbn [world_of].
    rewrite ?usleeps_emit. cbn iota beta. rewrite ?app_nil_r. reflexivity.
Qed.

(** X16: above a million frames per second the frame period rounds down to
    0 microseconds and pacing is off: the clock is not even read. *)
Theorem fast_rate_is_unpaced c r t w :
  1000000 < fps c ->
  frame_us c = frame_us_of_fps (fps c) ->
  pace c r t w = Ok t w.
Proof.
  intros Hf E. unfold pace. rewrite E.
  rewrite frame_us_of_fps_pos by lia.
  rewrite Z.div_small by lia. reflexivity.
Qed.

(** X24: free run is not free.  For a rate of 0 or less [stream_init]
    stores -1 in the unsigned [frame_us], which is 4294967295, so the
    test [frame_us > 0] of the pacing block holds: on every input-ready
    turn the relay reads the clock and, unless the delay it computes is
    exactly 4294967295, sleeps for 4294967295 minus that delay before it
    dequeues. *)
Theorem free_run_is_paced c r t w :
  fps c <= 0 ->
  frame_us c = frame_us_of_fps (fps c) ->
  sleep_cancel r = false ->
  u32 (usec_of (now1 r) - prev t) <> 4294967295 ->
  exists t' w',
    pace c r t w = Ok t' w' /\
    usleeps (trace w') =
    usleeps (trace w) ++ [4294967295 - u32 (usec_of (now1 r) - prev t)].
Proof.
  intros Hf E Hc Hd. apply free_run_pace_sleeps; try assumption.
  rewrite E. apply free_run_frame_us. exact Hf.
Qed.

(** ** More on the relay loop *)

(** X17: events other than POLLIN on the input and POLLOUT on the output
    are not looked at.  As long as [poll] reports only such events (an
    error on a node, say), the loop calls [poll] again and again, moves
    no buffer and prints nothing. *)
Theorem error_events_spin s script :
  forallb error_only script = true ->
  forall t w,
  exists w',
    relay_loop s script t w = Pending w' /\
    trace w' = trace w ++ repeat (EvPoll 5000) (List.length script) /\
    q_in w' = q_in w /\ q_out w' = q_out w /\ held w' = held w.
Proof.
  induction script as [|r rest IH]; intros H t w.
  - exists w. cbn [relay_loop List.length repeat]. rewrite app_nil_r. auto.
  - cbn [forallb] in H. apply andb_prop in H. destruct H as [Hr Hrest].
    unfold error_only in Hr.
    apply andb_prop in Hr. destruct Hr as [Hr Hout].
    apply andb_prop in Hr. destruct Hr as [Hr Hin].
    apply andb_prop in Hr. destruct Hr as [Hp Hc].
    apply negb_true_iff in Hc.
    destruct (IH Hrest t (emit (EvPoll 5000) w))
      as (w' & E & Tr & Q1 & Q2 & Q3).
    exists w'. split.
    + cbn [relay_loop]. unfold bind at 1. unfold poll. rewrite Hc, Hp.
      unfold relay_turn. rewrite Hin, Hout. cbn [negb].
      unfold bind, ret. exact E.
    + rewrite Tr, trace_emit, <- app_assoc. cbn [List.length repeat app].
      auto.
Qed.

(** X18: the loop ends on its own only right after a [poll] that returned
    0 or less, and every earlier [poll] returned more than 0.  A failed
    [poll] ends the loop like a timeout, without a message. *)
Theorem relay_ends_after_poll s script :
  forall t w u w',
  relay_loop s script t w = Ok u w' ->
  exists pre r post tr,
    script = pre ++ r :: post /\
    poll_ret r <= 0 /\
    forallb (fun r => poll_ret r >? 0) pre = true /\
    trace w' = tr ++ [EvPoll 5000].
Proof.
  induction script as [|r rest IH]; intros t w u w' H.
  - discriminate.
  - cbn [relay_loop] in H. apply bind_ok in H.
    destruct H as (res & w1 & Hpoll & H).
    unfold poll in Hpoll. destruct (poll_cancel r); [discriminate|].
    injection Hpoll as <- <-.
    destruct (poll_ret r >? 0) eqn:Hp.
    + apply bind_ok in H. destruct H as (t' & w2 & _ & H).
      destruct (IH _ _ _ _ H) as (pre & r' & post & tr & -> & Hr & Hpre & Tr).
      exists (r :: pre), r', post, tr. cbn [forallb app]. rewrite Hp.
      auto.
    + injection H as _ <-. exists [], r, rest, (trace w).
      rewrite trace_emit. rewrite Z.gtb_ltb in Hp. apply Z.ltb_ge in Hp.
      auto.
Qed.

(** ** Setup emits setup events only *)

Lemma grown_emit base e w :
  is_setup e = true -> grown base w -> grown base (emit e w).
Proof.
  intros He (tr & E & F). exists (tr ++ [e]).
  rewrite trace_emit, E, <- app_assoc. split; [reflexivity|].
  rewrite forallb_app, F. cbn [forallb]. rewrite He. reflexivity.
Qed.

Lemma grown_same base w w' :
  trace w' = trace w -> grown base w -> grown base w'.
Proof. intros E (tr & Ht & F). exists tr. rewrite E. auto. Qed.

Lemma only_setup_ret {A} (a : A) : only_setup (ret a).
Proof. intros base. apply hoare_ret. auto. Qed.

Lemma only_setup_bind {A B} (m : M A) (k : A -> M B) :
  only_setup m -> (forall a, only_setup (k a)) -> only_setup (bind m k).
Proof.
  intros Hm Hk base. eapply hoare_bind; [apply Hm|]. intros a. apply Hk.
Qed.

Lemma only_setup_if {A} (b : bool) (m1 m2 : M A) :
  only_setup m1 -> only_setup m2 -> only_setup (if b then m1 else m2).
Proof. destruct b; auto. Qed.

Lemma only_setup_emit e : is_setup e = true -> only_setup (do_emit e).
Proof.
  intros He base w Hw. unfold do_emit. apply grown_emit; assumption.
Qed.

Lemma only_setup_ASSERT c e : only_setup (ASSERT c e).
Proof.
  intros base w Hw. unfold ASSERT. destruct c; [|exact Hw].
  split; [|discriminate]. repeat apply grown_emit; auto.
Qed.

Lemma only_setup_for_loop {St} n (body : Z -> St -> M St) :
  (forall i s, only_setup (body i s)) ->
  forall i s, only_setup (for_loop n i body s).
Proof.
  intros Hb. induction n as [|n IH]; intros i s; cbn [for_loop].
  - apply only_setup_ret.
  - apply only_setup_bind; [apply Hb|]. intros s'. apply IH.
Qed.

Lemma only_setup_G_FMT d ty pix r : only_setup (ioctl_G_FMT d ty pix r).
Proof.
  intros base w Hw. unfold ioctl_G_FMT. apply grown_emit; auto.
Qed.

Lemma only_setup_QBUF vb r : only_setup (ioctl_QBUF DevIn vb r).
Proof.
  intros base w Hw. unfold ioctl_QBUF.
  destruct (r =? 0); [|apply grown_emit; auto].
  eapply grown_same; [|apply (grown_emit base (EvQBUF DevIn vb r) w); auto].
  reflexivity.
Qed.

Lemma only_setup_device_queue_buffer d b r :
  only_setup (device_queue_buffer DevIn d b r).
Proof.
  unfold device_queue_buffer.
  apply only_setup_bind; [apply only_setup_QBUF|]. intros a.
  apply only_setup_ASSERT.
Qed.

Section SetupOnly.

Variable drv : side -> driver.

Lemma only_setup_S_FMT d ty pix : only_setup (ioctl_S_FMT drv d ty pix).
Proof.
  intros base w Hw. unfold ioctl_S_FMT. cbv zeta.
  destruct (drv_s_fmt (drv d) <? 0); [apply grown_emit; auto|].
  eapply grown_same; [|apply (grown_emit base (EvS_FMT d ty pix) w); auto].
  destruct d; reflexivity.
Qed.

Lemma only_setup_REQBUFS d n ty mt : only_setup (ioctl_REQBUFS drv d n ty mt).
Proof.
  intros base w Hw. unfold ioctl_REQBUFS. apply grown_emit; auto.
Qed.

Lemma only_setup_EXPBUF d ty idx : only_setup (ioctl_EXPBUF drv d ty idx).
Proof.
  intros base w Hw. unfold ioctl_EXPBUF.
  destruct (drv_expbuf (drv d) (exports_of d w)) as [r efd].
  destruct (r <? 0); [apply grown_emit; auto|].
  eapply grown_same;
    [|apply (grown_emit base (EvEXPBUF d ty idx r efd) w); auto].
  reflexivity.
Qed.

Lemma only_setup_device_prepare_buffer sd d b :
  only_setup (device_prepare_buffer drv sd d b).
Proof.
  unfold device_prepare_buffer. apply only_setup_if.
  - apply only_setup_bind; [apply only_setup_EXPBUF|]. intros re.
    apply only_setup_bind; [apply only_setup_ASSERT|]. intros _.
    apply only_setup_ret.
  - apply only_setup_ret.
Qed.

Lemma only_setup_device_init sd d c ty :
  only_setup (device_init drv sd d c ty).
Proof.
  unfold device_init. cbv zeta.
  repeat first
    [ apply only_setup_ret
    | apply only_setup_ASSERT
    | apply only_setup_G_FMT
    | apply only_setup_S_FMT
    | apply only_setup_REQBUFS
    | apply only_setup_emit; reflexivity
    | apply only_setup_bind; [|intros ?] ].
Qed.

Lemma only_setup_stream_init s : only_setup (stream_init drv s).
Proof.
  unfold stream_init.
  apply only_setup_bind; [apply only_setup_device_init|]. intros i1.
  apply only_setup_bind; [apply only_setup_device_init|]. intros i2.
  cbv zeta.
  apply only_setup_bind.
  { apply only_setup_for_loop. intros i bs.
    apply only_setup_bind; [apply only_setup_device_prepare_buffer|].
    intros b1.
    apply only_setup_bind; [apply only_setup_device_prepare_buffer|].
    intros b2. apply only_setup_ret. }
  intros bs.
  apply only_setup_bind.
  { apply only_setup_for_loop. intros i u.
    apply only_setup_device_queue_buffer. }
  intros u. apply only_setup_ret.
Qed.

(** X19: setup only sets up.  Whatever the nodes answer, [stream_init]
    opens and configures them, exports, queues on the input node and
    prints; it starts no node, stops none, takes no buffer back, queues
    nothing on the output node and does not wait.  It ends by returning
    or by an abort. *)
Theorem setup_only_sets_up s w :
  (exists tr, trace (world_of (stream_init drv s w)) = trace w ++ tr /\
              forallb is_setup tr = true) /\
  match stream_init drv s w with
  | Ok _ _ | Abort _ _ => True
  | Cancel _ | Pending _ => False
  end.
Proof.
  assert (G : grown (trace w) w).
  { exists []. rewrite app_nil_r. auto. }
  pose proof (only_setup_stream_init s (trace w) w G) as H.
  destruct (stream_init drv s w) as [s' w'|e w'|w'|w']; cbn [world_of].
  - split; [exact H | exact I].
  - split; [exact (proj1 H) | exact I].
  - exfalso. apply (proj2 H). reflexivity.
  - exfalso. apply (proj2 H). reflexivity.
Qed.

(** ** The pool and its handles *)

Lemma stream_init_devices s w s' w' :
  stream_init drv s w = Ok s' w' ->
  s_in s' = mk_device (devname (s_in s)) (drv_open (drv DevIn))
              V4L2_CAP_VIDEO_CAPTURE V4L2_BUF_TYPE_VIDEO_CAPTURE
              (if export (s_in s) then V4L2_MEMORY_MMAP
               else V4L2_MEMORY_DMABUF)
              (export (s_in s)) /\
  s_out s' = mk_device (devname (s_out s)) (drv_open (drv DevOut))
               V4L2_CAP_VIDEO_OUTPUT V4L2_BUF_TYPE_VIDEO_OUTPUT
               (if export (s_out s) then V4L2_MEMORY_MMAP
                else V4L2_MEMORY_DMABUF)
               (export (s_out s)).
Proof.
  intros H. unfold stream_init in H.
  apply bind_ok in H. destruct H as ([din c1] & w1 & Hin & H).
  apply bind_ok in H. destruct H as ([dout c2] & w2 & Hout & H).
  cbn [fst snd] in H.
  apply bind_ok in H. destruct H as (bs & w3 & _ & H).
  apply bind_ok in H. destruct H as (u & w4 & _ & H).
  injection H as <- _.
  apply device_init_ok in Hin, Hout.
  destruct Hin as (_ & _ & -> & _). destruct Hout as (_ & _ & -> & _).
  split; reflexivity.
Qed.

End SetupOnly.

Lemma exports_of_own x hs w :
  exported w = map (fun h => (x, 0, h)) hs ->
  exports_of x w = List.length hs.
Proof.
  unfold exports_of. intros ->. induction hs as [|h t IH]; [reflexivity|].
  cbn [map filter fst]. replace (side_eqb x x) with true by (destruct x; reflexivity).
  cbn [List.length]. rewrite IH. reflexivity.
Qed.

Lemma handles_succ k n :
  handles k (S n) = handles k n ++ [snd (drv_expbuf k n)].
Proof.
  unfold handles. rewrite seq_S, map_app. reflexivity.
Qed.

Lemma length_handles k n : List.length (handles k n) = n.
Proof. unfold handles. rewrite length_map, length_seq. reflexivity. Qed.

Lemma nth_handles k n j d :
  (j < n)%nat -> nth j (handles k n) d = snd (drv_expbuf k j).
Proof.
  intros H. unfold handles.
  rewrite (nth_indep _ d (snd (drv_expbuf k 0)))
    by (rewrite length_map, length_seq; exact H).
  rewrite (map_nth (fun j => snd (drv_expbuf k j)) (seq 0 n) 0%nat j).
  rewrite seq_nth by exact H. reflexivity.
Qed.

Section Pool.

Variable drv : side -> driver.

Lemma device_prepare_buffer_exports sd d b w b' w' :
  export d = true ->
  device_prepare_buffer drv sd d b w = Ok b' w' ->
  b' = mk_buffer (index b) (snd (drv_expbuf (drv sd) (exports_of sd w))) /\
  exported w' = exported w ++
                [(sd, 0, snd (drv_expbuf (drv sd) (exports_of sd w)))].
Proof.
  intros He. unfold device_prepare_buffer. rewrite He.
  unfold bind, ioctl_EXPBUF, ASSERT, ret.
  destruct (drv_expbuf (drv sd) (exports_of sd w)) as [r efd]; simpl.
  destruct (r <? 0); [discriminate|].
  intros H; injection H as <- <-. split; reflexivity.
Qed.

Lemma device_prepare_buffer_skips sd d b w b' w' :
  export d = false ->
  device_prepare_buffer drv sd d b w = Ok b' w' -> b' = b /\ w' = w.
Proof.
  intros He. unfold device_prepare_buffer. rewrite He.
  intros H; injection H as <- <-. split; reflexivity.
Qed.

(** X20: the pool carries the handles of the exporting node in the order
    they were given out: entry [j] holds the handle of its export number
    [j], and each of these exports asked for buffer 0. *)
Theorem handles_in_order s w s' w' :
  stream_init drv s w = Ok s' w' ->
  exported w = [] ->
  export (s_in s) = negb (export (s_out s)) ->
  let x := exporter s in
  let n := Z.to_nat (num_buffers (s_config s)) in
  map dbuf_fd (buffers s') = handles (drv x) n /\
  exported w' = map (fun h => (x, 0, h)) (handles (drv x) n).
Proof.
  intros H Hfresh Hone x n. unfold stream_init in H.
  apply bind_ok in H. destruct H as ([din c1] & w1 & Hin & H).
  apply bind_ok in H. destruct H as ([dout c2] & w2 & Hout & H).
  cbn [fst snd] in H.
  apply device_init_ok in Hin.
  destruct Hin as (_ & _ & Hdin & Hc1 & _ & _ & _ & _ & _ & He1).
  apply device_init_ok in Hout.
  destruct Hout as (_ & _ & Hdout & Hc2 & _ & _ & _ & _ & _ & He2).
  assert (Hn2 : num_buffers c2 = num_buffers (s_config s))
    by (subst c2 c1; reflexivity).
  rewrite Hn2 in H. fold n in H.
  assert (Xin : export din = export (s_in s)) by (subst din; reflexivity).
  assert (Xout : export dout = export (s_out s)) by (subst dout; reflexivity).
  apply bind_ok in H. destruct H as (bs & w3 & Hprep & H).
  apply bind_ok in H. destruct H as ([] & w4 & Hprime & H).
  injection H as <- <-. cbn [buffers].
  (* the export loop *)
  pose (Inv1 := fun (i : Z) (bs : list buffer) (w : world) =>
    List.length bs = n /\
    (forall j, (j < Z.to_nat i)%nat ->
               dbuf_fd (nth j bs (mk_buffer 0 0))
               = snd (drv_expbuf (drv x) j)) /\
    exported w = map (fun h => (x, 0, h)) (handles (drv x) (Z.to_nat i))).
  assert (H1 : Inv1 (0 + Z.of_nat n) bs w3).
  { eapply (for_loop_ok Inv1); [| |exact Hprep].
    - intros i bs0 wa bs1 wb Hi (Hl & Hfd & Hex) Hbody.
      apply bind_ok in Hbody. destruct Hbody as (b1 & wc & Hp1 & Hbody).
      apply bind_ok in Hbody. destruct Hbody as (b2 & wd & Hp2 & Hbody).
      injection Hbody as <- <-.
      assert (Hi1 : Z.to_nat (i + 1) = S (Z.to_nat i)) by lia.
      assert (Hb2 : dbuf_fd b2 = snd (drv_expbuf (drv x) (Z.to_nat i)) /\
                    exported wd = exported wa ++
                      [(x, 0, snd (drv_expbuf (drv x) (Z.to_nat i)))]).
      { unfold x, exporter in *.
        destruct (export (s_in s)) eqn:Ein.
        - symmetry in Hone. apply negb_true_iff in Hone.
          rewrite ?Ein in Xin. rewrite ?Hone in Xout.
          apply (device_prepare_buffer_exports _ _ _ _ _ _ Xin) in Hp1.
          apply (device_prepare_buffer_skips _ _ _ _ _ _ Xout) in Hp2.
          destruct Hp1 as [-> E1]. destruct Hp2 as [-> ->].
          rewrite (exports_of_own DevIn _ wa Hex), length_handles in E1.
          rewrite (exports_of_own DevIn _ wa Hex), length_handles.
          split; [reflexivity | exact E1].
        - symmetry in Hone. apply negb_false_iff in Hone.
          rewrite ?Ein in Xin. rewrite ?Hone in Xout.
          apply (device_prepare_buffer_skips _ _ _ _ _ _ Xin) in Hp1.
          destruct Hp1 as [-> ->].
          apply (device_prepare_buffer_exports _ _ _ _ _ _ Xout) in Hp2.
          destruct Hp2 as [-> E2].
          rewrite (exports_of_own DevOut _ wa Hex), length_handles in E2.
          rewrite (exports_of_own DevOut _ wa Hex), length_handles.
          split; [reflexivity | exact E2]. }
      destruct Hb2 as [Hfd2 Hex2].
      unfold Inv1. rewrite length_set_nth. split; [exact Hl|]. split.
      + intros j Hj. destruct (Nat.eq_dec j (Z.to_nat i)) as [-> | Hne].
        * rewrite nth_set_nth_same by lia. exact Hfd2.
        * rewrite nth_set_nth_other by lia. apply Hfd. lia.
      + rewrite Hex2, Hex, Hi1, handles_succ, map_app. reflexivity.
    - unfold Inv1, calloc_buffers. rewrite repeat_length.
      split; [reflexivity|]. split; [intros j Hj; simpl in Hj; lia|].
      rewrite He2, He1, Hfresh. reflexivity. }
  destruct H1 as (Hl & Hfd & Hex).
  replace (Z.to_nat (0 + Z.of_nat n)) with n in Hfd, Hex by lia.
  (* the priming loop *)
  pose (Inv2 := fun (i : Z) (_ : unit) (w : world) =>
                  exported w = exported w3).
  assert (H2 : Inv2 (0 + Z.of_nat n) tt w4).
  { eapply (for_loop_ok Inv2); [| |exact Hprime].
    - intros i [] wa [] wb Hi A Hbody.
      apply device_queue_buffer_ok in Hbody.
      destruct Hbody as (_ & _ & _ & _ & _ & _ & Q). unfold Inv2.
      congruence.
    - reflexivity. }
  unfold Inv2 in H2. split; [|congruence].
  apply (nth_ext _ _ 0 0).
  - rewrite length_map, length_handles. exact Hl.
  - intros j Hj. rewrite length_map in Hj.
    rewrite nth_handles by lia.
    rewrite (nth_indep _ 0 (dbuf_fd (mk_buffer 0 0)))
      by (rewrite length_map; exact Hj).
    rewrite map_nth. apply Hfd. lia.
Qed.

(** X21: a stream that was parsed and then set up has one node with
    memory-mapped buffers, the one named in the export field, and imports
    them on the other node as dmabufs. *)
Theorem one_exports_other_imports sizeof_device LONG_BIT char_signed
    s0 arg s1 w s2 w' :
  stream_parse_args sizeof_device LONG_BIT char_signed s0 arg
    = Parsed 0 s1 ->
  stream_init drv s1 w = Ok s2 w' ->
  mem_type (s_in s2) <> mem_type (s_out s2) /\
  mem_type (match exporter s1 with DevIn => s_in s2 | DevOut => s_out s2 end)
    = V4L2_MEMORY_MMAP /\
  mem_type (match exporter s1 with DevIn => s_out s2 | DevOut => s_in s2 end)
    = V4L2_MEMORY_DMABUF.
Proof.
  intros Hp Hi. apply parse_devices in Hp.
  destruct Hp as (n_in & n_out & e & Hin & Hout).
  apply stream_init_devices in Hi. destruct Hi as [-> ->].
  unfold exporter. cbn [mem_type]. rewrite Hin, Hout.
  cbn [set_export export].
  destruct e; cbn [negb]; repeat split; try reflexivity; discriminate.
Qed.

End Pool.

(** ** What the relay passes on *)

Lemma idle_queued n w sd i :
  idle n w -> In i (queue_of sd w) -> 0 <= i < n.
Proof.
  intros [_ Hc] Hin. apply In_range.
  apply (Permutation_in i Hc). unfold places.
  apply in_or_app. right. apply in_or_app.
  destruct sd; [left | right]; exact Hin.
Qed.

(** X22: a buffer leaves for the other node as the buffer it came in as.
    The VIDIOC_QBUF that follows a VIDIOC_DQBUF names the index the
    kernel handed back, with the handle the pool holds for this index and
    the buffer type and memory type of the receiving device. *)
Theorem relay_passes_buffer n s r t w :
  pool_ok n (buffers s) -> idle n w ->
  (forall t' w',
     input_ready s r t w = Ok t' w' ->
     exists tr,
       trace w' = tr ++
         [EvDQBUF DevIn (dequeue_request (s_in s)) 0;
          EvQBUF DevOut
            (mk_vb (buf_type (s_out s)) (mem_type (s_out s))
                   (snd (dq_in r))
                   (dbuf_fd (buffer_at (buffers s) (snd (dq_in r)))))
            0]) /\
  (forall u w',
     output_ready s r w = Ok u w' ->
     trace w' = trace w ++
       [EvDQBUF DevOut (dequeue_request (s_out s)) 0;
        EvQBUF DevIn
          (mk_vb (buf_type (s_in s)) (mem_type (s_in s))
                 (snd (dq_out r))
                 (dbuf_fd (buffer_at (buffers s) (snd (dq_out r)))))
          0]).
Proof.
  intros [Hl Hidx] Hidle. split.
  - intros t' w' H. unfold input_ready in H.
    apply bind_ok in H. destruct H as (t1 & w1 & Hpace & H).
    apply bind_ok in H. destruct H as (b & w2 & Hdq & H).
    apply bind_ok in H. destruct H as (u & w3 & Hq & H).
    injection H as _ <-.
    apply pace_ok in Hpace. destruct Hpace as (P1 & P2 & P3).
    pose proof (device_dequeue_buffer_trace _ _ _ _ _ _ _ Hdq) as T1.
    pose proof (device_queue_buffer_trace _ _ _ _ _ _ _ Hq) as T2.
    apply device_dequeue_buffer_ok in Hdq. destruct Hdq as (Hin & -> & _).
    cbn [queue_of] in Hin. rewrite P1 in Hin.
    pose proof (idle_queued n w DevIn _ Hidle Hin) as Hi.
    exists (trace w1). rewrite T2, T1, <- app_assoc.
    unfold queue_request. rewrite (Hidx _ Hi). reflexivity.
  - intros u w' H. unfold output_ready in H.
    apply bind_ok in H. destruct H as (b & w2 & Hdq & Hq).
    pose proof (device_dequeue_buffer_trace _ _ _ _ _ _ _ Hdq) as T1.
    pose proof (device_queue_buffer_trace _ _ _ _ _ _ _ Hq) as T2.
    apply device_dequeue_buffer_ok in Hdq. destruct Hdq as (Hin & -> & _).
    pose proof (idle_queued n w DevOut _ Hidle Hin) as Hi.
    rewrite T2, T1, <- app_assoc.
    unfold queue_request. rewrite (Hidx _ Hi). reflexivity.
Qed.

(** ** The size field never fails *)

Lemma skip_space_colon p e :
  strchr p ":" = Some e -> skip_space p <> EmptyString.
Proof.
  induction p as [|c t IH]; [discriminate|].
  cbn [strchr skip_space].
  destruct (Ascii.eqb_spec c ":") as [-> | Hne].
  - intros _. change (isspace ":") with false. discriminate.
  - intros H. destruct (isspace c); [apply IH; exact H | discriminate].
Qed.

Lemma sscanf_u_u_colon p e w h ret w' h' :
  strchr p ":" = Some e ->
  sscanf_u_u p w h = Some (ret, w', h') -> 0 <= ret.
Proof.
  intros Hc. apply skip_space_colon in Hc. unfold sscanf_u_u.
  assert (Hs : scan_u p <> ScanEOF).
  { unfold scan_u. destruct (skip_space p) as [|c t]; [congruence|].
    destruct (isdigit c).
    - destruct (digits (String c t) 0) as [v rest].
      destruct (v <? 2 ^ 32); discriminate.
    - destruct (Ascii.eqb c "+").
      + destruct t as [|c' t']; [discriminate|].
        destruct (isdigit c'); [|discriminate].
        destruct (digits (String c' t') 0) as [v rest].
        destruct (v <? 2 ^ 32); discriminate.
      + destruct (Ascii.eqb c "-"); [|discriminate].
        destruct t as [|c' t']; [discriminate|].
        destruct (isdigit c'); discriminate. }
  destruct (scan_u p) as [| |v rest|]; try congruence.
  - intros H; injection H as <- _ _. lia.
  - destruct rest as [|c rest']; [intros H; injection H as <- _ _; lia|].
    destruct (Ascii.eqb c ",");
      [|intros H; injection H as <- _ _; lia].
    destruct (scan_u rest'); try discriminate;
      intros H; injection H as <- _ _; lia.
Qed.

(** X23: the test of the result of [sscanf] in [stream_parse_args] never
    fires, since the size field is always followed by a colon when it is
    scanned.  The part of the parser from the size on returns something
    else than 0 only when that colon is missing, and then leaves the
    stream as it was. *)
Theorem size_check_is_dead char_signed s p r s' :
  parse_size char_signed s p = Parsed r s' ->
  r <> 0 ->
  strchr p ":" = None /\ r = -1 /\ s' = s.
Proof.
  unfold parse_size, NEXT_ARG.
  destruct (strchr p ":") as [e|] eqn:Hc.
  - destruct (sscanf_u_u p _ _) as [[[ret w] h]|] eqn:Hs; [|discriminate].
    pose proof (sscanf_u_u_colon _ _ _ _ _ _ _ Hc Hs) as Hret.
    replace (ret <? 0) with false by (symmetry; apply Z.ltb_ge; exact Hret).
    destruct (pack_fourcc _ _); [|discriminate].
    intros H Hr. injection H as <- _. congruence.
  - intros H _. injection H as <- <-. auto.
Qed.

(** [size_check_is_dead] on a size with no colon after it. *)
Lemma size_check_is_dead_witness :
  strchr "640,480"%string ":" = None /\ -1 = -1 /\ ex_junk = ex_junk.
Proof.
  refine (size_check_is_dead false ex_junk "640,480" (-1) ex_junk _ _);
    first [ reflexivity | discriminate ].
Defined.

(** ** The theorems of this part at concrete inputs *)

(** [missing_capability_aborts] on an output node that can only capture. *)
Lemma missing_capability_aborts_witness :
  exists w',
    device_init ex_drv_no_output DevOut (s_out (ex_stream 30 2))
                (s_config (ex_stream 30 2)) V4L2_CAP_VIDEO_OUTPUT ex_world
      = Abort (E_caps 67108865 V4L2_CAP_VIDEO_OUTPUT) w' /\
    trace w' = trace ex_world ++
               [EvOpen "/dev/video1" 4; EvQUERYCAP DevOut;
                EvStderr (E_caps 67108865 V4L2_CAP_VIDEO_OUTPUT); EvAbort].
Proof.
  refine (proj1 (missing_capability_aborts ex_drv_no_output DevOut
                   (s_out (ex_stream 30 2)) (s_config (ex_stream 30 2))
                   V4L2_CAP_VIDEO_OUTPUT ex_world _ _ _) _);
    first [ right; reflexivity | reflexivity | simpl; lia ].
Defined.

(** [start_failure_aborts] on an output node that does not start. *)
Lemma start_failure_aborts_witness :
  exists w',
    stream_on ex_drv_no_start ex_primed [ex_input_ready] ex_primed_world
      = Abort E_STREAMON w' /\
    trace w' = trace ex_primed_world ++
               [EvSTREAMON DevIn 1; EvSTREAMON DevOut 2;
                EvStderr E_STREAMON; EvAbort].
Proof.
  refine (proj2 (start_failure_aborts ex_drv_no_start ex_primed
                   [ex_input_ready] ex_primed_world) _ _); simpl; lia.
Defined.

(** [teardown_failure_aborts] on an input node that does not stop, after
    a timeout. *)
Lemma teardown_failure_aborts_witness :
  offs DevOut
    (world_of (stream_on ex_drv_no_stop ex_primed [ex_timeout]
                         ex_primed_world))
  = offs DevOut ex_primed_world.
Proof.
  refine (proj2 (teardown_failure_aborts ex_drv_no_stop ex_primed
                   [ex_timeout] ex_primed_world _)).
  simpl. lia.
Defined.

(** [pace_sleeps_at_most_a_frame] on two frames 10 ms apart at 30 frames
    per second. *)
Lemma pace_sleeps_at_most_a_frame_witness :
  usleeps (trace (world_of ex_paced)) = usleeps (trace ex_primed_world) \/
  exists us,
    usleeps (trace (world_of ex_paced))
    = usleeps (trace ex_primed_world) ++ [us] /\
    0 < us <= frame_us (s_config ex_primed).
Proof.
  refine (pace_sleeps_at_most_a_frame (s_config ex_primed) ex_fast
            (mk_times 0 404635648 0) ex_primed_world _).
  simpl. lia.
Defined.

(** [fast_rate_is_unpaced] at two million frames per second. *)
Lemma fast_rate_is_unpaced_witness :
  pace (mk_config ex_fourcc ex_pix 2 2000000 0) ex_fast (mk_times 0 0 0)
       ex_primed_world
  = Ok (mk_times 0 0 0) ex_primed_world.
Proof.
  refine (fast_rate_is_unpaced (mk_config ex_fourcc ex_pix 2 2000000 0)
            ex_fast (mk_times 0 0 0) ex_primed_world _ _);
    first [ reflexivity | simpl; lia ].
Defined.

(** [error_events_spin] on two rounds of POLLERR. *)
Lemma error_events_spin_witness :
  exists w',
    relay_loop ex_primed [ex_error; ex_error] (mk_times 0 0 0)
               ex_primed_world = Pending w' /\
    trace w' = trace ex_primed_world ++ repeat (EvPoll 5000) 2 /\
    q_in w' = q_in ex_primed_world /\ q_out w' = q_out ex_primed_world /\
    held w' = held ex_primed_world.
Proof.
  refine (error_events_spin ex_primed [ex_error; ex_error] _
            (mk_times 0 0 0) ex_primed_world).
  reflexivity.
Defined.

(** [relay_ends_after_poll] on a run whose second [poll] fails. *)
Lemma relay_ends_after_poll_witness :
  exists pre r post tr,
    [ex_output_ready; ex_poll_fails; ex_input_ready] = pre ++ r :: post /\
    poll_ret r <= 0 /\
    forallb (fun r => poll_ret r >? 0) pre = true /\
    trace (world_of ex_relay_run) = tr ++ [EvPoll 5000].
Proof.
  refine (relay_ends_after_poll ex_primed
            [ex_output_ready; ex_poll_fails; ex_input_ready]
            (mk_times 0 0 0) ex_mid_world tt (world_of ex_relay_run) _).
  vm_compute. reflexivity.
Defined.

(** [handles_in_order] on the stream of two buffers that the input node
    exports. *)
Lemma handles_in_order_witness :
  map dbuf_fd (buffers ex_primed) = handles (ex_drv DevIn) 2 /\
  exported (world_of ex_init)
  = map (fun h => (DevIn, 0, h)) (handles (ex_drv DevIn) 2).
Proof.
  refine (handles_in_order ex_drv (ex_stream 30 2) ex_world ex_primed
            (world_of ex_init) _ _ _);
    [ vm_compute; reflexivity | reflexivity | reflexivity ].
Defined.

(** [one_exports_other_imports] on the example of the usage text. *)
Lemma one_exports_other_imports_witness :
  match stream_init ex_drv
          (sized (named ex_junk "/dev/video0" "/dev/video1" false 5 4)
                 640 480 ex_fourcc) ex_world with
  | Ok s2 _ =>
      mem_type (s_in s2) <> mem_type (s_out s2) /\
      mem_type (s_out s2) = V4L2_MEMORY_MMAP /\
      mem_type (s_in s2) = V4L2_MEMORY_DMABUF
  | _ => False
  end.
Proof.
  destruct (stream_init ex_drv
              (sized (named ex_junk "/dev/video0" "/dev/video1" false 5 4)
                     640 480 ex_fourcc) ex_world)
    as [s2 w'|e w'|w'|w'] eqn:E;
    [| vm_compute in E; discriminate E ..].
  refine (one_exports_other_imports ex_drv 52 64 false ex_junk ex_line _
            ex_world s2 w' _ E).
  vm_compute. reflexivity.
Defined.

(** [relay_passes_buffer] on the first frame of the primed stream. *)
Lemma relay_passes_buffer_witness :
  exists tr,
    trace (world_of (input_ready ex_primed ex_input_ready (mk_times 0 0 0)
                                 ex_primed_world))
    = tr ++ [EvDQBUF DevIn (mk_vb 1 1 0 0) 0;
             EvQBUF DevOut (mk_vb 2 4 0 5) 0].
Proof.
  refine (proj1 (relay_passes_buffer 2 ex_primed ex_input_ready
                   (mk_times 0 0 0) ex_primed_world _ _) _ _ _).
  - split; [reflexivity|]. intros j Hj.
    assert (D : j = 0 \/ j = 1) by lia.
    destruct D as [-> | ->]; reflexivity.
  - split; [reflexivity|]. apply Permutation_refl.
  - vm_compute. reflexivity.
Defined.

(** [free_run_is_paced] on the first frame of a stream set up with
    fps = -1: the relay sleeps 3890331647 microseconds, about 65 minutes. *)
Lemma free_run_is_paced_witness :
  exists t' w',
    pace (mk_config ex_fourcc ex_pix 2 (-1) 4294967295) ex_input_ready
         (mk_times 0 0 0) ex_primed_world = Ok t' w' /\
    usleeps (trace w') = usleeps (trace ex_primed_world) ++ [3890331647].
Proof.
  refine (free_run_is_paced (mk_config ex_fourcc ex_pix 2 (-1) 4294967295)
            ex_input_ready (mk_times 0 0 0) ex_primed_world _ _ _ _);
    first [ reflexivity | simpl; lia | vm_compute; discriminate ].
Defined.
